(** * MotorNet task generators

    A shallow embedding of [MotorNet/tasks/tasks.py]: the base class [Task],
    the five trial generators, the timing sampler [generate_delay_time] and
    the closed-loop hook [recompute_targets].

    Conventions of the embedding.
    - A Python call that raises is a [Raise e]; one that returns is a [Ret v].
    - NumPy's global random generator is made explicit: every call site of
      [np.random.*] receives the outcome of its draw as an argument.
    - Numbers held by the generators (delays, probabilities, cue values)
      are rationals [Q], as every finite float is one. Arithmetic on them is
      exact, where NumPy rounds the result of each operation to binary64: a
      statement below holds of the code as far as it does not rest on the
      last bit of a sum, product or quotient. What rounding changes is
      settled on binary64 numbers themselves ([generate_delay_time_binary64]).
    - [recompute_targets] takes a square root, so its tensors range over an
      abstract scalar type (class [Scalar]); binary64 floats are an instance
      on which every definition evaluates.
    - The plant and the controller are collaborators of the module, not part
      of it: they are parameters. *)

From Stdlib Require Import String Bool ZArith QArith Qround Lia Lqa List.
From Stdlib Require Import Floats Uint63.
Import ListNotations.

Close Scope Q_scope.

(** * Part I: the embedding *)

(** ** Exceptions and results *)

Inductive exn : Set :=
| AttributeError
| IndexError
| KeyError
| OverflowError
| TypeError
| ValueError
| ZeroDivisionError
| InvalidArgumentError.

Inductive res (A : Type) : Type :=
| Ret (a : A)
| Raise (e : exn).

Arguments Ret {A} a.
Arguments Raise {A} e.

Definition bind {A B : Type} (m : res A) (k : A -> res B) : res B :=
  match m with
  | Ret a => k a
  | Raise e => Raise e
  end.

Notation "x <- m ;; k" := (bind m (fun x => k))
  (at level 61, m at next level, right associativity).

Definition returns {A : Type} (m : res A) : bool :=
  match m with Ret _ => true | Raise _ => false end.

(** ** Scalars held by tensors *)

Class Scalar (F : Type) : Type := {
  flit : Q -> F;            (* a numeric literal *)
  fadd : F -> F -> F;
  fsub : F -> F -> F;
  fmul : F -> F -> F;
  fsqrt : F -> F;
  fle : F -> F -> bool;     (* tf.less_equal *)
  feq : F -> F -> bool      (* tf.equal *)
}.

(** The only facts about scalars the results below rest on: how the literals
    of [recompute_targets] compare. *)
Class ScalarFacts (F : Type) `{Scalar F} : Prop := {
  zero_le_tol_reach : fle (flit 0) (flit (1 # 10)) = true;
  zero_le_tol_load : fle (flit 0) (flit (35 # 1000)) = true;
  tol_reach_le_self : fle (flit (1 # 10)) (flit (1 # 10)) = true;
  tol_load_le_self : fle (flit (35 # 1000)) (flit (35 # 1000)) = true;
  sentinel_gt_tol : fle (flit 1000) (flit (35 # 1000)) = false;
  minus_one_eq : feq (flit (-1)) (flit (-1)) = true
}.

(** Binary64 floats. *)
Definition float_of_Z (z : Z) : float :=
  match z with
  | Z0 => PrimFloat.of_uint63 0%uint63
  | Zpos p => PrimFloat.of_uint63 (Uint63.of_Z (Zpos p))
  | Zneg p => PrimFloat.opp (PrimFloat.of_uint63 (Uint63.of_Z (Zpos p)))
  end.

Definition float_lit (q : Q) : float :=
  PrimFloat.div (float_of_Z (Qnum q)) (float_of_Z (Zpos (Qden q))).

#[export] Instance float_Scalar : Scalar float := {
  flit := float_lit;
  fadd := PrimFloat.add;
  fsub := PrimFloat.sub;
  fmul := PrimFloat.mul;
  fsqrt := PrimFloat.sqrt;
  fle := PrimFloat.leb;
  feq := PrimFloat.eqb
}.

(** ** Tensors as nested lists *)

Definition tensor2 (F : Type) : Type := list (list F).
Definition tensor3 (F : Type) : Type := list (list (list F)).

(** A tensor as TensorFlow returns it from [generate]. Its rank belongs to
    it, also when it holds no entry: a batch has rank 3, and [tf.stack] of an
    empty list is the empty vector, of shape [(0,)]. *)
Inductive tf_tensor : Type :=
| Rank1 (v : list Q)
| Rank3 (x : tensor3 Q).

(** The trials of a batch. *)
Definition batch_of (x : tf_tensor) : tensor3 Q :=
  match x with
  | Rank3 b => b
  | Rank1 _ => []
  end.

Section ListOps.
Context {A B C : Type}.

(** Pairing of two axes of the same length. *)
Fixpoint zipM (f : A -> B -> res C) (xs : list A) (ys : list B)
  : res (list C) :=
  match xs, ys with
  | [], [] => Ret []
  | x :: xs', y :: ys' =>
      c <- f x y ;; cs <- zipM f xs' ys' ;; Ret (c :: cs)
  | _, _ => Raise InvalidArgumentError
  end.

(** Pairing of two axes under broadcasting: equal lengths, or one of the
    two has length one and is repeated. *)
Definition bzip (f : A -> B -> res C) (xs : list A) (ys : list B)
  : res (list C) :=
  if Nat.eqb (length xs) (length ys) then zipM f xs ys
  else match xs, ys with
       | [x], _ => zipM f (repeat x (length ys)) ys
       | _, [y] => zipM f xs (repeat y (length xs))
       | _, _ => Raise InvalidArgumentError
       end.

Fixpoint mapM (f : A -> res B) (xs : list A) : res (list B) :=
  match xs with
  | [] => Ret []
  | x :: xs' => b <- f x ;; bs <- mapM f xs' ;; Ret (b :: bs)
  end.
End ListOps.

Module TF.
Section Ops.
Context {F G H : Type}.

(** [x[:, :, a:b]] *)
Definition slice_last (a b : nat) (x : tensor3 F) : tensor3 F :=
  map (map (fun v => firstn (b - a) (skipn a v))) x.

(** [x[:, :, k]] *)
Definition index_last (k : nat) (x : tensor3 F) : res (tensor2 F) :=
  mapM (mapM (fun v => match nth_error v k with
                        | Some a => Ret a
                        | None => Raise InvalidArgumentError
                        end)) x.

(** An elementwise binary operator, with broadcasting. *)
Definition ew3 (g : F -> G -> H) (x : tensor3 F) (y : tensor3 G)
  : res (tensor3 H) :=
  bzip (bzip (bzip (fun a b => Ret (g a b)))) x y.

Definition ew2 (g : F -> G -> H) (x : tensor2 F) (y : tensor2 G)
  : res (tensor2 H) :=
  bzip (bzip (fun a b => Ret (g a b))) x y.

(** An elementwise unary operator. *)
Definition map3 (g : F -> G) (x : tensor3 F) : tensor3 G :=
  map (map (map g)) x.

Definition map2 (g : F -> G) (x : tensor2 F) : tensor2 G :=
  map (map g) x.

(** [tf.expand_dims(x, axis=2)] of a rank-2 tensor *)
Definition expand_dims_last (x : tensor2 F) : tensor3 F :=
  map (map (fun d => [d])) x.

(** [tf.tile(x, [1, 1, 2])] *)
Definition tile_last_twice (x : tensor3 F) : tensor3 F :=
  map (map (fun v => v ++ v)) x.

(** [tf.concat([x, y], axis=2)]: the other axes must agree. *)
Definition concat_last (x y : tensor3 F) : res (tensor3 F) :=
  zipM (zipM (fun u v => Ret (u ++ v))) x y.

End Ops.

(** [tf.where(c, x, y)] on three rank-3 tensors *)
Definition where3 {F : Type} (c : tensor3 bool) (x y : tensor3 F)
  : res (tensor3 F) :=
  cx <- ew3 (fun (b : bool) (a : F) => (b, a)) c x ;;
  ew3 (fun (ca : bool * F) (e : F) => if fst ca then snd ca else e) cx y.

Section Arith.
Context {F : Type} `{Scalar F}.

Definition zeros_like (x : tensor3 F) : tensor3 F :=
  map3 (fun _ => flit 0) x.

(** [x ** 2] *)
Definition square (x : F) : F := fmul x x.

Definition sum_list (v : list F) : F :=
  match v with
  | [] => flit 0
  | a :: v' => fold_left fadd v' a
  end.

(** [tf.reduce_sum(x, axis=2)] *)
Definition reduce_sum_last (x : tensor3 F) : tensor2 F :=
  map (map sum_list) x.
End Arith.
End TF.

(** [outputs] of the forward pass: a dictionary of named tensors. *)
Definition dict (F : Type) : Type := list (string * tensor3 F).

Fixpoint getitem {F : Type} (d : dict F) (key : string) : res (tensor3 F) :=
  match d with
  | [] => Raise KeyError
  | (k, v) :: d' => if String.eqb k key then Ret v else getitem d' key
  end.

(** ** [TaskDelayedReach.recompute_targets] and
       [TaskLoadProbability.recompute_targets] *)

Module TaskDelayedReach_hook.
Section Hook.
Context {F : Type} `{Scalar F} {I : Type}.

Definition recompute_targets (inputs : I) (targets : tensor3 F)
    (outputs : dict F) : res (tensor3 F) :=
  cartesian_pos <- getitem outputs "cartesian position" ;;
  diff <- TF.ew3 fsub (TF.slice_last 0 2 cartesian_pos)
                      (TF.slice_last 0 2 targets) ;;
  let dist :=
    TF.tile_last_twice
      (TF.expand_dims_last
         (TF.map2 fsqrt (TF.reduce_sum_last (TF.map3 TF.square diff)))) in
  cartesian_pos_no_vel <-
    TF.concat_last (TF.slice_last 0 2 cartesian_pos) (TF.zeros_like dist) ;;
  dist <- TF.concat_last dist (TF.zeros_like dist) ;;
  TF.where3 (TF.map3 (fun d => fle d (flit (1 # 10))) dist)
            cartesian_pos_no_vel targets.
End Hook.
End TaskDelayedReach_hook.

Module TaskLoadProbability_hook.
Section Hook.
Context {F : Type} `{Scalar F} {S : Type}.

(** [inputs] is the pair [[inputs, init_states]] handed to the model. *)
Definition recompute_targets (inputs : tensor3 F * S)
    (targets : tensor3 F) (outputs : dict F) : res (tensor3 F) :=
  cartesian_pos <- getitem outputs "cartesian position" ;;
  diff <- TF.ew3 fsub (TF.slice_last 0 2 cartesian_pos)
                      (TF.slice_last 0 2 targets) ;;
  let dist :=
    TF.map2 fsqrt (TF.reduce_sum_last (TF.map3 TF.square diff)) in
  marker <- TF.index_last 3 (fst inputs) ;;
  dist <- TF.ew2 (fun (m : bool) (d : F) => if m then flit 1000 else d)
                 (TF.map2 (fun x => feq x (flit (-1))) marker) dist ;;
  let dist := TF.tile_last_twice (TF.expand_dims_last dist) in
  cartesian_pos_no_vel <-
    TF.concat_last (TF.slice_last 0 2 cartesian_pos) (TF.zeros_like dist) ;;
  dist <- TF.concat_last dist (TF.zeros_like dist) ;;
  TF.where3 (TF.map3 (fun d => fle d (flit (35 # 1000))) dist)
            cartesian_pos_no_vel targets.
End Hook.
End TaskLoadProbability_hook.

(** ** Python and NumPy values used by the generators *)

(** [int(x)]: truncation toward zero. *)
Definition py_int (q : Q) : Z := Z.quot (Qnum q) (Z.pos (Qden q)).

(** What the specification asks of [int]: [d] is [x] with its fraction
    dropped, the integer next to [x] on the side of zero. *)
Definition truncation_of (x : Q) (d : Z) : Prop :=
  ((0 <= x)%Q -> (inject_Z d <= x)%Q /\ (x < inject_Z d + 1)%Q) /\
  ((x <= 0)%Q -> (inject_Z d - 1 < x)%Q /\ (x <= inject_Z d)%Q).

(** [np.random.uniform(low, high)], on the unit draw [r] of the generator
    ([0 <= r < 1]): NumPy returns [low + (high - low) * r]. *)
Definition uniform (low high r : Q) : Q := (low + (high - low) * r)%Q.

(** [int(x / y)] for Python numbers: a division by zero raises. *)
Definition int_div (x y : Q) : res Z :=
  if Qeq_bool y 0 then Raise ZeroDivisionError else Ret (py_int (x / y)).

(** [int(x / y)] for a NumPy number [x]: NumPy divides by zero into an
    infinity, or into a NaN when [x] is zero too, and [int] refuses both. *)
Definition int_np_div (x y : Q) : res Z :=
  if Qeq_bool y 0
  then (if Qeq_bool x 0 then Raise ValueError else Raise OverflowError)
  else Ret (py_int (x / y)).

(** [np.zeros(n)], [np.ones(n)], [np.zeros((n, c))]: a negative size raises. *)
Definition np_full (x : Q) (n : Z) : res (list Q) :=
  if (n <? 0)%Z then Raise ValueError else Ret (repeat x (Z.to_nat n)).

Definition np_zeros (n : Z) : res (list Q) := np_full 0%Q n.
Definition np_ones (n : Z) : res (list Q) := np_full 1%Q n.

Definition np_zeros2 (n c : Z) : res (tensor2 Q) :=
  if ((n <? 0) || (c <? 0))%Z then Raise ValueError
  else Ret (repeat (repeat 0%Q (Z.to_nat c)) (Z.to_nat n)).

(** Bounds of the slice [start:stop] of an axis of length [len]: a negative
    bound counts from the end, and both are clipped to the axis. *)
Definition clamp (len : nat) (i : Z) : nat :=
  if (i <? 0)%Z then Z.to_nat (Z.max 0 (i + Z.of_nat len))
  else Nat.min (Z.to_nat i) len.

Definition slice_bounds (len : nat) (start stop : option Z) : nat * nat :=
  let a := match start with Some i => clamp len i | None => 0 end in
  let b := match stop with Some j => clamp len j | None => len end in
  (a, Nat.max a b).

(** Broadcasting of an axis to length [m]. *)
Definition broadcast_to {A : Type} (m : nat) (xs : list A) : res (list A) :=
  if Nat.eqb (length xs) m then Ret xs
  else match xs with
       | [x] => Ret (repeat x m)
       | _ => Raise ValueError
       end.

(** [x[start:stop] = v] for a scalar [v]. *)
Definition setitem_scalar {A : Type} (x : list A) (start stop : option Z)
    (v : A) : list A :=
  let '(a, b) := slice_bounds (length x) start stop in
  firstn a x ++ repeat v (b - a) ++ skipn b x.

(** [x[start:stop, :] = rhs] for a two-dimensional [rhs] (a vector counts as
    one row). *)
Definition setitem_rows (x : tensor2 Q) (start stop : option Z)
    (rhs : tensor2 Q) : res (tensor2 Q) :=
  let '(a, b) := slice_bounds (length x) start stop in
  rows <- broadcast_to (b - a) rhs ;;
  rows <- zipM (fun old new => broadcast_to (length old) new)
               (firstn (b - a) (skipn a x)) rows ;;
  Ret (firstn a x ++ rows ++ skipn b x).

(** [x[:, c0:c1] = rhs]. *)
Definition setitem_cols (x : tensor2 Q) (c0 c1 : nat) (rhs : tensor2 Q)
  : res (tensor2 Q) :=
  rows <- broadcast_to (length x) rhs ;;
  zipM (fun old new =>
          let '(a, b) := slice_bounds (length old)
                           (Some (Z.of_nat c0)) (Some (Z.of_nat c1)) in
          new <- broadcast_to (b - a) new ;;
          Ret (firstn a old ++ new ++ skipn b old))
       x rows.

(** [x[start:stop, c] = v] for a scalar [v]. *)
Definition setitem_col_scalar (x : tensor2 Q) (start stop : option Z)
    (c : nat) (v : Q) : res (tensor2 Q) :=
  let '(a, b) := slice_bounds (length x) start stop in
  rows <- mapM (fun old => if Nat.ltb c (length old)
                           then Ret (firstn c old ++ v :: skipn (S c) old)
                           else Raise IndexError)
               (firstn (b - a) (skipn a x)) ;;
  Ret (firstn a x ++ rows ++ skipn b x).

(** [x[i] = f(x[i])] on the leading axis. *)
Definition update_trial {A : Type} (x : list A) (i : nat) (f : A -> res A)
  : res (list A) :=
  match nth_error x i with
  | Some m => m' <- f m ;; Ret (firstn i x ++ m' :: skipn (S i) x)
  | None => Raise IndexError
  end.

Definition getitem_list {A : Type} (x : list A) (i : nat) : res A :=
  match nth_error x i with
  | Some a => Ret a
  | None => Raise IndexError
  end.

(** Arrays of rank at most two, as [np.squeeze] may leave them. *)
Inductive ndarray : Type :=
| Arr0 (x : Q)
| Arr1 (v : list Q)
| Arr2 (m : tensor2 Q).

(** [np.squeeze] of a two-dimensional array drops every axis of size one. *)
Definition squeeze (m : tensor2 Q) : ndarray :=
  match m with
  | [] => Arr2 []
  | [[x]] => Arr0 x
  | [v] => Arr1 v
  | _ => if forallb (fun v => Nat.eqb (length v) 1) m
         then Arr1 (concat m) else Arr2 m
  end.

(** [np.concatenate(xs, axis=1)]: every array is two-dimensional, with one
    number of rows. *)
Fixpoint concatenate_axis1 (xs : list ndarray) : res (tensor2 Q) :=
  match xs with
  | [] => Raise ValueError
  | [Arr2 m] => Ret m
  | Arr2 m :: xs' =>
      rest <- concatenate_axis1 xs' ;;
      if Nat.eqb (length m) (length rest)
      then Ret (map (fun uv => fst uv ++ snd uv) (combine m rest))
      else Raise ValueError
  | _ :: _ => Raise ValueError
  end.

(** [np.concatenate(xs, axis=0)]: the arrays have one rank, one or two. *)
Fixpoint concatenate_axis0 (xs : list ndarray) : res ndarray :=
  match xs with
  | [] => Raise ValueError
  | [Arr1 v] => Ret (Arr1 v)
  | [Arr2 m] => Ret (Arr2 m)
  | Arr1 v :: xs' =>
      rest <- concatenate_axis0 xs' ;;
      match rest with Arr1 w => Ret (Arr1 (v ++ w)) | _ => Raise ValueError end
  | Arr2 m :: xs' =>
      rest <- concatenate_axis0 xs' ;;
      match rest with Arr2 w => Ret (Arr2 (m ++ w)) | _ => Raise ValueError end
  | Arr0 _ :: _ => Raise ValueError
  end.

(** [np.expand_dims(v, axis=1)] *)
Definition expand_dims1 (v : list Q) : tensor2 Q := map (fun x => [x]) v.

(** [tf.stack(xs, axis=0)]: the tensors have one shape; an empty list gives
    the empty vector. *)
Definition tf_stack (xs : list (tensor2 Q)) : res tf_tensor :=
  match xs with
  | [] => Ret (Rank1 [])
  | x :: _ =>
      if forallb (fun y => Nat.eqb (length y) (length x)) xs
      then Ret (Rank3 xs) else Raise InvalidArgumentError
  end.

(** [for i in range(start, start + count)], threading the loop's state. *)
Fixpoint for_range {S : Type} (body : nat -> S -> res S) (start count : nat)
    (s : S) : res S :=
  match count with
  | O => Ret s
  | Datatypes.S count' =>
      s' <- body start s ;; for_range body (Datatypes.S start) count' s'
  end.

(** ** [generate_delay_time] *)

Definition generate_delay_time (delay_min delay_max : Q)
    (delay_mode : string) (r : Q) : res Z :=
  if String.eqb delay_mode "random"
  then Ret (py_int (uniform delay_min delay_max r))
  else if String.eqb delay_mode "noDelayInput"
  then Ret (py_int 0)
  else Raise AttributeError.

(** ** [generate_delay_time] on binary64 numbers

    The same function with the arithmetic that NumPy uses: the draw is
    computed in binary64, each operation rounded, and then truncated. *)






(** ** The tasks *)

(** What [initial_joint_state] may be given as: one state, or a pool. *)
Inductive array_like : Type :=
| Vector (v : list Q)
| Matrix (m : tensor2 Q).

(** The fields of [Task] the generators read. *)
Record Task : Type := mkTask {
  initial_joint_state : option (tensor2 Q);
  n_initial_joint_states : option nat;
  training_iterations : nat;
  training_batch_size : nat;
  training_n_timesteps : nat;
  do_recompute_targets : bool
}.

(** Modelled from the spec: [plant.state2target(state, n_timesteps)], which is
    not part of this module, holds each state of the batch for
    [n_timesteps] steps (a target trajectory is the goal repeated for the
    whole trial). *)
Definition state2target (state : tensor2 Q) (n_timesteps : nat) : tensor3 Q :=
  map (fun s => repeat s n_timesteps) state.

Section Tasks.

(** The controller and its plant. [State] is what
    [controller.get_initial_state] returns and [joint_state] its first entry,
    the batch of joint states; [dt] and [space_dim] are the plant's
    attributes. *)
Variable State : Type.
Variable joint_state : State -> tensor2 Q.
Variable controller_get_initial_state : nat -> option (tensor2 Q) -> State.
Variable joint2cartesian : tensor2 Q -> tensor2 Q.
Variable dt : Q.
Variable space_dim : nat.

(** [Task.__init__] *)
Definition Task_init (initial_joint_state : option array_like) : Task :=
  let pool :=
    match initial_joint_state with
    | Some (Vector v) => Some [v]          (* reshape(1, -1) *)
    | Some (Matrix m) => Some m
    | None => None
    end in
  {| initial_joint_state := pool;
     n_initial_joint_states := option_map (@length _) pool;
     training_iterations := 1000;
     training_batch_size := 32;
     training_n_timesteps := 100;
     do_recompute_targets := false |}.

(** [Task.get_initial_state]; [i] is the outcome of
    [np.random.randint(0, n_initial_joint_states, batch_size)], one index per
    trial. From an empty range NumPy draws the empty array for an empty
    batch, and raises for any other. The result pairs what is forwarded to
    the controller with what it returns. *)
Definition forwarded_inputs (self : Task) (i : list nat)
  : res (option (tensor2 Q)) :=
  match initial_joint_state self with
  | None => Ret None
  | Some pool =>
      match n_initial_joint_states self, i with
      | Some (S _), _ | _, [] =>
          inputs <- mapM (getitem_list pool) i ;; Ret (Some inputs)
      | _, _ :: _ => Raise ValueError
      end
  end.

Definition get_initial_state (self : Task) (batch_size : nat) (i : list nat)
  : res State :=
  inputs <- forwarded_inputs self i ;;
  Ret (controller_get_initial_state batch_size inputs).

(** [set_training_params] *)
Definition set_training_params (self : Task)
    (batch_size n_timesteps iterations : nat) : Task :=
  {| initial_joint_state := initial_joint_state self;
     n_initial_joint_states := n_initial_joint_states self;
     training_iterations := iterations;
     training_batch_size := batch_size;
     training_n_timesteps := n_timesteps;
     do_recompute_targets := do_recompute_targets self |}.

(** [center = plant.joint2cartesian(init_states[0][0, :])] *)
Definition center_of (init_states : State) : res (tensor2 Q) :=
  row <- getitem_list (joint_state init_states) 0 ;;
  Ret (joint2cartesian [row]).

(** *** [TaskStaticTarget.generate] *)

Definition TaskStaticTarget_generate (self : Task)
    (batch_size n_timesteps : nat) (i : list nat) (goal_states : tensor2 Q)
  : res (tf_tensor * tensor3 Q * State) :=
  init_states <- get_initial_state self batch_size i ;;
  let targets := state2target (joint2cartesian goal_states) n_timesteps in
  Ret (Rank3 (TF.slice_last 0 space_dim targets), targets, init_states).

(** *** [TaskStaticTargetWithPerturbations.generate] *)

Definition TaskStaticTargetWithPerturbations_generate (self : Task)
    (batch_size n_timesteps : nat) (i : list nat) (goal_states : tensor2 Q)
  : res (tf_tensor * tensor3 Q * State) :=
  init_states <- get_initial_state self batch_size i ;;
  let targets := state2target (joint2cartesian goal_states) n_timesteps in
  let perturbations := repeat (repeat [5%Q; 5%Q] n_timesteps) batch_size in
  inputs <- TF.concat_last (TF.slice_last 0 space_dim targets) perturbations ;;
  Ret (Rank3 inputs, targets, init_states).

(** *** [TaskDelayedReach] *)

Record TaskDelayedReach : Type := mkDelayedReach {
  dr_bump_length : Z;
  dr_bump_height : Q;
  dr_delay_range : Q * Q
}.

(** The keyword arguments of [__init__], [None] when left out. [plant.dt] is
    a Python float: dividing by it raises when it is zero. *)
Definition TaskDelayedReach_init (bump_length bump_height : option Q)
    (delay_range : option (Q * Q)) : res TaskDelayedReach :=
  let bl := match bump_length with Some x => x | None => 50%Q end in
  let dr := match delay_range with
            | Some x => x
            | None => (100%Q, 900%Q)
            end in
  steps <- int_div (bl / 1000)%Q dt ;;
  Ret {| dr_bump_length := steps;
         dr_bump_height :=
           match bump_height with Some x => x | None => 1%Q end;
         dr_delay_range :=
           ((fst dr / 1000 / dt)%Q, (snd dr / 1000 / dt)%Q) |}.

(** The cue of one trial. *)
Definition reach_bump (cfg : TaskDelayedReach) (n_timesteps : nat)
    (delay_time : Z) : res (list Q) :=
  z1 <- np_zeros delay_time ;;
  on <- np_ones (dr_bump_length cfg) ;;
  z2 <- np_zeros (Z.of_nat n_timesteps - delay_time - dr_bump_length cfg) ;;
  Ret (z1 ++ map (fun x => (x * dr_bump_height cfg)%Q) on ++ z2).

(** One turn of the loop over the batch; [r] is the unit draw behind
    [generate_delay_time]. *)
Definition reach_trial (cfg : TaskDelayedReach) (n_timesteps : nat)
    (center : tensor2 Q) (draws : list Q) (i : nat)
    (s : list (tensor2 Q) * tensor3 Q) : res (list (tensor2 Q) * tensor3 Q) :=
  let '(temp_inputs, targets) := s in
  delay_time <- generate_delay_time (fst (dr_delay_range cfg))
                  (snd (dr_delay_range cfg)) "random" (nth i draws 0%Q) ;;
  bump <- reach_bump cfg n_timesteps delay_time ;;
  trial <- getitem_list targets i ;;
  row <- concatenate_axis1
           [squeeze (map (fun v => firstn 2 v) trial);
            Arr2 (expand_dims1 bump)] ;;
  targets <- update_trial targets i
               (fun m => setitem_rows m (Some 0%Z) (Some delay_time) center) ;;
  Ret (temp_inputs ++ [row], targets).

Definition TaskDelayedReach_generate (self : Task) (cfg : TaskDelayedReach)
    (batch_size n_timesteps : nat) (i : list nat) (goal_states : tensor2 Q)
    (draws : list Q) : res (tf_tensor * tensor3 Q * State) :=
  init_states <- get_initial_state self batch_size i ;;
  center <- center_of init_states ;;
  let targets := state2target (joint2cartesian goal_states) n_timesteps in
  s <- for_range (reach_trial cfg n_timesteps center draws) 0 batch_size
         ([], targets) ;;
  inputs <- tf_stack (fst s) ;;
  Ret (inputs, snd s, init_states).

(** *** [TaskDelayedMultiReach] *)

Record TaskDelayedMultiReach : Type := mkDelayedMultiReach {
  mr_bump_length : Z;
  mr_bump_height : Q;
  mr_delay_range : Q * Q;
  mr_num_target : nat
}.

Definition TaskDelayedMultiReach_init (bump_length bump_height : option Q)
    (delay_range : option (Q * Q)) (num_target : option nat)
  : res TaskDelayedMultiReach :=
  let bl := match bump_length with Some x => x | None => 50%Q end in
  let dr := match delay_range with
            | Some x => x
            | None => (100%Q, 900%Q)
            end in
  steps <- int_div (bl / 1000)%Q dt ;;
  Ret {| mr_bump_length := steps;
         mr_bump_height :=
           match bump_height with Some x => x | None => 3%Q end;
         mr_delay_range :=
           ((fst dr / 1000 / dt)%Q, (snd dr / 1000 / dt)%Q);
         mr_num_target :=
           match num_target with Some k => k | None => 1 end |}.

(** [sequence_time] *)
Definition multi_sequence_time (cfg : TaskDelayedMultiReach)
    (n_timesteps : nat) : Z :=
  py_int (inject_Z (Z.of_nat ((mr_num_target cfg + 1) * n_timesteps))
          + snd (mr_delay_range cfg) + inject_Z (mr_bump_length cfg))%Q.

(** Assignment of a tensor to a slot of shape [(b, t, d)]. *)
Definition broadcast3 (b t d : nat) (x : tensor3 Q) : res (tensor3 Q) :=
  x <- broadcast_to b x ;;
  mapM (fun m => m <- broadcast_to t m ;; mapM (broadcast_to d) m) x.

(** [target_list], one tensor of shape [(batch_size, n_timesteps, 4)] per
    target; [goal_draws] are the successive outcomes of
    [plant.draw_random_uniform_states]. *)
Definition multi_target_list (cfg : TaskDelayedMultiReach)
    (batch_size n_timesteps : nat) (goal_draws : list (tensor2 Q))
  : res (list (tensor3 Q)) :=
  mapM (fun tg =>
          broadcast3 batch_size n_timesteps 4
            (state2target (joint2cartesian (nth tg goal_draws []))
                          n_timesteps))
       (seq 0 (mr_num_target cfg)).

Definition multi_bump (cfg : TaskDelayedMultiReach) (n_timesteps : nat)
    (delay_time : Z) : res (list Q) :=
  z0 <- np_zeros (Z.of_nat n_timesteps) ;;
  z1 <- np_zeros delay_time ;;
  on <- np_ones (mr_bump_length cfg) ;;
  z2 <- np_zeros (Z.of_nat (mr_num_target cfg * n_timesteps)
                  + py_int (snd (mr_delay_range cfg) - inject_Z delay_time)%Q) ;;
  Ret (z0 ++ z1 ++ map (fun x => (x * mr_bump_height cfg)%Q) on ++ z2).

(** [x[k]] for an integer [k]: a negative index counts from the end. *)
Definition getitem_int {A : Type} (x : list A) (k : Z) : res A :=
  let k' := if (k <? 0)%Z then (k + Z.of_nat (length x))%Z else k in
  if (k' <? 0)%Z then Raise IndexError else getitem_list x (Z.to_nat k').

(** [x[k, :]] for a [numpy.float64] [k]: NumPy takes integers, slices and
    integer or boolean arrays as indices, and raises for a float, whatever
    its value. *)
Definition getitem_float {A : Type} (x : list A) (k : Q) : res A :=
  Raise IndexError.

(** [x[start:stop] = rhs] for a [numpy.float64] bound [stop]: a slice bound
    is an integer or [None]. *)
Definition setitem_rows_float (x : tensor2 Q) (start : Z) (stop : Q)
    (rhs : tensor2 Q) : res (tensor2 Q) :=
  Raise TypeError.

Definition as_rows (a : ndarray) : tensor2 Q :=
  match a with
  | Arr0 x => [[x]]
  | Arr1 v => [v]
  | Arr2 m => m
  end.

(** The input of one trial, before the cue is appended. The last assignment
    indexes with [n_timesteps + self.delay_range[1] + self.bump_length], a
    [numpy.float64] as [delay_range] is a float array; its right-hand side
    is evaluated first. *)
Definition multi_input_tensor (cfg : TaskDelayedMultiReach)
    (n_timesteps : nat) (center : tensor2 Q) (target_list : list (tensor3 Q))
    (i : nat) : res (tensor2 Q) :=
  let k := mr_num_target cfg in
  let n := Z.of_nat n_timesteps in
  let late := (snd (mr_delay_range cfg) + inject_Z (mr_bump_length cfg))%Q in
  cols <- mapM (fun tl => trial <- getitem_list tl i ;;
                          Ret (squeeze (map (fun v => firstn 2 v) trial)))
               target_list ;;
  input_tensor <- concatenate_axis1 cols ;;
  let input_tensor := flat_map (fun row => repeat row k) input_tensor in
  z0 <- np_zeros2 n (Z.of_nat (2 * k)) ;;
  z1 <- np_zeros2 (py_int late) (Z.of_nat (2 * k)) ;;
  let input_tensor := z0 ++ z1 ++ input_tensor in
  c0 <- getitem_list center 0 ;;
  input_tensor <- setitem_rows input_tensor None (Some n)
                    [flat_map (fun x => repeat x k) (firstn 2 c0)] ;;
  row <- getitem_float input_tensor (inject_Z n + late + 1)%Q ;;
  setitem_rows_float input_tensor n (inject_Z n + late)%Q [row].

(** The supervised target of one trial. *)
Definition multi_targets (cfg : TaskDelayedMultiReach) (n_timesteps : nat)
    (center : tensor2 Q) (target_list : list (tensor3 Q)) (i : nat)
    (delay_time : Z) (m : tensor2 Q) : res (tensor2 Q) :=
  let k := mr_num_target cfg in
  let n := Z.of_nat n_timesteps in
  let kn := Z.of_nat (k * n_timesteps) in
  m <- setitem_rows m None (Some n) center ;;
  m <- setitem_rows m (Some n) (Some (n + delay_time)%Z) center ;;
  segs <- mapM (fun tl => trial <- getitem_list tl i ;; Ret (squeeze trial))
               target_list ;;
  goals <- concatenate_axis0 segs ;;
  m <- setitem_rows m (Some (n + delay_time)%Z)
         (Some (n + delay_time + kn)%Z) (as_rows goals) ;;
  tl <- getitem_int target_list (-1) ;;
  trial <- getitem_list tl i ;;
  final <- getitem_list trial 0 ;;
  setitem_rows m (Some (delay_time + kn)%Z) None [final].

Definition multi_trial (cfg : TaskDelayedMultiReach) (n_timesteps : nat)
    (center : tensor2 Q) (target_list : list (tensor3 Q)) (draws : list Q)
    (i : nat) (s : list (tensor2 Q) * tensor3 Q)
  : res (list (tensor2 Q) * tensor3 Q) :=
  let '(temp_inputs, targets) := s in
  delay_time <- generate_delay_time (fst (mr_delay_range cfg))
                  (snd (mr_delay_range cfg)) "random" (nth i draws 0%Q) ;;
  bump <- multi_bump cfg n_timesteps delay_time ;;
  input_tensor <- multi_input_tensor cfg n_timesteps center target_list i ;;
  row <- concatenate_axis1 [Arr2 input_tensor; Arr2 (expand_dims1 bump)] ;;
  targets <- update_trial targets i
               (multi_targets cfg n_timesteps center target_list i
                              delay_time) ;;
  Ret (temp_inputs ++ [row], targets).

Definition TaskDelayedMultiReach_generate (self : Task)
    (cfg : TaskDelayedMultiReach) (batch_size n_timesteps : nat)
    (i : list nat) (goal_draws : list (tensor2 Q)) (draws : list Q)
  : res (tf_tensor * tensor3 Q * State) :=
  init_states <- get_initial_state self batch_size i ;;
  center <- center_of init_states ;;
  target_list <- multi_target_list cfg batch_size n_timesteps goal_draws ;;
  targets <- np_zeros2 (multi_sequence_time cfg n_timesteps) 4 ;;
  let targets := repeat targets batch_size in
  s <- for_range (multi_trial cfg n_timesteps center target_list draws)
         0 batch_size ([], targets) ;;
  inputs <- tf_stack (fst s) ;;
  Ret (inputs, snd s, init_states).

(** *** [TaskLoadProbability] *)

Record TaskLoadProbability : Type := mkLoadProbability {
  lp_fixation_time : Z;
  lp_delay_range : Q * Q
}.

(** [fixation_time] is divided as a NumPy array. *)
Definition TaskLoadProbability_init (fixation_time : option Q)
    (delay_range : option (Q * Q)) : res TaskLoadProbability :=
  let ft := match fixation_time with Some x => x | None => 100%Q end in
  let dr := match delay_range with
            | Some x => x
            | None => (300%Q, 900%Q)
            end in
  steps <- int_np_div (ft / 1000)%Q dt ;;
  Ret {| lp_fixation_time := steps;
         lp_delay_range :=
           ((fst dr / 1000 / dt)%Q, (snd dr / 1000 / dt)%Q) |}.

(** The draws of one trial, in the order the loop makes them: the unit draw
    behind [generate_delay_time], [np.random.randint(0, 5)] and the two
    [np.random.rand()] (the second is only made when the trial is not a catch
    trial). *)
Record load_draws : Type := mkLoadDraws {
  ld_delay : Q;
  ld_prob_index : nat;
  ld_catch : Q;
  ld_sign : Q
}.

Definition prob_array : list Q := [0; 1 # 4; 1 # 2; 3 # 4; 1]%Q.

(** [np.greater_equal(x, y)] *)
Definition greater_equal (x y : Q) : bool := Qle_bool y x.

Definition is_catch (d : load_draws) : bool :=
  negb (greater_equal (ld_catch d) (2 # 10)).

(** [pert] of a trial that is not a catch trial. *)
Definition load_pert (prob r : Q) : Q :=
  if greater_equal r prob then 0%Q else (-2)%Q.

(** The three assignments that fill the input of a trial:
    [inputs[i, :, 0] = input_1], [inputs[i, :, 1] = input_2] and
    [inputs[i, :, 2:4] = perturbation]. *)
Definition load_input (input_1 input_2 : list Q) (perturbation m : tensor2 Q)
  : res (tensor2 Q) :=
  m <- setitem_cols m 0 1 (expand_dims1 input_1) ;;
  m <- setitem_cols m 1 2 (expand_dims1 input_2) ;;
  setitem_cols m 2 4 perturbation.

Definition load_trial (cfg : TaskLoadProbability) (n_timesteps : nat)
    (center : tensor2 Q) (draws : list load_draws) (i : nat)
    (s : tensor3 Q * tensor3 Q) : res (tensor3 Q * tensor3 Q) :=
  let '(inputs, targets) := s in
  let d := nth i draws (mkLoadDraws 0 0 0 0) in
  let fix1 := Some (lp_fixation_time cfg + 1)%Z in
  input_1 <- np_zeros (Z.of_nat n_timesteps) ;;
  input_2 <- np_zeros (Z.of_nat n_timesteps) ;;
  let perturbation := repeat [0%Q; (-1)%Q] n_timesteps in
  delay_time <- generate_delay_time (fst (lp_delay_range cfg))
                  (snd (lp_delay_range cfg)) "random" (ld_delay d) ;;
  let pert_time := (delay_time + lp_fixation_time cfg)%Z in
  prob <- getitem_list prob_array (ld_prob_index d) ;;
  r <- (if greater_equal (ld_catch d) (2 # 10)
        then
          targets <- update_trial targets i
                       (fun m => setitem_rows m (Some 0%Z) (Some pert_time)
                                              center) ;;
          let pert := load_pert prob (ld_sign d) in
          let input_1 := setitem_scalar input_1 fix1 None prob in
          let input_2 := setitem_scalar input_2 fix1 None (1 - prob)%Q in
          perturbation <- setitem_col_scalar perturbation (Some pert_time)
                            None 1 pert ;;
          Ret (targets, input_1, input_2, perturbation)
        else
          targets <- update_trial targets i
                       (fun m => setitem_rows m None None center) ;;
          let input_1 := setitem_scalar input_1 fix1 None prob in
          let input_2 := setitem_scalar input_2 fix1 None (1 - prob)%Q in
          Ret (targets, input_1, input_2, perturbation)) ;;
  let '(targets, input_1, input_2, perturbation) := r in
  inputs <- update_trial inputs i (load_input input_1 input_2 perturbation) ;;
  Ret (inputs, targets).

(** [np.tile(goal_state, (batch_size, n_timesteps, 1))] *)
Definition np_tile3 (x : tensor2 Q) (b t : nat) : tensor3 Q :=
  repeat (concat (repeat x t)) b.

Definition TaskLoadProbability_generate (self : Task)
    (cfg : TaskLoadProbability) (batch_size n_timesteps : nat)
    (i : list nat) (draws : list load_draws)
  : res (tf_tensor * tensor3 Q * State) :=
  init_states <- get_initial_state self batch_size i ;;
  center <- center_of init_states ;;
  goal_state <- bzip (bzip (fun a b => Ret (a + b)%Q)) center
                  [[- (28279 # 1000000); - (42601 # 1000000); 0; 0]%Q] ;;
  let targets := np_tile3 goal_state batch_size n_timesteps in
  let inputs := repeat (repeat [0; 0; 0; 0]%Q n_timesteps) batch_size in
  s <- for_range (load_trial cfg n_timesteps center draws) 0 batch_size
         (inputs, targets) ;;
  Ret (Rank3 (fst s), snd s, init_states).

(** *** The methods behind [tf.keras.utils.Sequence] and [get_input_dim]

    [generate] is the method of the subclass at hand, its draws supplied. *)

(** [Task.__len__] *)
Definition Task_len (self : Task) : nat := training_iterations self.

(** [Task.__getitem__]: [idx] is not read. *)
Definition Task_getitem
    (generate : nat -> nat -> res (tf_tensor * tensor3 Q * State))
    (self : Task) (idx : Z) : res ((tf_tensor * State) * tensor3 Q) :=
  r <- generate (training_batch_size self) (training_n_timesteps self) ;;
  let '(inputs, targets, init_states) := r in
  Ret ((inputs, init_states), targets).

(** [x.get_shape().as_list()[-1]]. Nested lists record the size of the last
    axis in their rows: [None] stands for a batch without rows. *)
Definition shape_last (x : tf_tensor) : option nat :=
  match x with
  | Rank1 v => Some (length v)
  | Rank3 ((row :: _) :: _) => Some (length row)
  | Rank3 _ => None
  end.

(** [Task.get_input_dim] *)
Definition get_input_dim
    (generate : nat -> nat -> res (tf_tensor * tensor3 Q * State))
  : res (option nat) :=
  r <- generate 1 5000 ;;
  let '(inputs, _, _) := r in
  Ret (shape_last inputs).

(** *** The constructors

    The keyword arguments of a call: those that the module reads, [None]
    when left out, and the names of any others. *)
Record kwargs : Type := mkKwargs {
  kw_initial_joint_state : option array_like;
  kw_bump_length : option Q;
  kw_bump_height : option Q;
  kw_delay_range : option (Q * Q);
  kw_num_target : option nat;
  kw_fixation_time : option Q;
  kw_others : list string
}.

(** [kwargs] names nothing but [initial_joint_state]. *)
Definition only_initial_joint_state (kw : kwargs) : bool :=
  match kw_bump_length kw, kw_bump_height kw, kw_delay_range kw,
        kw_num_target kw, kw_fixation_time kw, kw_others kw with
  | None, None, None, None, None, [] => true
  | _, _, _, _, _, _ => false
  end.

(** [super().__init__(controller, **kwargs)]: [Task.__init__] has the one
    keyword parameter [initial_joint_state], and Python raises [TypeError]
    for any other keyword. *)
Definition Task_new (kw : kwargs) : res Task :=
  if only_initial_joint_state kw
  then Ret (Task_init (kw_initial_joint_state kw))
  else Raise TypeError.

(** [self.do_recompute_targets = True] *)
Definition with_recompute_targets (self : Task) : Task :=
  {| initial_joint_state := initial_joint_state self;
     n_initial_joint_states := n_initial_joint_states self;
     training_iterations := training_iterations self;
     training_batch_size := training_batch_size self;
     training_n_timesteps := training_n_timesteps self;
     do_recompute_targets := true |}.

(** [TaskStaticTarget(controller, **kwargs)] and
    [TaskStaticTargetWithPerturbations(controller, **kwargs)] *)
Definition TaskStaticTarget_new (kw : kwargs) : res Task := Task_new kw.

(** [TaskDelayedReach(controller, **kwargs)] *)
Definition TaskDelayedReach_new (kw : kwargs)
  : res (Task * TaskDelayedReach) :=
  self <- Task_new kw ;;
  cfg <- TaskDelayedReach_init (kw_bump_length kw) (kw_bump_height kw)
           (kw_delay_range kw) ;;
  Ret (with_recompute_targets self, cfg).

(** [TaskDelayedMultiReach(controller, initial_joint_state=None, **kwargs)]:
    only [initial_joint_state] goes to [Task.__init__]. *)
Definition TaskDelayedMultiReach_new (kw : kwargs)
  : res (Task * TaskDelayedMultiReach) :=
  cfg <- TaskDelayedMultiReach_init (kw_bump_length kw) (kw_bump_height kw)
           (kw_delay_range kw) (kw_num_target kw) ;;
  Ret (Task_init (kw_initial_joint_state kw), cfg).

(** [TaskLoadProbability(controller, **kwargs)] *)
Definition TaskLoadProbability_new (kw : kwargs)
  : res (Task * TaskLoadProbability) :=
  self <- Task_new kw ;;
  cfg <- TaskLoadProbability_init (kw_fixation_time kw) (kw_delay_range kw) ;;
  Ret (with_recompute_targets self, cfg).

End Tasks.

(** * Part II: facts about the embedding *)

(** ** Shapes *)

Definition has_shape2 {F : Type} (t d : nat) (m : tensor2 F) : bool :=
  Nat.eqb (length m) t && forallb (fun v => Nat.eqb (length v) d) m.

Definition has_shape3 {F : Type} (b t d : nat) (x : tensor3 F) : bool :=
  Nat.eqb (length x) b && forallb (has_shape2 t d) x.

(** Position and velocity components of a cartesian state row. *)
Definition position {F : Type} (v : list F) : list F := firstn 2 v.
Definition velocity {F : Type} (v : list F) : list F := skipn 2 v.

(** The Euclidean distance between the positions of two rows, as the hook
    computes it. *)
Definition distance {F : Type} `{Scalar F} (p q : list F) : F :=
  match position p, position q with
  | [p0; p1], [q0; q1] =>
      fsqrt (fadd (TF.square (fsub p0 q0)) (TF.square (fsub p1 q1)))
  | _, _ => flit 0
  end.

(** ** Generic facts about the list combinators *)

Definition unwrap {A : Type} (d : A) (m : res A) : A :=
  match m with Ret a => a | Raise _ => d end.

Lemma returns_unwrap {A : Type} (d : A) (m : res A) :
  returns m = true -> m = Ret (unwrap d m).
Proof. destruct m; simpl; [reflexivity | discriminate]. Qed.

Section CombinatorFacts.
Context {A B C E : Type}.

Lemma mapM_Ret (f : A -> res B) (g : A -> B) (l : list A) :
  (forall x, In x l -> f x = Ret (g x)) -> mapM f l = Ret (map g l).
Proof.
  induction l as [|x l IH]; intros Hf; simpl; [reflexivity|].
  rewrite (Hf x (or_introl eq_refl)); simpl.
  rewrite IH; [reflexivity|].
  intros y Hy; apply Hf; right; exact Hy.
Qed.

Lemma mapM_ext (f g : A -> res B) (l : list A) :
  (forall x, f x = g x) -> mapM f l = mapM g l.
Proof.
  intros Hfg; induction l as [|x l IH]; simpl; [reflexivity|].
  rewrite Hfg, IH; reflexivity.
Qed.

Lemma mapM_map (h : E -> A) (f : A -> res B) (l : list E) :
  mapM f (map h l) = mapM (fun e => f (h e)) l.
Proof.
  induction l as [|x l IH]; simpl; [reflexivity|].
  rewrite IH; reflexivity.
Qed.

Lemma zipM_map_map (f : A -> B -> res C) (h1 : E -> A) (h2 : E -> B)
    (l : list E) :
  zipM f (map h1 l) (map h2 l) = mapM (fun e => f (h1 e) (h2 e)) l.
Proof.
  induction l as [|x l IH]; simpl; [reflexivity|].
  rewrite IH; reflexivity.
Qed.

Lemma bzip_same_length (f : A -> B -> res C) (xs : list A) (ys : list B) :
  length xs = length ys -> bzip f xs ys = zipM f xs ys.
Proof.
  intros Hlen; unfold bzip.
  rewrite Hlen, Nat.eqb_refl; reflexivity.
Qed.

Lemma bzip_map_map (f : A -> B -> res C) (h1 : E -> A) (h2 : E -> B)
    (l : list E) :
  bzip f (map h1 l) (map h2 l) = mapM (fun e => f (h1 e) (h2 e)) l.
Proof.
  rewrite bzip_same_length by (rewrite !length_map; reflexivity).
  apply zipM_map_map.
Qed.
End CombinatorFacts.

Section TwoAxes.
Context {A B C E : Type}.

Lemma map2_fuse (f : A -> B) (g : E -> A) (L : list (list E)) :
  map (map f) (map (map g) L) = map (map (fun e => f (g e))) L.
Proof.
  rewrite map_map; apply map_ext; intros m; apply map_map.
Qed.

Lemma mapM2_map (h : E -> A) (f : A -> res B) (L : list (list E)) :
  mapM (mapM f) (map (map h) L) = mapM (mapM (fun e => f (h e))) L.
Proof.
  rewrite mapM_map; apply mapM_ext; intros m; apply mapM_map.
Qed.

Lemma zipM2_map_map (f : A -> B -> res C) (h1 : E -> A) (h2 : E -> B)
    (L : list (list E)) :
  zipM (zipM f) (map (map h1) L) (map (map h2) L)
  = mapM (mapM (fun e => f (h1 e) (h2 e))) L.
Proof.
  rewrite zipM_map_map; apply mapM_ext; intros m; apply zipM_map_map.
Qed.

Lemma bzip2_map_map (f : A -> B -> res C) (h1 : E -> A) (h2 : E -> B)
    (L : list (list E)) :
  bzip (bzip f) (map (map h1) L) (map (map h2) L)
  = mapM (mapM (fun e => f (h1 e) (h2 e))) L.
Proof.
  rewrite bzip_map_map; apply mapM_ext; intros m; apply bzip_map_map.
Qed.

(** When every cell succeeds, so does the whole tensor. *)
Lemma mapM2_returns (P : E -> Prop) (d : A) (f : E -> res A)
    (L : list (list E)) :
  Forall (Forall P) L ->
  (forall e, P e -> returns (f e) = true) ->
  mapM (mapM f) L = Ret (map (map (fun e => unwrap d (f e))) L).
Proof.
  intros HL Hf.
  apply mapM_Ret; intros m Hm.
  apply mapM_Ret; intros e He.
  apply returns_unwrap, Hf.
  rewrite Forall_forall in HL.
  specialize (HL m Hm); rewrite Forall_forall in HL; auto.
Qed.

Lemma map2_ext_Forall (P : E -> Prop) (f g : E -> A) (L : list (list E)) :
  Forall (Forall P) L ->
  (forall e, P e -> f e = g e) ->
  map (map f) L = map (map g) L.
Proof.
  intros HL Hfg.
  apply map_ext_Forall.
  eapply Forall_impl; [|exact HL]; intros m Hm.
  apply map_ext_Forall.
  eapply Forall_impl; [|exact Hm]; auto.
Qed.
End TwoAxes.

(** ** The hooks, cell by cell *)

Section HookCells.
Context {F : Type} `{Scalar F}.

(** What [tf.where] leaves in one row: [d] is the value compared with the
    tolerance on the two position channels, [p] the achieved state and [t]
    the assigned target. The two velocity channels are compared through a
    zero. *)
Definition lock (tol d : F) (p t : list F) : list F :=
  match position p, t with
  | [p0; p1], [t0; t1; t2; t3] =>
      [ if fle d tol then p0 else t0;
        if fle d tol then p1 else t1;
        if fle (flit 0) tol then flit 0 else t2;
        if fle (flit 0) tol then flit 0 else t3 ]
  | _, _ => t
  end.

Definition reach_cell (e : list F * list F) : list F :=
  lock (flit (1 # 10)) (distance (fst e) (snd e)) (fst e) (snd e).

(** The marker channel of an input row flags the timestep. *)
Definition flagged (i : list F) : bool :=
  match nth_error i 3 with
  | Some x => feq x (flit (-1))
  | None => false
  end.

Definition load_cell (e : list F * (list F * list F)) : list F :=
  let '(i, (p, t)) := e in
  lock (flit (35 # 1000))
       (if flagged i then flit 1000 else distance p t) p t.

Definition reach_ok (e : list F * list F) : Prop :=
  2 <= length (fst e) /\ length (snd e) = 4.

Definition load_ok (e : list F * (list F * list F)) : Prop :=
  4 <= length (fst e) /\ reach_ok (snd e).
End HookCells.

Ltac open_row v :=
  let a := fresh "a" in let b := fresh "b" in
  let c := fresh "c" in let d := fresh "d" in
  destruct v as [|a [|b [|c [|d v]]]].

Ltac reach_rows :=
  let p := fresh "p" in let t := fresh "t" in
  let Hp := fresh "Hp" in let Ht := fresh "Ht" in
  intros [p t] [Hp Ht]; simpl in Hp, Ht;
  destruct p as [|? [|? p]]; simpl in Hp; try lia;
  open_row t; simpl in Ht; try lia;
  destruct t; simpl in Ht; try lia;
  reflexivity.

Ltac load_rows :=
  let i := fresh "i" in let p := fresh "p" in let t := fresh "t" in
  let Hi := fresh "Hi" in let Hp := fresh "Hp" in let Ht := fresh "Ht" in
  intros [i [p t]] [Hi [Hp Ht]]; simpl in Hi, Hp, Ht;
  open_row i; simpl in Hi; try lia;
  destruct p as [|? [|? p]]; simpl in Hp; try lia;
  open_row t; simpl in Ht; try lia;
  destruct t; simpl in Ht; try lia;
  reflexivity.

Section HookClosedForms.
Context {F : Type} `{Scalar F}.

Lemma reach_closed_form {I : Type} (inputs : I) (outputs : dict F)
    (L : list (list (list F * list F))) :
  Forall (Forall reach_ok) L ->
  getitem outputs "cartesian position" = Ret (map (map fst) L) ->
  TaskDelayedReach_hook.recompute_targets inputs (map (map snd) L) outputs
  = Ret (map (map reach_cell) L).
Proof.
  intros HL Hout.
  unfold TaskDelayedReach_hook.recompute_targets.
  rewrite Hout; cbn [bind].
  unfold TF.where3, TF.ew3, TF.concat_last, TF.zeros_like, TF.map3, TF.map2,
    TF.tile_last_twice, TF.expand_dims_last, TF.reduce_sum_last,
    TF.slice_last.
  rewrite !map2_fuse, bzip2_map_map.
  rewrite (mapM2_returns reach_ok [] _ L HL) by reach_rows; cbn [bind].
  rewrite !map2_fuse, zipM2_map_map.
  rewrite (mapM2_returns reach_ok [] _ L HL) by reach_rows; cbn [bind].
  rewrite zipM2_map_map.
  rewrite (mapM2_returns reach_ok [] _ L HL) by reach_rows; cbn [bind].
  rewrite !map2_fuse, bzip2_map_map.
  rewrite (mapM2_returns reach_ok [] _ L HL) by reach_rows; cbn [bind].
  rewrite bzip2_map_map.
  rewrite (mapM2_returns reach_ok [] _ L HL) by reach_rows.
  f_equal; apply (map2_ext_Forall reach_ok); [exact HL | reach_rows].
Qed.

Lemma load_closed_form {S : Type} (inputs : tensor3 F * S)
    (outputs : dict F) (L : list (list (list F * (list F * list F)))) :
  Forall (Forall load_ok) L ->
  fst inputs = map (map fst) L ->
  getitem outputs "cartesian position"
  = Ret (map (map (fun e => fst (snd e))) L) ->
  TaskLoadProbability_hook.recompute_targets
    inputs (map (map (fun e => snd (snd e))) L) outputs
  = Ret (map (map load_cell) L).
Proof.
  intros HL Hin Hout.
  unfold TaskLoadProbability_hook.recompute_targets.
  rewrite Hout, Hin; cbn [bind].
  unfold TF.where3, TF.ew3, TF.ew2, TF.concat_last, TF.zeros_like, TF.map3,
    TF.map2, TF.tile_last_twice, TF.expand_dims_last, TF.reduce_sum_last,
    TF.slice_last, TF.index_last.
  rewrite !map2_fuse, bzip2_map_map.
  rewrite (mapM2_returns load_ok [] _ L HL) by load_rows; cbn [bind].
  rewrite mapM2_map.
  rewrite (mapM2_returns load_ok (flit 0) _ L HL) by load_rows;
    cbn [bind].
  rewrite !map2_fuse, bzip2_map_map.
  rewrite (mapM2_returns load_ok (flit 0) _ L HL) by load_rows;
    cbn [bind].
  rewrite !map2_fuse, zipM2_map_map.
  rewrite (mapM2_returns load_ok [] _ L HL) by load_rows; cbn [bind].
  rewrite zipM2_map_map.
  rewrite (mapM2_returns load_ok [] _ L HL) by load_rows; cbn [bind].
  rewrite !map2_fuse, bzip2_map_map.
  rewrite (mapM2_returns load_ok [] _ L HL) by load_rows; cbn [bind].
  rewrite bzip2_map_map.
  rewrite (mapM2_returns load_ok [] _ L HL) by load_rows.
  f_equal; apply (map2_ext_Forall load_ok);
    [exact HL | load_rows].
Qed.
End HookClosedForms.

(** ** Pairing two tensors of one shape *)

Definition cell_at {E : Type} (L : list (list E)) (b t : nat) : option E :=
  match nth_error L b with
  | Some m => nth_error m t
  | None => None
  end.

Definition pair_rows {A B : Type} (x : list (list A)) (y : list (list B))
  : list (list (A * B)) :=
  map (fun mn => combine (fst mn) (snd mn)) (combine x y).

Section Pairing.
Context {A B : Type}.

Lemma map_fst_combine (l : list A) (l' : list B) :
  length l = length l' -> map fst (combine l l') = l.
Proof.
  revert l'; induction l as [|a l IH]; intros [|b l'] Hlen;
    simpl in *; try discriminate; [reflexivity|].
  rewrite IH by lia; reflexivity.
Qed.

Lemma map_snd_combine (l : list A) (l' : list B) :
  length l = length l' -> map snd (combine l l') = l'.
Proof.
  revert l'; induction l as [|a l IH]; intros [|b l'] Hlen;
    simpl in *; try discriminate; [reflexivity|].
  rewrite IH by lia; reflexivity.
Qed.

Lemma Forall_combine (P : A -> Prop) (Q : B -> Prop) (l : list A)
    (l' : list B) :
  Forall P l -> Forall Q l' ->
  Forall (fun ab => P (fst ab) /\ Q (snd ab)) (combine l l').
Proof.
  intros HP; revert l'; induction HP as [|a l Ha HP IH];
    intros l' HQ; simpl; [constructor|].
  destruct HQ as [|b l' Hb HQ]; constructor; auto.
Qed.

Lemma nth_error_combine (l : list A) (l' : list B) (n : nat) :
  nth_error (combine l l') n =
  match nth_error l n, nth_error l' n with
  | Some a, Some b => Some (a, b)
  | _, _ => None
  end.
Proof.
  revert l l'; induction n as [|n IH]; intros [|a l] [|b l']; simpl;
    try reflexivity.
  - destruct (nth_error l n); reflexivity.
  - apply IH.
Qed.
End Pairing.

Section Shapes.
Context {F : Type}.

Definition rows_of (t : nat) (P : list F -> Prop) (x : tensor3 F) : Prop :=
  Forall (fun m => length m = t /\ Forall P m) x.

Lemma has_shape3_spec (b t d : nat) (x : tensor3 F) :
  has_shape3 b t d x = true <->
  length x = b /\ rows_of t (fun v => length v = d) x.
Proof.
  unfold has_shape3, rows_of, has_shape2.
  rewrite andb_true_iff, Nat.eqb_eq, forallb_forall, Forall_forall.
  split; intros [Hb Hx]; split; auto; intros m Hm; specialize (Hx m Hm).
  - rewrite andb_true_iff, Nat.eqb_eq, forallb_forall in Hx.
    destruct Hx as [Ht Hm']; split; [exact Ht|].
    rewrite Forall_forall; intros v Hv; apply Nat.eqb_eq; auto.
  - destruct Hx as [Ht Hm'].
    rewrite andb_true_iff, Nat.eqb_eq, forallb_forall; split; [exact Ht|].
    rewrite Forall_forall in Hm'; intros v Hv; apply Nat.eqb_eq; auto.
Qed.

Lemma rows_of_impl (t : nat) (P Q : list F -> Prop) (x : tensor3 F) :
  (forall v, P v -> Q v) -> rows_of t P x -> rows_of t Q x.
Proof.
  intros HPQ; unfold rows_of; apply Forall_impl; intros m [Ht Hm].
  split; [exact Ht|]; revert Hm; apply Forall_impl; exact HPQ.
Qed.

Lemma rows_of_map2 {E : Type} (t : nat) (P : list F -> Prop)
    (f : E -> list F) (L : list (list E)) :
  Forall (fun m => length m = t) L ->
  (forall e, P (f e)) ->
  rows_of t P (map (map f) L).
Proof.
  intros HL Hf; unfold rows_of; rewrite Forall_map.
  revert HL; apply Forall_impl; intros m Ht.
  rewrite length_map, Forall_map; split; [exact Ht|].
  rewrite Forall_forall; intros; apply Hf.
Qed.
End Shapes.

Section PairRows.
Context {A B : Type}.

Lemma pair_rows_fst (t : nat) (x : list (list A)) (y : list (list B)) :
  length x = length y ->
  Forall (fun m => length m = t) x -> Forall (fun m => length m = t) y ->
  map (map fst) (pair_rows x y) = x.
Proof.
  intros Hlen Hx; revert y Hlen; induction Hx as [|m x Hm Hx IH];
    intros [|n y] Hlen Hy; simpl in *; try discriminate; [reflexivity|].
  inversion Hy as [|? ? Hn Hy']; subst.
  unfold pair_rows in IH; rewrite IH by (auto; lia).
  rewrite map_fst_combine by congruence; reflexivity.
Qed.

Lemma pair_rows_snd (t : nat) (x : list (list A)) (y : list (list B)) :
  length x = length y ->
  Forall (fun m => length m = t) x -> Forall (fun m => length m = t) y ->
  map (map snd) (pair_rows x y) = y.
Proof.
  intros Hlen Hx; revert y Hlen; induction Hx as [|m x Hm Hx IH];
    intros [|n y] Hlen Hy; simpl in *; try discriminate; [reflexivity|].
  inversion Hy as [|? ? Hn Hy']; subst.
  unfold pair_rows in IH; rewrite IH by (auto; lia).
  rewrite map_snd_combine by congruence; reflexivity.
Qed.

Lemma pair_rows_Forall (P : A -> Prop) (Q : B -> Prop)
    (x : list (list A)) (y : list (list B)) :
  Forall (Forall P) x -> Forall (Forall Q) y ->
  Forall (Forall (fun ab => P (fst ab) /\ Q (snd ab))) (pair_rows x y).
Proof.
  intros Hx; revert y; induction Hx as [|m x Hm Hx IH]; intros y Hy;
    simpl; [constructor|].
  destruct Hy as [|n y Hn Hy]; constructor.
  - simpl; apply Forall_combine; assumption.
  - apply IH; exact Hy.
Qed.

Lemma pair_rows_length (t : nat) (x : list (list A)) (y : list (list B)) :
  Forall (fun m => length m = t) x -> Forall (fun m => length m = t) y ->
  Forall (fun m => length m = t) (pair_rows x y).
Proof.
  intros Hx; revert y; induction Hx as [|m x Hm Hx IH]; intros y Hy;
    simpl; [constructor|].
  destruct Hy as [|n y Hn Hy]; constructor.
  - simpl; rewrite length_combine; lia.
  - apply IH; exact Hy.
Qed.

Lemma cell_at_pair_rows (x : list (list A)) (y : list (list B))
    (b t : nat) :
  cell_at (pair_rows x y) b t =
  match cell_at x b t, cell_at y b t with
  | Some p, Some q => Some (p, q)
  | _, _ => None
  end.
Proof.
  unfold cell_at, pair_rows.
  rewrite nth_error_map, nth_error_combine.
  destruct (nth_error x b) as [m|]; simpl; [|reflexivity].
  destruct (nth_error y b) as [n|]; simpl.
  - apply nth_error_combine.
  - destruct (nth_error m t); reflexivity.
Qed.

Lemma cell_at_row (L : list (list A)) (b t : nat) (m : list A) :
  nth_error L b = Some m -> cell_at L b t = nth_error m t.
Proof. unfold cell_at; intros ->; reflexivity. Qed.

Lemma cell_at_map2 {C : Type} (f : A -> C) (L : list (list A)) (b t : nat) :
  cell_at (map (map f) L) b t = option_map f (cell_at L b t).
Proof.
  unfold cell_at; rewrite nth_error_map.
  destruct (nth_error L b) as [m|]; simpl; [|reflexivity].
  apply nth_error_map.
Qed.
End PairRows.


(** ** The hooks on tensors of matching shapes *)

#[export] Instance float_ScalarFacts : @ScalarFacts float float_Scalar.
Proof. split; vm_compute; reflexivity. Qed.

Section ShapeSplit.
Context {F : Type}.

Lemma rows_of_lengths (t : nat) (P : list F -> Prop) (x : tensor3 F) :
  rows_of t P x -> Forall (fun m => length m = t) x.
Proof. apply Forall_impl; intros m [Ht _]; exact Ht. Qed.

Lemma rows_of_rows (t : nat) (P : list F -> Prop) (x : tensor3 F) :
  rows_of t P x -> Forall (Forall P) x.
Proof. apply Forall_impl; intros m [_ Hm]; exact Hm. Qed.

Lemma Forall2d_impl {E : Type} (P Q : E -> Prop) (L : list (list E)) :
  (forall e, P e -> Q e) -> Forall (Forall P) L -> Forall (Forall Q) L.
Proof.
  intros HPQ; apply Forall_impl; intros m; apply Forall_impl; exact HPQ.
Qed.
End ShapeSplit.

Section HooksOnShapes.
Context {F : Type} `{Scalar F}.

Lemma reach_hook_on_shapes {I : Type} (b t d : nat) (inputs : I)
    (targets cp : tensor3 F) (outputs : dict F) :
  getitem outputs "cartesian position" = Ret cp ->
  has_shape3 b t d cp = true -> 2 <= d ->
  has_shape3 b t 4 targets = true ->
  TaskDelayedReach_hook.recompute_targets inputs targets outputs
  = Ret (map (map reach_cell) (pair_rows cp targets)).
Proof.
  intros Hout Hcp Hd Htg.
  apply has_shape3_spec in Hcp; destruct Hcp as [Hb Hcp].
  apply has_shape3_spec in Htg; destruct Htg as [Hb' Htg].
  pose proof (rows_of_lengths _ _ _ Hcp) as Lcp.
  pose proof (rows_of_lengths _ _ _ Htg) as Ltg.
  rewrite <- (pair_rows_snd t cp targets) at 1 by (auto; congruence).
  apply reach_closed_form.
  - eapply Forall2d_impl;
      [| apply (pair_rows_Forall _ _ _ _ (rows_of_rows _ _ _ Hcp)
                  (rows_of_rows _ _ _ Htg))].
    intros [p q] [Hp Hq]; simpl in *; split; simpl; lia.
  - rewrite (pair_rows_fst t) by (auto; congruence); exact Hout.
Qed.

Lemma load_hook_on_shapes {S : Type} (b t d di : nat)
    (inputs : tensor3 F * S) (targets cp : tensor3 F) (outputs : dict F) :
  getitem outputs "cartesian position" = Ret cp ->
  has_shape3 b t di (fst inputs) = true -> 4 <= di ->
  has_shape3 b t d cp = true -> 2 <= d ->
  has_shape3 b t 4 targets = true ->
  TaskLoadProbability_hook.recompute_targets inputs targets outputs
  = Ret (map (map load_cell)
             (pair_rows (fst inputs) (pair_rows cp targets))).
Proof.
  intros Hout Hin Hdi Hcp Hd Htg.
  apply has_shape3_spec in Hin; destruct Hin as [Hbi Hin].
  apply has_shape3_spec in Hcp; destruct Hcp as [Hb Hcp].
  apply has_shape3_spec in Htg; destruct Htg as [Hb' Htg].
  pose proof (rows_of_lengths _ _ _ Hin) as Lin.
  pose proof (rows_of_lengths _ _ _ Hcp) as Lcp.
  pose proof (rows_of_lengths _ _ _ Htg) as Ltg.
  assert (Lpr : Forall (fun m => length m = t) (pair_rows cp targets))
    by (apply pair_rows_length; assumption).
  assert (Hlen : length (fst inputs) = length (pair_rows cp targets)).
  { unfold pair_rows; rewrite length_map, length_combine; lia. }
  set (L := pair_rows (fst inputs) (pair_rows cp targets)).
  assert (Hsnd : map (map snd) L = pair_rows cp targets)
    by (apply (pair_rows_snd t); assumption).
  assert (Htg' : targets = map (map (fun e => snd (snd e))) L).
  { rewrite <- (map2_fuse snd snd), Hsnd.
    symmetry; apply (pair_rows_snd t); auto; congruence. }
  rewrite Htg' at 1.
  apply load_closed_form.
  - eapply Forall2d_impl;
      [| apply (pair_rows_Forall _ _ _ _ (rows_of_rows _ _ _ Hin)
                  (pair_rows_Forall _ _ _ _ (rows_of_rows _ _ _ Hcp)
                     (rows_of_rows _ _ _ Htg)))].
    intros [i [p q]] [Hi [Hp Hq]]; simpl in *.
    split; [simpl; lia | split; simpl; lia].
  - symmetry; apply (pair_rows_fst t); assumption.
  - rewrite <- (map2_fuse fst snd), Hsnd.
    rewrite (pair_rows_fst t) by (auto; congruence); exact Hout.
Qed.
End HooksOnShapes.

(** ** Claims about [recompute_targets] *)

(** The distance is at or below the tolerance [tol]. *)
Definition within {F : Type} `{Scalar F} (tol : Q) (p q : list F) : bool :=
  fle (distance p q) (flit tol).

Definition zero_velocity {F : Type} `{Scalar F} : list F := [flit 0; flit 0].

Section LockFacts.
Context {F : Type} `{Scalar F}.

Lemma lock_position (tol d : F) (p q : list F) :
  2 <= length p -> length q = 4 ->
  position (lock tol d p q)
  = if fle d tol then position p else position q.
Proof.
  intros Hp Hq.
  destruct p as [|p0 [|p1 p]]; simpl in Hp; try lia.
  open_row q; simpl in Hq; try lia.
  destruct q; simpl in Hq; try lia.
  unfold lock, position; simpl.
  destruct (fle d tol); reflexivity.
Qed.

Lemma lock_velocity (tol d : F) (p q : list F) :
  2 <= length p -> length q = 4 ->
  fle (flit 0) tol = true ->
  velocity (lock tol d p q) = zero_velocity.
Proof.
  intros Hp Hq Hz.
  destruct p as [|p0 [|p1 p]]; simpl in Hp; try lia.
  open_row q; simpl in Hq; try lia.
  destruct q; simpl in Hq; try lia.
  unfold lock, velocity, zero_velocity; simpl.
  rewrite Hz; reflexivity.
Qed.

Lemma lock_length (tol d : F) (p q : list F) :
  length q = 4 -> length (lock tol d p q) = 4.
Proof.
  intros Hq; unfold lock.
  destruct (position p) as [|p0 [|p1 [|]]]; try exact Hq.
  open_row q; simpl in Hq; try lia.
  destruct q; simpl in Hq; try lia.
  reflexivity.
Qed.

(** Locking twice with the same achieved state is locking once. *)
Lemma lock_twice (tol d d' : F) (p q : list F) :
  2 <= length p -> length q = 4 ->
  (fle d tol = false -> d' = d) ->
  lock tol d' p (lock tol d p q) = lock tol d p q.
Proof.
  intros Hp Hq Hd.
  destruct p as [|p0 [|p1 p]]; simpl in Hp; try lia.
  open_row q; simpl in Hq; try lia.
  destruct q; simpl in Hq; try lia.
  unfold lock; simpl.
  destruct (fle d tol) eqn:Ed.
  - destruct (fle d' tol), (fle (flit 0) tol); reflexivity.
  - rewrite (Hd eq_refl), Ed.
    destruct (fle (flit 0) tol); reflexivity.
Qed.

(** The distance only reads the two position channels. *)
Lemma distance_position (p q q' : list F) :
  position q = position q' -> distance p q = distance p q'.
Proof. unfold distance; intros ->; reflexivity. Qed.

Lemma lock_position_kept (tol d : F) (p q : list F) :
  2 <= length p -> length q = 4 -> fle d tol = false ->
  position (lock tol d p q) = position q.
Proof. intros Hp Hq Hd; rewrite lock_position, Hd by assumption; reflexivity. Qed.
End LockFacts.

Section HookCellsOnShapes.
Context {F : Type} `{Scalar F}.

Lemma cell_at_rows_of (t : nat) (P : list F -> Prop) (x : tensor3 F)
    (i j : nat) (v : list F) :
  rows_of t P x -> cell_at x i j = Some v -> P v.
Proof.
  unfold rows_of, cell_at; intros Hx Hv.
  destruct (nth_error x i) as [m|] eqn:Em; [|discriminate].
  rewrite Forall_forall in Hx.
  destruct (Hx m (nth_error_In _ _ Em)) as [_ Hm].
  rewrite Forall_forall in Hm.
  exact (Hm v (nth_error_In _ _ Hv)).
Qed.

Lemma cell_at_shape (b t d : nat) (x : tensor3 F) (i j : nat) (v : list F) :
  has_shape3 b t d x = true -> cell_at x i j = Some v -> length v = d.
Proof.
  intros Hx; apply has_shape3_spec in Hx; destruct Hx as [_ Hx].
  exact (cell_at_rows_of _ _ _ i j v Hx).
Qed.

Lemma reach_hook_cells {I : Type} (b t d : nat) (inputs : I)
    (targets cp : tensor3 F) (outputs : dict F) :
  getitem outputs "cartesian position" = Ret cp ->
  has_shape3 b t d cp = true -> 2 <= d ->
  has_shape3 b t 4 targets = true ->
  exists targets',
    TaskDelayedReach_hook.recompute_targets inputs targets outputs
    = Ret targets' /\
    forall i j p q,
      cell_at cp i j = Some p -> cell_at targets i j = Some q ->
      cell_at targets' i j = Some (reach_cell (p, q)).
Proof.
  intros Hout Hcp Hd Htg.
  eexists; split;
    [exact (reach_hook_on_shapes b t d inputs _ _ _ Hout Hcp Hd Htg)|].
  intros i j p q Hp Hq.
  rewrite cell_at_map2, cell_at_pair_rows, Hp, Hq; reflexivity.
Qed.

Lemma load_hook_cells {S : Type} (b t d di : nat) (inputs : tensor3 F * S)
    (targets cp : tensor3 F) (outputs : dict F) :
  getitem outputs "cartesian position" = Ret cp ->
  has_shape3 b t di (fst inputs) = true -> 4 <= di ->
  has_shape3 b t d cp = true -> 2 <= d ->
  has_shape3 b t 4 targets = true ->
  exists targets',
    TaskLoadProbability_hook.recompute_targets inputs targets outputs
    = Ret targets' /\
    forall i j m p q,
      cell_at (fst inputs) i j = Some m ->
      cell_at cp i j = Some p -> cell_at targets i j = Some q ->
      cell_at targets' i j = Some (load_cell (m, (p, q))).
Proof.
  intros Hout Hin Hdi Hcp Hd Htg.
  eexists; split;
    [exact (load_hook_on_shapes b t d di inputs _ _ _ Hout Hin Hdi Hcp Hd Htg)|].
  intros i j m p q Hm Hp Hq.
  rewrite cell_at_map2, !cell_at_pair_rows, Hm, Hp, Hq; reflexivity.
Qed.
End HookCellsOnShapes.

(** What the claims say of one result row [r], for the achieved state [p] and
    the assigned target [q]. *)
Definition locks_at {F : Type} `{Scalar F} (tol : Q) (gate : bool)
    (p q r : list F) : Prop :=
  velocity r = zero_velocity /\
  (gate = true -> within tol p q = true -> position r = position p) /\
  (gate = true -> distance p q = flit tol -> position r = position p) /\
  (gate = true -> within tol p q = false -> position r = position q) /\
  (gate = false -> position r = position q).

Definition reach_locks {F : Type} `{Scalar F} {I : Type} (inputs : I)
    (targets cp : tensor3 F) (outputs : dict F) : Prop :=
  exists targets',
    TaskDelayedReach_hook.recompute_targets inputs targets outputs
    = Ret targets' /\
    forall i j p q,
      cell_at cp i j = Some p -> cell_at targets i j = Some q ->
      exists r, cell_at targets' i j = Some r /\
                locks_at (1 # 10) true p q r.

Definition load_locks {F : Type} `{Scalar F} {S : Type}
    (inputs : tensor3 F * S) (targets cp : tensor3 F) (outputs : dict F)
  : Prop :=
  exists targets',
    TaskLoadProbability_hook.recompute_targets inputs targets outputs
    = Ret targets' /\
    forall i j m p q,
      cell_at (fst inputs) i j = Some m ->
      cell_at cp i j = Some p -> cell_at targets i j = Some q ->
      exists r, cell_at targets' i j = Some r /\
                locks_at (35 # 1000) (negb (flagged m)) p q r.

Section HookClaims.
Context {F : Type} `{ScalarFacts F}.

Lemma lock_locks_at (tol : Q) (gate : bool) (p q : list F) :
  2 <= length p -> length q = 4 ->
  fle (flit 0) (flit tol) = true ->
  fle (flit tol) (flit tol) = true ->
  (gate = false -> fle (flit 1000) (flit tol) = false) ->
  locks_at tol gate p q
    (lock (flit tol) (if gate then distance p q else flit 1000) p q).
Proof.
  intros Hp Hq Hz Hrefl Hs; unfold locks_at, within.
  split; [apply lock_velocity; assumption|].
  rewrite lock_position by assumption.
  repeat split.
  - intros -> ->; reflexivity.
  - intros -> ->; rewrite Hrefl; reflexivity.
  - intros -> ->; reflexivity.
  - intros Hg; rewrite Hg, (Hs Hg); reflexivity.
Qed.

(** C1 (as amended). On tensors of matching shapes both hooks return. At
    every trial and timestep the velocity component of the result is zero.
    [TaskDelayedReach]: where the distance between the achieved position and
    the target position is at or below 0.1 (a distance equal to 0.1
    included) the position component of the result is the achieved position,
    elsewhere it is the target's. [TaskLoadProbability]: the same with
    tolerance 0.035 at the timesteps the marker channel does not flag; at a
    flagged timestep the position component is the target's. *)
Theorem recompute_targets_locks_within_tolerance {I S : Type}
    (b t d di : nat) (inputs_reach : I) (inputs_load : tensor3 F * S)
    (targets cp : tensor3 F) (outputs : dict F) :
  getitem outputs "cartesian position" = Ret cp ->
  has_shape3 b t d cp = true -> 2 <= d ->
  has_shape3 b t 4 targets = true ->
  has_shape3 b t di (fst inputs_load) = true -> 4 <= di ->
  reach_locks inputs_reach targets cp outputs /\
  load_locks inputs_load targets cp outputs.
Proof.
  intros Hout Hcp Hd Htg Hin Hdi; split.
  - destruct (reach_hook_cells b t d inputs_reach _ _ _ Hout Hcp Hd Htg)
      as [targets' [Hret Hcells]].
    exists targets'; split; [exact Hret|].
    intros i j p q Hp Hq.
    exists (reach_cell (p, q)); split; [exact (Hcells i j p q Hp Hq)|].
    apply (lock_locks_at (1 # 10) true).
    + rewrite (cell_at_shape _ _ _ _ _ _ _ Hcp Hp); lia.
    + exact (cell_at_shape _ _ _ _ _ _ _ Htg Hq).
    + apply zero_le_tol_reach.
    + apply tol_reach_le_self.
    + discriminate.
  - destruct (load_hook_cells b t d di inputs_load _ _ _ Hout Hin Hdi Hcp Hd
                Htg) as [targets' [Hret Hcells]].
    exists targets'; split; [exact Hret|].
    intros i j m p q Hm Hp Hq.
    exists (load_cell (m, (p, q))); split; [exact (Hcells i j m p q Hm Hp Hq)|].
    assert (Hl : load_cell (m, (p, q))
                 = lock (flit (35 # 1000))
                        (if negb (flagged m) then distance p q else flit 1000)
                        p q)
      by (unfold load_cell; destruct (flagged m); reflexivity).
    rewrite Hl; apply (lock_locks_at (35 # 1000)).
    + rewrite (cell_at_shape _ _ _ _ _ _ _ Hcp Hp); lia.
    + exact (cell_at_shape _ _ _ _ _ _ _ Htg Hq).
    + apply zero_le_tol_load.
    + apply tol_load_le_self.
    + intros _; apply sentinel_gt_tol.
Qed.
End HookClaims.

(** A hook returns on [targets], and returns the same again on its result. *)
Definition idempotent_on {F : Type} (hook : tensor3 F -> res (tensor3 F))
    (targets : tensor3 F) : Prop :=
  exists targets', hook targets = Ret targets' /\ hook targets' = Ret targets'.

Section Idempotence.
Context {F : Type} `{Scalar F}.

Lemma reach_cell_twice (e : list F * list F) :
  reach_ok e -> reach_cell (fst e, reach_cell e) = reach_cell e.
Proof.
  destruct e as [p q]; intros [Hp Hq]; simpl in Hp, Hq.
  unfold reach_cell; simpl.
  apply lock_twice; [assumption | assumption |].
  intros Hd; apply distance_position.
  apply lock_position_kept; assumption.
Qed.

Lemma load_cell_twice (e : list F * (list F * list F)) :
  load_ok e ->
  load_cell (fst e, (fst (snd e), load_cell e)) = load_cell e.
Proof.
  destruct e as [m [p q]]; intros [Hm [Hp Hq]]; simpl in Hm, Hp, Hq.
  unfold load_cell; simpl.
  apply lock_twice; [assumption | assumption |].
  intros Hd; destruct (flagged m); [reflexivity|].
  apply distance_position.
  apply lock_position_kept; assumption.
Qed.

Lemma reach_idempotent_paired {I : Type} (inputs : I) (outputs : dict F)
    (L : list (list (list F * list F))) :
  Forall (Forall reach_ok) L ->
  getitem outputs "cartesian position" = Ret (map (map fst) L) ->
  TaskDelayedReach_hook.recompute_targets
    inputs (map (map reach_cell) L) outputs
  = Ret (map (map reach_cell) L).
Proof.
  intros HL Hout.
  set (L' := map (map (fun e => (fst e, reach_cell e))) L).
  assert (Hsnd : map (map snd) L' = map (map reach_cell) L)
    by (unfold L'; rewrite map2_fuse; reflexivity).
  assert (Hfst : map (map fst) L' = map (map fst) L)
    by (unfold L'; rewrite map2_fuse; reflexivity).
  rewrite <- Hsnd at 1.
  rewrite (reach_closed_form inputs outputs L').
  - unfold L'; rewrite map2_fuse; f_equal.
    apply (map2_ext_Forall reach_ok); [exact HL|].
    intros e He; apply reach_cell_twice; exact He.
  - unfold L'.
    rewrite Forall_map; revert HL; apply Forall_impl; intros m Hm.
    rewrite Forall_map; revert Hm; apply Forall_impl; intros [p q] [Hp Hq].
    split; [exact Hp|]; simpl in *.
    unfold reach_cell; apply lock_length; exact Hq.
  - rewrite Hfst; exact Hout.
Qed.

Lemma load_idempotent_paired {S : Type} (inputs : tensor3 F * S)
    (outputs : dict F) (L : list (list (list F * (list F * list F)))) :
  Forall (Forall load_ok) L ->
  fst inputs = map (map fst) L ->
  getitem outputs "cartesian position"
  = Ret (map (map (fun e => fst (snd e))) L) ->
  TaskLoadProbability_hook.recompute_targets
    inputs (map (map load_cell) L) outputs
  = Ret (map (map load_cell) L).
Proof.
  intros HL Hin Hout.
  set (L' := map (map (fun e => (fst e, (fst (snd e), load_cell e)))) L).
  assert (Hsnd : map (map (fun e => snd (snd e))) L' = map (map load_cell) L)
    by (unfold L'; rewrite map2_fuse; reflexivity).
  rewrite <- Hsnd at 1.
  rewrite (load_closed_form inputs outputs L').
  - unfold L'; rewrite map2_fuse; f_equal.
    apply (map2_ext_Forall load_ok); [exact HL|].
    intros e He; apply load_cell_twice; exact He.
  - unfold L'.
    rewrite Forall_map; revert HL; apply Forall_impl; intros m Hm.
    rewrite Forall_map; revert Hm; apply Forall_impl.
    intros [i [p q]] [Hi [Hp Hq]].
    split; [exact Hi | split; [exact Hp|]]; simpl in *.
    apply lock_length; exact Hq.
  - unfold L'; rewrite map2_fuse; exact Hin.
  - unfold L'; rewrite map2_fuse; exact Hout.
Qed.

(** C9. For a fixed rollout and tensors of matching shapes, each hook
    returns, and applied again to its own result with the same inputs and
    outputs it returns that result unchanged. *)
Theorem recompute_targets_idempotent {I S : Type} (b t d di : nat)
    (inputs_reach : I) (inputs_load : tensor3 F * S)
    (targets cp : tensor3 F) (outputs : dict F) :
  getitem outputs "cartesian position" = Ret cp ->
  has_shape3 b t d cp = true -> 2 <= d ->
  has_shape3 b t 4 targets = true ->
  has_shape3 b t di (fst inputs_load) = true -> 4 <= di ->
  idempotent_on
    (fun x => TaskDelayedReach_hook.recompute_targets inputs_reach x outputs)
    targets /\
  idempotent_on
    (fun x => TaskLoadProbability_hook.recompute_targets inputs_load x
                outputs)
    targets.
Proof.
  intros Hout Hcp Hd Htg Hin Hdi.
  pose proof Hcp as Hcp'; pose proof Htg as Htg'; pose proof Hin as Hin'.
  apply has_shape3_spec in Hcp'; destruct Hcp' as [Hb Rcp].
  apply has_shape3_spec in Htg'; destruct Htg' as [Hb' Rtg].
  apply has_shape3_spec in Hin'; destruct Hin' as [Hbi Rin].
  pose proof (rows_of_lengths _ _ _ Rcp) as Lcp.
  pose proof (rows_of_lengths _ _ _ Rtg) as Ltg.
  pose proof (rows_of_lengths _ _ _ Rin) as Lin.
  assert (Hpair : Forall (Forall reach_ok) (pair_rows cp targets)).
  { eapply Forall2d_impl;
      [| apply (pair_rows_Forall _ _ _ _ (rows_of_rows _ _ _ Rcp)
                  (rows_of_rows _ _ _ Rtg))].
    intros [p q] [Hp Hq]; simpl in *; split; simpl; lia. }
  split.
  - exists (map (map reach_cell) (pair_rows cp targets)); split.
    + exact (reach_hook_on_shapes b t d inputs_reach _ _ _ Hout Hcp Hd Htg).
    + apply reach_idempotent_paired; [exact Hpair|].
      rewrite (pair_rows_fst t) by (auto; congruence); exact Hout.
  - set (L := pair_rows (fst inputs_load) (pair_rows cp targets)).
    assert (Lpr : Forall (fun m => length m = t) (pair_rows cp targets))
      by (apply pair_rows_length; assumption).
    assert (Hlen : length (fst inputs_load) = length (pair_rows cp targets)).
    { unfold pair_rows; rewrite length_map, length_combine; lia. }
    assert (Hsnd : map (map snd) L = pair_rows cp targets)
      by (apply (pair_rows_snd t); assumption).
    exists (map (map load_cell) L); split.
    + exact (load_hook_on_shapes b t d di inputs_load _ _ _ Hout Hin Hdi Hcp
               Hd Htg).
    + apply load_idempotent_paired.
      * eapply Forall2d_impl;
          [| apply (pair_rows_Forall _ _ _ _ (rows_of_rows _ _ _ Rin)
                      (pair_rows_Forall _ _ _ _ (rows_of_rows _ _ _ Rcp)
                         (rows_of_rows _ _ _ Rtg)))].
        intros [i [p q]] [Hi [Hp Hq]]; simpl in *.
        split; [simpl; lia | split; simpl; lia].
      * symmetry; apply (pair_rows_fst t); assumption.
      * rewrite <- (map2_fuse fst snd), Hsnd.
        rewrite (pair_rows_fst t) by (auto; congruence); exact Hout.
Qed.
End Idempotence.

(** ** A rollout in binary64 *)

Definition fl (q : Q) : float := flit q.

(** One trial, two timesteps: the first is flagged by the marker channel. *)
Definition ex_inputs : tensor3 float * unit :=
  ([[[fl 0; fl 0; fl 0; fl (-1)]; [fl 0; fl 0; fl 0; fl 0]]], tt).

Definition ex_targets : tensor3 float :=
  [[[fl 0; fl 0; fl 1; fl 1]; [fl 0; fl 0; fl 1; fl 1]]].

Definition ex_cp : tensor3 float :=
  [[[fl 1; fl 0; fl 0; fl 0]; [fl (1 # 100); fl 0; fl 7; fl 8]]].

Definition ex_outputs : dict float :=
  [("muscle state", []); ("cartesian position", ex_cp)]%string.

Lemma recompute_targets_locks_witness :
  reach_locks tt ex_targets ex_cp ex_outputs /\
  load_locks ex_inputs ex_targets ex_cp ex_outputs.
Proof.
  apply (recompute_targets_locks_within_tolerance
           1 2 4 4 tt ex_inputs ex_targets ex_cp ex_outputs);
    first [reflexivity | repeat constructor].
Defined.

Lemma recompute_targets_idempotent_witness :
  idempotent_on
    (fun x => TaskDelayedReach_hook.recompute_targets tt x ex_outputs)
    ex_targets /\
  idempotent_on
    (fun x => TaskLoadProbability_hook.recompute_targets ex_inputs x
                ex_outputs)
    ex_targets.
Proof.
  apply (recompute_targets_idempotent
           1 2 4 4 tt ex_inputs ex_targets ex_cp ex_outputs);
    first [reflexivity | repeat constructor].
Defined.

(** C1 as stated fails. At the first timestep of the rollout the achieved
    position is at distance 1 from the target, above both tolerances, and
    the target [(0, 0, 1, 1)] still becomes [(0, 0, 0, 0)]. At a flagged
    timestep of [TaskLoadProbability] an achieved position at distance 0.01,
    within the tolerance 0.035, does not replace the target position. *)
Lemma recompute_targets_unchanged_elsewhere_fails :
  within (1 # 10) [fl 1; fl 0; fl 0; fl 0] [fl 0; fl 0; fl 1; fl 1] = false /\
  (exists targets',
     TaskDelayedReach_hook.recompute_targets tt ex_targets ex_outputs
     = Ret targets' /\
     cell_at ex_targets 0 0 = Some [fl 0; fl 0; fl 1; fl 1] /\
     cell_at targets' 0 0 = Some [fl 0; fl 0; fl 0; fl 0] /\
     cell_at targets' 0 0 <> cell_at ex_targets 0 0) /\
  within (35 # 1000) [fl (1 # 100); fl 0; fl 0; fl 0]
         [fl 0; fl 0; fl 0; fl 0] = true /\
  flagged [fl 0; fl 0; fl 0; fl (-1)] = true /\
  TaskLoadProbability_hook.recompute_targets
    ([[[fl 0; fl 0; fl 0; fl (-1)]]], tt)
    [[[fl 0; fl 0; fl 0; fl 0]]]
    [("cartesian position", [[[fl (1 # 100); fl 0; fl 0; fl 0]]])]%string
  = Ret [[[fl 0; fl 0; fl 0; fl 0]]] /\
  position [fl 0; fl 0; fl 0; fl 0]
  <> position [fl (1 # 100); fl 0; fl 0; fl 0].
Proof.
  split; [vm_compute; reflexivity|].
  split.
  { eexists; split; [vm_compute; reflexivity|].
    split; [reflexivity|].
    split; [vm_compute; reflexivity|].
    vm_compute; intro Heq; discriminate Heq. }
  split; [vm_compute; reflexivity|].
  split; [vm_compute; reflexivity|].
  split; [vm_compute; reflexivity|].
  vm_compute; intro Heq; discriminate Heq.
Qed.

(** ** Claims about [generate_delay_time] *)



Lemma truncation_unique (x : Q) (d d' : Z) :
  truncation_of x d -> truncation_of x d' -> d = d'.
Proof.
  intros [Hp Hn] [Hp' Hn'].
  destruct (Qlt_le_dec x 0) as [Hneg | Hpos].
  - destruct (Hn (Qlt_le_weak _ _ Hneg)) as [H1 H2].
    destruct (Hn' (Qlt_le_weak _ _ Hneg)) as [H1' H2'].
    assert (Ha : (d + -1 < d')%Z).
    { rewrite Zlt_Qlt, inject_Z_plus.
      change (inject_Z (-1)) with (-1)%Q; lra. }
    assert (Hb : (d' + -1 < d)%Z).
    { rewrite Zlt_Qlt, inject_Z_plus.
      change (inject_Z (-1)) with (-1)%Q; lra. }
    lia.
  - destruct (Hp Hpos) as [H1 H2]; destruct (Hp' Hpos) as [H1' H2'].
    assert (Ha : (d < d' + 1)%Z).
    { rewrite Zlt_Qlt, inject_Z_plus.
      change (inject_Z 1) with 1%Q; lra. }
    assert (Hb : (d' < d + 1)%Z).
    { rewrite Zlt_Qlt, inject_Z_plus.
      change (inject_Z 1) with 1%Q; lra. }
    lia.
Qed.






(** ** Claims about [Task] *)

Section TaskClaims.
Variable State : Type.
Variable controller_get_initial_state : nat -> option (tensor2 Q) -> State.

Lemma mapM_getitem_singleton (v : list Q) (i : list nat) :
  Forall (fun j => j < 1) i ->
  mapM (getitem_list [v]) i = Ret (repeat v (length i)).
Proof.
  induction 1 as [|j i Hj Hi IH]; simpl; [reflexivity|].
  assert (j = 0) by lia; subst j; simpl.
  rewrite IH; reflexivity.
Qed.

(** C10. A [Task] built from a one-dimensional [initial_joint_state] holds a
    pool of exactly that one state, and for every [batch_size] (and every
    outcome [i] of [randint(0, 1, batch_size)]) [get_initial_state] forwards
    to the controller a batch whose [batch_size] rows all equal it. *)
Theorem one_dimensional_initial_state_fills_batch (v : list Q)
    (batch_size : nat) (i : list nat) :
  length i = batch_size -> Forall (fun j => j < 1) i ->
  initial_joint_state (Task_init (Some (Vector v))) = Some [v] /\
  n_initial_joint_states (Task_init (Some (Vector v))) = Some 1 /\
  forwarded_inputs (Task_init (Some (Vector v))) i
  = Ret (Some (repeat v batch_size)) /\
  get_initial_state State controller_get_initial_state
    (Task_init (Some (Vector v))) batch_size i
  = Ret (controller_get_initial_state batch_size
           (Some (repeat v batch_size))).
Proof.
  intros Hlen Hi.
  assert (Hf : forwarded_inputs (Task_init (Some (Vector v))) i
               = Ret (Some (repeat v batch_size))).
  { unfold forwarded_inputs; simpl.
    rewrite (mapM_getitem_singleton v i Hi), Hlen; reflexivity. }
  repeat split; [exact Hf|].
  unfold get_initial_state; rewrite Hf; reflexivity.
Qed.
End TaskClaims.

Lemma one_dimensional_initial_state_witness :
  forwarded_inputs (Task_init (Some (Vector [1; 2; 0; 0]%Q))) [0; 0; 0]
  = Ret (Some [[1; 2; 0; 0]; [1; 2; 0; 0]; [1; 2; 0; 0]]%Q).
Proof.
  apply (one_dimensional_initial_state_fills_batch
           unit (fun _ _ => tt) [1; 2; 0; 0]%Q 3 [0; 0; 0]).
  - reflexivity.
  - repeat constructor.
Defined.

(** ** Reasoning about results, slices and loops *)

Lemma bind_Ret {A B : Type} (m : res A) (k : A -> res B) (b : B) :
  bind m k = Ret b -> exists a, m = Ret a /\ k a = Ret b.
Proof.
  destruct m as [a|e]; simpl; [|discriminate].
  intros Hk; exists a; split; [reflexivity | exact Hk].
Qed.

Ltac bind_inv H :=
  let a := fresh "a" in
  let E := fresh "E" in
  apply bind_Ret in H; destruct H as (a & E & H).

Lemma Ret_inj {A : Type} (a b : A) : Ret a = Ret b -> a = b.
Proof. intros Heq; injection Heq; auto. Qed.


Lemma nth_error_lt {A : Type} (l : list A) (k : nat) (x : A) :
  nth_error l k = Some x -> k < length l.
Proof. intros Hx; apply nth_error_Some; rewrite Hx; discriminate. Qed.

Lemma Forall_nth_error_intro {A : Type} (P : A -> Prop) (l : list A) :
  (forall k x, nth_error l k = Some x -> P x) -> Forall P l.
Proof.
  intros Hl; apply Forall_forall; intros x Hx.
  destruct (In_nth_error _ _ Hx) as [k Hk]; exact (Hl k x Hk).
Qed.

Section ListResults.
Context {A B C : Type}.

Lemma mapM_length (f : A -> res B) (l : list A) (l' : list B) :
  mapM f l = Ret l' -> length l' = length l.
Proof.
  revert l'; induction l as [|x l IH]; simpl; intros l' Hm.
  - apply Ret_inj in Hm; subst; reflexivity.
  - bind_inv Hm; bind_inv Hm; apply Ret_inj in Hm; subst; simpl.
    f_equal; apply IH; assumption.
Qed.

Lemma mapM_nth_error (f : A -> res B) (l : list A) (l' : list B) (i : nat)
    (x : A) :
  mapM f l = Ret l' -> nth_error l i = Some x ->
  exists y, f x = Ret y /\ nth_error l' i = Some y.
Proof.
  revert l' i; induction l as [|a l IH]; simpl; intros l' i Hm Hx.
  - destruct i; discriminate.
  - bind_inv Hm; bind_inv Hm; apply Ret_inj in Hm; subst.
    destruct i as [|i]; simpl in *.
    + injection Hx as <-; eauto.
    + eapply IH; eauto.
Qed.

Lemma zipM_length (f : A -> B -> res C) (xs : list A) (ys : list B)
    (zs : list C) :
  zipM f xs ys = Ret zs -> length zs = length xs /\ length zs = length ys.
Proof.
  revert ys zs; induction xs as [|x xs IH]; intros [|y ys] zs Hz;
    simpl in Hz; try discriminate.
  - apply Ret_inj in Hz; subst; auto.
  - bind_inv Hz; bind_inv Hz; apply Ret_inj in Hz; subst; simpl.
    destruct (IH _ _ E0); split; congruence.
Qed.

Lemma zipM_nth_error (f : A -> B -> res C) (xs : list A) (ys : list B)
    (zs : list C) (i : nat) (x : A) (y : B) :
  zipM f xs ys = Ret zs ->
  nth_error xs i = Some x -> nth_error ys i = Some y ->
  exists z, f x y = Ret z /\ nth_error zs i = Some z.
Proof.
  revert ys zs i; induction xs as [|a xs IH]; intros [|b ys] zs i Hz Hx Hy;
    simpl in Hz; try discriminate; try (destruct i; discriminate).
  bind_inv Hz; bind_inv Hz; apply Ret_inj in Hz; subst.
  destruct i as [|i]; simpl in *.
  - injection Hx as <-; injection Hy as <-; eauto.
  - eapply IH; eauto.
Qed.
End ListResults.

Section Updates.
Context {A : Type}.

Lemma nth_error_update (x : list A) (i j : nat) (m' : A) :
  i < length x ->
  nth_error (firstn i x ++ m' :: skipn (S i) x) j
  = if Nat.eqb j i then Some m' else nth_error x j.
Proof.
  intros Hi.
  assert (Hf : length (firstn i x) = i) by (rewrite length_firstn; lia).
  destruct (Nat.eqb_spec j i) as [->|Hne].
  - rewrite nth_error_app2 by lia.
    rewrite Hf, Nat.sub_diag; reflexivity.
  - destruct (Nat.lt_ge_cases j i) as [Hlt|Hge].
    + rewrite nth_error_app1 by lia.
      rewrite nth_error_firstn.
      destruct (Nat.ltb_spec j i); [reflexivity | lia].
    + rewrite nth_error_app2 by lia.
      rewrite Hf.
      destruct (j - i) as [|k] eqn:Ek; [lia|]; cbn [nth_error].
      rewrite nth_error_skipn; f_equal; lia.
Qed.

Lemma length_update (x : list A) (i : nat) (m' : A) :
  i < length x -> length (firstn i x ++ m' :: skipn (S i) x) = length x.
Proof.
  intros Hi; rewrite length_app, length_firstn; cbn [length].
  rewrite length_skipn; lia.
Qed.

Lemma update_trial_Ret (x x' : list A) (i : nat) (f : A -> res A) :
  update_trial x i f = Ret x' ->
  exists m m', nth_error x i = Some m /\ f m = Ret m' /\
               x' = firstn i x ++ m' :: skipn (S i) x.
Proof.
  unfold update_trial; destruct (nth_error x i) as [m|]; [|discriminate].
  intros Hf; bind_inv Hf; apply Ret_inj in Hf; eauto.
Qed.

Lemma getitem_list_Ret (x : list A) (i : nat) (a : A) :
  getitem_list x i = Ret a -> nth_error x i = Some a.
Proof.
  unfold getitem_list; destruct (nth_error x i); [|discriminate].
  intros Heq; apply Ret_inj in Heq; congruence.
Qed.
End Updates.

Section ForRange.
Context {S : Type}.
Variable body : nat -> S -> res S.
Variable Inv : nat -> S -> Prop.

Lemma for_range_inv (start count : nat) (s s' : S) :
  (forall i s1 s2, start <= i < start + count ->
                   Inv i s1 -> body i s1 = Ret s2 -> Inv (Datatypes.S i) s2) ->
  Inv start s ->
  for_range body start count s = Ret s' ->
  Inv (start + count) s'.
Proof.
  revert start s; induction count as [|count IH]; intros start s Hstep H0 Hr;
    simpl in Hr.
  - apply Ret_inj in Hr; subst; rewrite Nat.add_0_r; exact H0.
  - bind_inv Hr.
    replace (start + Datatypes.S count) with (Datatypes.S start + count)
      by lia.
    apply (IH (Datatypes.S start) a); [| |exact Hr].
    + intros i s1 s2 Hi; apply Hstep; lia.
    + apply (Hstep start s a); [lia | exact H0 | exact E].
Qed.
End ForRange.

(** A loop that appends one item per turn and rewrites the matching entry of
    an array. *)
Section AppendUpdateLoop.
Context {X Y : Type}.
Variable body : nat -> list X * list Y -> res (list X * list Y).
Variable R : nat -> Y -> X -> Y -> Prop.

Hypothesis body_Ret :
  forall i acc arr acc' arr',
    body i (acc, arr) = Ret (acc', arr') ->
    exists y x y',
      nth_error arr i = Some y /\ R i y x y' /\
      acc' = acc ++ [x] /\ arr' = firstn i arr ++ y' :: skipn (Datatypes.S i) arr.

Definition turns_done (arr0 : list Y) (k : nat) (s : list X * list Y)
  : Prop :=
  length (fst s) = k /\ length (snd s) = length arr0 /\
  (forall i, i < k ->
     exists y x y', nth_error arr0 i = Some y /\
                    nth_error (fst s) i = Some x /\
                    nth_error (snd s) i = Some y' /\ R i y x y') /\
  (forall i, k <= i -> nth_error (snd s) i = nth_error arr0 i).

Lemma append_update_loop (arr0 : list Y) (count : nat)
    (s : list X * list Y) :
  for_range body 0 count ([], arr0) = Ret s -> turns_done arr0 count s.
Proof.
  intros Hr.
  apply (for_range_inv body (turns_done arr0) 0 count ([], arr0) s);
    [| |exact Hr].
  - intros i [acc arr] [acc' arr'] _ (Hacc & Harr & Hdone & Hrest) Hb.
    cbn [fst snd] in *.
    destruct (body_Ret _ _ _ _ _ Hb) as (y & x & y' & Hy & HR & -> & ->).
    assert (Hi : i < length arr) by (apply nth_error_Some; congruence).
    unfold turns_done; cbn [fst snd]; repeat split.
    + rewrite length_app; simpl; lia.
    + rewrite length_update by exact Hi; exact Harr.
    + intros j Hj.
      destruct (Nat.eq_dec j i) as [->|Hne].
      * exists y, x, y'; repeat split.
        -- rewrite <- (Hrest i) by lia; exact Hy.
        -- rewrite nth_error_app2 by lia.
           rewrite Hacc, Nat.sub_diag; reflexivity.
        -- rewrite nth_error_update, Nat.eqb_refl by exact Hi; reflexivity.
        -- exact HR.
      * destruct (Hdone j) as (z & u & z' & Hz & Hu & Hz' & HRz); [lia|].
        exists z, u, z'; repeat split; try assumption.
        -- rewrite nth_error_app1 by (apply nth_error_Some; congruence).
           exact Hu.
        -- rewrite nth_error_update by exact Hi.
           destruct (Nat.eqb_spec j i); [contradiction | exact Hz'].
    + intros j Hj.
      rewrite nth_error_update by exact Hi.
      destruct (Nat.eqb_spec j i); [lia | apply Hrest; lia].
  - unfold turns_done; simpl; repeat split; intros; lia || reflexivity.
Qed.
End AppendUpdateLoop.

Section Slices.
Context {A : Type}.

Lemma clamp_le (len : nat) (i : Z) : clamp len i <= len.
Proof. unfold clamp; destruct (Z.ltb_spec i 0); lia. Qed.

Lemma clamp_of_nat (len k : nat) : clamp len (Z.of_nat k) = Nat.min k len.
Proof.
  unfold clamp; destruct (Z.ltb_spec (Z.of_nat k) 0); [lia|].
  rewrite Nat2Z.id; reflexivity.
Qed.

Lemma clamp_nonneg (len : nat) (i : Z) :
  (0 <= i)%Z -> clamp len i = Nat.min (Z.to_nat i) len.
Proof. intros Hi; unfold clamp; destruct (Z.ltb_spec i 0); [lia | reflexivity]. Qed.

Lemma slice_bounds_le (len : nat) (start stop : option Z) :
  fst (slice_bounds len start stop) <= snd (slice_bounds len start stop) /\
  snd (slice_bounds len start stop) <= len.
Proof.
  unfold slice_bounds; simpl; split; [lia|].
  destruct start as [i|], stop as [j|];
    try pose proof (clamp_le len i); try pose proof (clamp_le len j); lia.
Qed.

Lemma length_splice (x rows : list A) (a b : nat) :
  a <= b -> b <= length x -> length rows = b - a ->
  length (firstn a x ++ rows ++ skipn b x) = length x.
Proof.
  intros Hab Hb Hrows.
  rewrite !length_app, length_firstn, length_skipn; lia.
Qed.

Lemma nth_error_splice (x rows : list A) (a b t : nat) :
  a <= b -> b <= length x -> length rows = b - a ->
  nth_error (firstn a x ++ rows ++ skipn b x) t
  = if Nat.ltb t a then nth_error x t
    else if Nat.ltb t b then nth_error rows (t - a)
         else nth_error x t.
Proof.
  intros Hab Hb Hrows.
  assert (Hf : length (firstn a x) = a) by (rewrite length_firstn; lia).
  destruct (Nat.ltb_spec t a) as [Hta|Hta].
  - rewrite nth_error_app1 by lia.
    rewrite nth_error_firstn.
    destruct (Nat.ltb_spec t a); [reflexivity | lia].
  - rewrite nth_error_app2 by lia; rewrite Hf.
    destruct (Nat.ltb_spec t b) as [Htb|Htb].
    + rewrite nth_error_app1 by lia; reflexivity.
    + rewrite nth_error_app2 by lia.
      rewrite nth_error_skipn; f_equal; lia.
Qed.

Lemma length_setitem_scalar (x : list A) (start stop : option Z) (v : A) :
  length (setitem_scalar x start stop v) = length x.
Proof.
  unfold setitem_scalar.
  pose proof (slice_bounds_le (length x) start stop) as [Hab Hb].
  destruct (slice_bounds (length x) start stop) as [a b]; simpl in *.
  apply length_splice; [assumption | assumption |].
  apply repeat_length.
Qed.

Lemma nth_error_setitem_scalar (x : list A) (start stop : option Z) (v : A)
    (t : nat) :
  t < length x ->
  nth_error (setitem_scalar x start stop v) t
  = if Nat.leb (fst (slice_bounds (length x) start stop)) t
       && Nat.ltb t (snd (slice_bounds (length x) start stop))
    then Some v else nth_error x t.
Proof.
  intros Ht; unfold setitem_scalar.
  pose proof (slice_bounds_le (length x) start stop) as [Hab Hb].
  destruct (slice_bounds (length x) start stop) as [a b]; simpl in *.
  rewrite nth_error_splice by (auto; apply repeat_length).
  destruct (Nat.ltb_spec t a), (Nat.leb_spec a t); try lia; simpl;
    try reflexivity.
  destruct (Nat.ltb_spec t b); [|reflexivity].
  apply nth_error_repeat; lia.
Qed.
End Slices.

Section RowAssignment.

Lemma Forall_firstn {A : Type} (P : A -> Prop) (n : nat) (l : list A) :
  Forall P l -> Forall P (firstn n l).
Proof.
  intros Hl; revert n; induction Hl as [|a l Ha Hl IH]; intros [|n]; simpl;
    constructor; auto.
Qed.

Lemma Forall_skipn {A : Type} (P : A -> Prop) (n : nat) (l : list A) :
  Forall P l -> Forall P (skipn n l).
Proof.
  intros Hl; revert n; induction Hl as [|a l Ha Hl IH]; intros [|n]; simpl;
    auto.
Qed.

Lemma broadcast_to_one_row {A : Type} (m : nat) (c : A) :
  broadcast_to m [c] = Ret (repeat c m).
Proof.
  unfold broadcast_to; simpl.
  destruct m as [|[|m]]; reflexivity.
Qed.

Lemma broadcast_to_same {A : Type} (c : list A) :
  broadcast_to (length c) c = Ret c.
Proof. unfold broadcast_to; rewrite Nat.eqb_refl; reflexivity. Qed.

Lemma broadcast_to_length {A : Type} (m : nat) (xs ys : list A) :
  broadcast_to m xs = Ret ys -> length ys = m.
Proof.
  unfold broadcast_to.
  destruct (Nat.eqb_spec (length xs) m) as [Hm|Hm].
  - intros Heq; apply Ret_inj in Heq; congruence.
  - destruct xs as [|x [|]]; try discriminate.
    intros Heq; apply Ret_inj in Heq; subst; apply repeat_length.
Qed.

Lemma zipM_widen (olds : list (list Q)) (c : list Q) :
  Forall (fun old => length old = length c) olds ->
  zipM (fun old new => broadcast_to (length old) new)
       olds (repeat c (length olds))
  = Ret (repeat c (length olds)).
Proof.
  induction 1 as [|old olds Hold Holds IH]; simpl; [reflexivity|].
  rewrite Hold, broadcast_to_same; simpl.
  rewrite IH; reflexivity.
Qed.

(** Writing one row of the right width over a slice. *)
Lemma setitem_rows_one_row (x : tensor2 Q) (start stop : option Z)
    (c : list Q) :
  Forall (fun old => length old = length c) x ->
  setitem_rows x start stop [c] = Ret (setitem_scalar x start stop c).
Proof.
  intros Hx; unfold setitem_rows, setitem_scalar.
  pose proof (slice_bounds_le (length x) start stop) as [Hab Hb].
  destruct (slice_bounds (length x) start stop) as [a b]; simpl in *.
  rewrite broadcast_to_one_row; simpl.
  assert (Hlen : length (firstn (b - a) (skipn a x)) = b - a)
    by (rewrite length_firstn, length_skipn; lia).
  rewrite <- Hlen at 2.
  rewrite zipM_widen; simpl.
  - rewrite Hlen; reflexivity.
  - apply Forall_firstn, Forall_skipn; exact Hx.
Qed.


End RowAssignment.

(** ** Rows written by [setitem_rows] *)




(** ** The loop of [TaskDelayedReach.generate] *)

Lemma squeeze_Arr2 (x m : tensor2 Q) : squeeze x = Arr2 m -> m = x.
Proof.
  unfold squeeze.
  destruct x as [|v [|w x]].
  - intros Heq; injection Heq; auto.
  - destruct v as [|a [|b v]]; discriminate.
  - destruct v as [|a [|b v]];
      (destruct (forallb _ _); [discriminate|]);
      intros Heq; injection Heq; auto.
Qed.

Lemma concatenate_axis1_pair (a : ndarray) (b row : tensor2 Q) :
  concatenate_axis1 [a; Arr2 b] = Ret row ->
  exists m, a = Arr2 m /\ length m = length b /\
            row = map (fun uv => fst uv ++ snd uv) (combine m b).
Proof.
  simpl; destruct a as [x|v|m]; try discriminate.
  destruct (Nat.eqb_spec (length m) (length b)); [|discriminate].
  intros Heq; apply Ret_inj in Heq; eauto.
Qed.

Lemma np_full_Ret (x : Q) (n : Z) (l : list Q) :
  np_full x n = Ret l -> (0 <= n)%Z /\ l = repeat x (Z.to_nat n).
Proof.
  unfold np_full; destruct (Z.ltb_spec n 0); [discriminate|].
  intros Heq; apply Ret_inj in Heq; auto.
Qed.

Lemma Qmult_1_l_eq (h : Q) : (1 * h)%Q = h.
Proof. destruct h as [[|p|p] d]; reflexivity. Qed.

(** A pulse of [b] steps of height [h] after [a] steps of rest. *)
Lemma nth_error_pulse (h : Q) (a b c t : nat) :
  t < a + b + c ->
  nth_error (repeat 0%Q a ++ repeat h b ++ repeat 0%Q c) t
  = Some (if Nat.leb a t && Nat.ltb t (a + b) then h else 0%Q).
Proof.
  intros Ht.
  destruct (Nat.leb_spec a t) as [Hat|Hat]; simpl.
  - rewrite nth_error_app2 by (rewrite repeat_length; lia).
    rewrite repeat_length.
    destruct (Nat.ltb_spec t (a + b)) as [Htb|Htb].
    + rewrite nth_error_app1 by (rewrite repeat_length; lia).
      apply nth_error_repeat; lia.
    + rewrite nth_error_app2 by (rewrite repeat_length; lia).
      rewrite repeat_length; apply nth_error_repeat; lia.
  - rewrite nth_error_app1 by (rewrite repeat_length; lia).
    apply nth_error_repeat; lia.
Qed.

Section ReachLoop.
Variable cfg : TaskDelayedReach.
Variable n_timesteps : nat.
Variable center : tensor2 Q.
Variable draws : list Q.

(** What one turn of the loop makes of the trial [trial0]: its input [row]
    and its supervised target [tgt]. *)
Definition reach_turn (i : nat) (trial0 row tgt : tensor2 Q) : Prop :=
  exists delay bump,
    generate_delay_time (fst (dr_delay_range cfg)) (snd (dr_delay_range cfg))
      "random" (nth i draws 0%Q) = Ret delay /\
    reach_bump cfg n_timesteps delay = Ret bump /\
    concatenate_axis1 [squeeze (map (fun v => firstn 2 v) trial0);
                       Arr2 (expand_dims1 bump)] = Ret row /\
    setitem_rows trial0 (Some 0%Z) (Some delay) center = Ret tgt.

Lemma reach_trial_Ret (i : nat) (acc : list (tensor2 Q)) (arr : tensor3 Q)
    (acc' : list (tensor2 Q)) (arr' : tensor3 Q) :
  reach_trial cfg n_timesteps center draws i (acc, arr) = Ret (acc', arr') ->
  exists y x y',
    nth_error arr i = Some y /\ reach_turn i y x y' /\
    acc' = acc ++ [x] /\ arr' = firstn i arr ++ y' :: skipn (S i) arr.
Proof.
  unfold reach_trial; intros Hb.
  bind_inv Hb; bind_inv Hb; bind_inv Hb; bind_inv Hb; bind_inv Hb.
  apply Ret_inj in Hb; injection Hb as <- <-.
  apply getitem_list_Ret in E1.
  destruct (update_trial_Ret _ _ _ _ E3) as (m & m' & Hm & Hset & ->).
  assert (m = a1) by congruence; subst m.
  exists a1, a2, m'; repeat split; try assumption.
  exists a, a0; repeat split; assumption.
Qed.

Lemma reach_bump_Ret (delay : Z) (bump : list Q) :
  reach_bump cfg n_timesteps delay = Ret bump ->
  (0 <= delay)%Z /\ (0 <= dr_bump_length cfg)%Z /\
  (delay + dr_bump_length cfg <= Z.of_nat n_timesteps)%Z /\
  bump = repeat 0%Q (Z.to_nat delay)
         ++ repeat (dr_bump_height cfg) (Z.to_nat (dr_bump_length cfg))
         ++ repeat 0%Q (Z.to_nat (Z.of_nat n_timesteps - delay
                                  - dr_bump_length cfg)).
Proof.
  unfold reach_bump, np_zeros, np_ones; intros Hb.
  bind_inv Hb; bind_inv Hb; bind_inv Hb; apply Ret_inj in Hb; subst bump.
  apply np_full_Ret in E; destruct E as [H0 ->].
  apply np_full_Ret in E0; destruct E0 as [H1 ->].
  apply np_full_Ret in E1; destruct E1 as [H2 ->].
  repeat split; try lia.
  rewrite map_repeat, Qmult_1_l_eq; reflexivity.
Qed.

Lemma reach_bump_length (delay : Z) (bump : list Q) :
  reach_bump cfg n_timesteps delay = Ret bump -> length bump = n_timesteps.
Proof.
  intros Hb; destruct (reach_bump_Ret _ _ Hb) as (H0 & H1 & H2 & ->).
  rewrite !length_app, !repeat_length; lia.
Qed.

(** The input of a trial: goal position, then the cue. *)
Lemma reach_turn_input (i : nat) (trial0 row tgt : tensor2 Q) :
  reach_turn i trial0 row tgt ->
  exists delay bump,
    generate_delay_time (fst (dr_delay_range cfg)) (snd (dr_delay_range cfg))
      "random" (nth i draws 0%Q) = Ret delay /\
    reach_bump cfg n_timesteps delay = Ret bump /\
    length trial0 = n_timesteps /\ length row = n_timesteps /\
    forall t g, nth_error trial0 t = Some g ->
      exists c, nth_error bump t = Some c /\
                nth_error row t = Some (firstn 2 g ++ [c]).
Proof.
  intros (delay & bump & Hd & Hb & Hc & Hs).
  exists delay, bump; split; [exact Hd | split; [exact Hb|]].
  destruct (concatenate_axis1_pair _ _ _ Hc) as (m & Hm & Hlen & ->).
  apply squeeze_Arr2 in Hm; subst m.
  unfold expand_dims1 in *; rewrite !length_map in Hlen.
  pose proof (reach_bump_length _ _ Hb) as Hbl.
  split; [lia|].
  split; [rewrite length_map, length_combine, !length_map; lia|].
  intros t g Hg.
  assert (Ht : t < length bump)
    by (rewrite <- Hlen; apply nth_error_Some; congruence).
  destruct (nth_error bump t) as [c|] eqn:Ec;
    [|apply nth_error_None in Ec; lia].
  exists c; split; [reflexivity|].
  rewrite nth_error_map, nth_error_combine, !nth_error_map, Hg, Ec.
  reflexivity.
Qed.
End ReachLoop.

(** The cue channel at timestep [t]: a pulse of [bump_length] steps of height
    [bump_height] that starts at [delay]. *)
Definition cue_value (bump_height : Q) (delay bump_length : Z) (t : nat) : Q :=
  if ((delay <=? Z.of_nat t) && (Z.of_nat t <? delay + bump_length))%Z
  then bump_height else 0%Q.

(** The layout of one trial of [TaskDelayedReach]: [c] is the center state,
    [g] the goal state of the trial, [delay] its delay. *)
Definition reach_layout (cfg : TaskDelayedReach) (n_timesteps : nat)
    (c g : list Q) (delay : Z) (input target : tensor2 Q) : Prop :=
  (0 <= delay)%Z /\
  (delay + dr_bump_length cfg <= Z.of_nat n_timesteps)%Z /\
  length input = n_timesteps /\ length target = n_timesteps /\
  forall t, t < n_timesteps ->
    (exists row,
       nth_error input t = Some row /\
       firstn 2 row = firstn 2 g /\
       nth_error row 2
       = Some (cue_value (dr_bump_height cfg) delay (dr_bump_length cfg) t)) /\
    nth_error target t = Some (if (Z.of_nat t <? delay)%Z then c else g).

(** Trial [k] of the batch [(inputs, targets)] is laid out around the center
    state [c]; [goals] are the cartesian goal states of the batch. *)
Definition reach_trial_laid_out (cfg : TaskDelayedReach) (n_timesteps : nat)
    (c : list Q) (goals : tensor2 Q) (draws : list Q)
    (inputs targets : tensor3 Q) (k : nat) : Prop :=
  exists delay g input target,
    generate_delay_time (fst (dr_delay_range cfg))
      (snd (dr_delay_range cfg)) "random" (nth k draws 0%Q) = Ret delay /\
    nth_error goals k = Some g /\
    nth_error inputs k = Some input /\
    nth_error targets k = Some target /\
    reach_layout cfg n_timesteps c g delay input target.

Lemma tf_stack_Ret (xs : list (tensor2 Q)) (ys : tf_tensor) :
  tf_stack xs = Ret ys ->
  batch_of ys = xs /\ (xs = [] -> ys = Rank1 []) /\
  (xs <> [] -> ys = Rank3 xs).
Proof.
  unfold tf_stack; destruct xs as [|x xs].
  - intros Heq; apply Ret_inj in Heq; subst ys.
    split; [reflexivity | split; [reflexivity | congruence]].
  - destruct (forallb _ _); [|discriminate].
    intros Heq; apply Ret_inj in Heq; subst ys.
    split; [reflexivity | split; [discriminate | reflexivity]].
Qed.

Lemma nth_error_state2target (state : tensor2 Q) (n k : nat) (g : list Q) :
  nth_error state k = Some g ->
  nth_error (state2target state n) k = Some (repeat g n).
Proof.
  intros Hg; unfold state2target; rewrite nth_error_map, Hg; reflexivity.
Qed.

Lemma state2target_inv (state : tensor2 Q) (n k : nat) (m : tensor2 Q) :
  nth_error (state2target state n) k = Some m ->
  exists g, nth_error state k = Some g /\ m = repeat g n.
Proof.
  unfold state2target; rewrite nth_error_map.
  destruct (nth_error state k) as [g|]; [|discriminate].
  intros Heq; injection Heq as <-; eauto.
Qed.

Lemma reach_turn_layout (cfg : TaskDelayedReach) (n : nat) (c g : list Q)
    (draws : list Q) (i : nat) (row tgt : tensor2 Q) :
  reach_turn cfg n [c] draws i (repeat g n) row tgt ->
  2 <= length c -> length g = length c ->
  exists delay,
    generate_delay_time (fst (dr_delay_range cfg)) (snd (dr_delay_range cfg))
      "random" (nth i draws 0%Q) = Ret delay /\
    reach_layout cfg n c g delay row tgt.
Proof.
  intros Hturn Hc Hg.
  destruct (reach_turn_input _ _ _ _ _ _ _ _ Hturn)
    as (delay & bump & Hd & Hb & Hlen0 & Hlen & Hrows).
  destruct Hturn as (delay' & bump' & Hd' & Hb' & _ & Hs).
  assert (delay' = delay) by congruence; subst delay'.
  clear Hd' Hb' bump'.
  destruct (reach_bump_Ret _ _ _ _ Hb) as (H0 & H1 & H2 & Hbump).
  rewrite setitem_rows_one_row in Hs
    by (apply Forall_forall; intros old Hold;
        apply repeat_spec in Hold; congruence).
  apply Ret_inj in Hs; subst tgt.
  exists delay; split; [exact Hd|].
  unfold reach_layout.
  split; [exact H0 | split; [exact H2 | split; [exact Hlen|]]].
  split; [rewrite length_setitem_scalar; apply repeat_length|].
  intros t Ht; split.
  - destruct (Hrows t g) as (q & Hq & Hrow);
      [apply nth_error_repeat; exact Ht|].
    exists (firstn 2 g ++ [q]); split; [exact Hrow|].
    assert (Hf : length (firstn 2 g) = 2) by (rewrite length_firstn; lia).
    split.
    + rewrite firstn_app, Hf, Nat.sub_diag, firstn_0, app_nil_r.
      apply firstn_firstn.
    + rewrite nth_error_app2 by lia.
      rewrite Hf, Nat.sub_diag; cbn [nth_error]; f_equal.
      rewrite Hbump, nth_error_pulse in Hq by lia.
      injection Hq as <-; unfold cue_value.
      destruct (Nat.leb_spec (Z.to_nat delay) t),
               (Z.leb_spec delay (Z.of_nat t)); try lia; simpl;
        [|reflexivity].
      destruct (Nat.ltb_spec t (Z.to_nat delay
                                + Z.to_nat (dr_bump_length cfg))),
               (Z.ltb_spec (Z.of_nat t) (delay + dr_bump_length cfg));
        try lia; reflexivity.
  - rewrite nth_error_setitem_scalar by (rewrite repeat_length; exact Ht).
    rewrite repeat_length; unfold slice_bounds; simpl.
    rewrite nth_error_repeat by exact Ht.
    rewrite !clamp_nonneg by lia; simpl.
    destruct (Nat.ltb_spec t (Nat.min (Z.to_nat delay) n)),
             (Z.ltb_spec (Z.of_nat t) delay); try lia; reflexivity.
Qed.

(** A loop that rewrites the matching entries of two arrays at each turn. *)
Section UpdateUpdateLoop.
Context {X Y : Type}.
Variable body : nat -> list X * list Y -> res (list X * list Y).
Variable R : nat -> X -> Y -> X -> Y -> Prop.

Hypothesis body_Ret :
  forall i xs ys xs' ys',
    body i (xs, ys) = Ret (xs', ys') ->
    exists x y x' y',
      nth_error xs i = Some x /\ nth_error ys i = Some y /\
      R i x y x' y' /\
      xs' = firstn i xs ++ x' :: skipn (Datatypes.S i) xs /\
      ys' = firstn i ys ++ y' :: skipn (Datatypes.S i) ys.

Definition both_done (xs0 : list X) (ys0 : list Y) (k : nat)
    (s : list X * list Y) : Prop :=
  length (fst s) = length xs0 /\ length (snd s) = length ys0 /\
  (forall i, i < k ->
     exists x y x' y',
       nth_error xs0 i = Some x /\ nth_error ys0 i = Some y /\
       nth_error (fst s) i = Some x' /\ nth_error (snd s) i = Some y' /\
       R i x y x' y') /\
  (forall i, k <= i -> nth_error (fst s) i = nth_error xs0 i /\
                       nth_error (snd s) i = nth_error ys0 i).

Lemma update_update_loop (xs0 : list X) (ys0 : list Y) (count : nat)
    (s : list X * list Y) :
  for_range body 0 count (xs0, ys0) = Ret s -> both_done xs0 ys0 count s.
Proof.
  intros Hr.
  apply (for_range_inv body (both_done xs0 ys0) 0 count (xs0, ys0) s);
    [| |exact Hr].
  - intros i [xs ys] [xs' ys'] _ (Hxs & Hys & Hdone & Hrest) Hb.
    cbn [fst snd] in *.
    destruct (body_Ret _ _ _ _ _ Hb)
      as (x & y & x' & y' & Hx & Hy & HR & -> & ->).
    assert (Hix : i < length xs) by (apply nth_error_Some; congruence).
    assert (Hiy : i < length ys) by (apply nth_error_Some; congruence).
    unfold both_done; cbn [fst snd]; repeat split.
    + rewrite length_update by exact Hix; exact Hxs.
    + rewrite length_update by exact Hiy; exact Hys.
    + intros j Hj.
      destruct (Nat.eq_dec j i) as [->|Hne].
      * destruct (Hrest i) as [Hx0 Hy0]; [lia|].
        exists x, y, x', y'; repeat split; try congruence.
        -- rewrite nth_error_update, Nat.eqb_refl by exact Hix; reflexivity.
        -- rewrite nth_error_update, Nat.eqb_refl by exact Hiy; reflexivity.
      * destruct (Hdone j) as (u & v & u' & v' & Hu & Hv & Hu' & Hv' & HRj);
          [lia|].
        exists u, v, u', v'; repeat split; try assumption.
        -- rewrite nth_error_update by exact Hix.
           destruct (Nat.eqb_spec j i); [contradiction | exact Hu'].
        -- rewrite nth_error_update by exact Hiy.
           destruct (Nat.eqb_spec j i); [contradiction | exact Hv'].
    + rewrite nth_error_update by exact Hix.
      destruct (Nat.eqb_spec i0 i); [lia | apply Hrest; lia].
    + rewrite nth_error_update by exact Hiy.
      destruct (Nat.eqb_spec i0 i); [lia | apply Hrest; lia].
  - unfold both_done; simpl; repeat split; intros; lia || reflexivity.
Qed.
End UpdateUpdateLoop.

(** ** The loop of [TaskLoadProbability.generate] *)

Section LoadLoop.
Variable cfg : TaskLoadProbability.
Variable n_timesteps : nat.
Variable center : tensor2 Q.
Variable draws : list load_draws.

Definition load_draw (i : nat) : load_draws :=
  nth i draws (mkLoadDraws 0 0 0 0).

(** The load channels of a trial: the background [(0, -1)], and from
    [pert_time] on [(0, pert)] when the trial is not a catch trial. *)
Definition load_perturbation (catch : bool) (pert_time : Z) (pert : Q)
  : res (tensor2 Q) :=
  if catch then Ret (repeat [0%Q; (-1)%Q] n_timesteps)
  else setitem_col_scalar (repeat [0%Q; (-1)%Q] n_timesteps)
         (Some pert_time) None 1 pert.

(** What one turn of the loop makes of the input [x] and the target [y] of
    trial [i]. *)
Definition load_turn (i : nat) (x y x' y' : tensor2 Q) : Prop :=
  exists delay prob perturbation,
    generate_delay_time (fst (lp_delay_range cfg)) (snd (lp_delay_range cfg))
      "random" (ld_delay (load_draw i)) = Ret delay /\
    nth_error prob_array (ld_prob_index (load_draw i)) = Some prob /\
    load_perturbation (is_catch (load_draw i))
      (delay + lp_fixation_time cfg)
      (load_pert prob (ld_sign (load_draw i))) = Ret perturbation /\
    setitem_rows y
      (if is_catch (load_draw i) then None else Some 0%Z)
      (if is_catch (load_draw i) then None
       else Some (delay + lp_fixation_time cfg)%Z)
      center = Ret y' /\
    load_input
      (setitem_scalar (repeat 0%Q n_timesteps)
         (Some (lp_fixation_time cfg + 1)%Z) None prob)
      (setitem_scalar (repeat 0%Q n_timesteps)
         (Some (lp_fixation_time cfg + 1)%Z) None (1 - prob)%Q)
      perturbation x = Ret x'.

Lemma load_trial_Ret (i : nat) (xs : tensor3 Q) (ys : tensor3 Q)
    (xs' : tensor3 Q) (ys' : tensor3 Q) :
  load_trial cfg n_timesteps center draws i (xs, ys) = Ret (xs', ys') ->
  exists x y x' y',
    nth_error xs i = Some x /\ nth_error ys i = Some y /\
    load_turn i x y x' y' /\
    xs' = firstn i xs ++ x' :: skipn (S i) xs /\
    ys' = firstn i ys ++ y' :: skipn (S i) ys.
Proof.
  unfold load_trial; fold (load_draw i); intros Hb.
  apply bind_Ret in Hb; destruct Hb as (input_1 & E1 & Hb).
  apply bind_Ret in Hb; destruct Hb as (input_2 & E2 & Hb).
  apply bind_Ret in Hb; destruct Hb as (delay & Ed & Hb).
  apply bind_Ret in Hb; destruct Hb as (prob & Ep & Hb).
  apply bind_Ret in Hb; destruct Hb as (r & Er & Hb).
  apply np_full_Ret in E1; destruct E1 as [_ ->].
  apply np_full_Ret in E2; destruct E2 as [_ ->].
  rewrite Nat2Z.id in *.
  apply getitem_list_Ret in Ep.
  destruct r as [[[targets in1] in2] perturbation].
  apply bind_Ret in Hb; destruct Hb as (inputs' & Ei & Hb).
  apply Ret_inj in Hb; injection Hb as <- <-.
  destruct (update_trial_Ret _ _ _ _ Ei) as (x & x' & Hx & Hin & ->).
  unfold load_turn, is_catch, load_perturbation.
  destruct (greater_equal (ld_catch (load_draw i)) (2 # 10)); simpl.
  - apply bind_Ret in Er; destruct Er as (tg & Et & Er).
    apply bind_Ret in Er; destruct Er as (pt & Ept & Er).
    apply Ret_inj in Er; injection Er as <- <- <- <-.
    destruct (update_trial_Ret _ _ _ _ Et) as (y & y' & Hy & Hset & ->).
    exists x, y, x', y'; repeat split; try assumption.
    exists delay, prob, pt; repeat split; assumption.
  - apply bind_Ret in Er; destruct Er as (tg & Et & Er).
    apply Ret_inj in Er; injection Er as <- <- <- <-.
    destruct (update_trial_Ret _ _ _ _ Et) as (y & y' & Hy & Hset & ->).
    exists x, y, x', y'; repeat split; try assumption.
    exists delay, prob, (repeat [0%Q; (-1)%Q] n_timesteps);
      repeat split; assumption.
Qed.
End LoadLoop.

Section ColumnAssignment.

Lemma mapM_all_same {A B : Type} (f : A -> res B) (x : A) (y : B)
    (l : list A) :
  f x = Ret y -> Forall (eq x) l -> mapM f l = Ret (repeat y (length l)).
Proof.
  intros Hf; induction 1 as [|a l <- Hl IH]; simpl; [reflexivity|].
  rewrite Hf; simpl; rewrite IH; reflexivity.
Qed.

Lemma Forall_eq_repeat_all {A : Type} (x : A) (n : nat) :
  Forall (eq x) (repeat x n).
Proof. apply Forall_forall; intros y Hy; symmetry; exact (repeat_spec _ _ _ Hy). Qed.

(** Writing a scalar in column 1 of rows that all read [(u, v)]. *)
Lemma setitem_col_scalar_pairs (u v w : Q) (n : nat) (start : option Z) :
  setitem_col_scalar (repeat [u; v] n) start None 1 w
  = Ret (setitem_scalar (repeat [u; v] n) start None [u; w]).
Proof.
  unfold setitem_col_scalar, setitem_scalar.
  pose proof (slice_bounds_le (length (repeat [u; v] n)) start None)
    as [Hab Hb].
  destruct (slice_bounds (length (repeat [u; v] n)) start None) as [a b];
    simpl in Hab, Hb.
  rewrite (mapM_all_same _ [u; v] [u; w]).
  - simpl; rewrite length_firstn, length_skipn.
    replace (Nat.min (b - a) (length (repeat [u; v] n) - a)) with (b - a)
      by lia.
    reflexivity.
  - reflexivity.
  - apply Forall_firstn, Forall_skipn, Forall_eq_repeat_all.
Qed.

Lemma setitem_cols_Ret (x x' : tensor2 Q) (c0 c1 : nat) (rhs : tensor2 Q) :
  setitem_cols x c0 c1 rhs = Ret x' ->
  length x' = length x /\
  forall t old, nth_error x t = Some old ->
    exists new new',
      (length rhs = length x -> nth_error rhs t = Some new) /\
      broadcast_to
        (snd (slice_bounds (length old) (Some (Z.of_nat c0))
                (Some (Z.of_nat c1)))
         - fst (slice_bounds (length old) (Some (Z.of_nat c0))
                  (Some (Z.of_nat c1)))) new = Ret new' /\
      nth_error x' t
      = Some (firstn (fst (slice_bounds (length old) (Some (Z.of_nat c0))
                             (Some (Z.of_nat c1)))) old
              ++ new'
              ++ skipn (snd (slice_bounds (length old) (Some (Z.of_nat c0))
                               (Some (Z.of_nat c1)))) old).
Proof.
  unfold setitem_cols; intros Hs.
  apply bind_Ret in Hs; destruct Hs as (rows & Erows & Hz).
  destruct (zipM_length _ _ _ _ Hz) as [Hlx Hlr].
  split; [exact Hlx|].
  intros t old Hold.
  assert (Ht : t < length rows)
    by (rewrite <- Hlr, Hlx; apply nth_error_Some; congruence).
  destruct (nth_error rows t) as [new|] eqn:Enew;
    [|apply nth_error_None in Enew; lia].
  destruct (zipM_nth_error _ _ _ _ _ _ _ Hz Hold Enew) as (z & Hf & Hz').
  destruct (slice_bounds (length old) (Some (Z.of_nat c0))
              (Some (Z.of_nat c1))) as [a b] eqn:Esb.
  apply bind_Ret in Hf; destruct Hf as (new' & Ebc & Hf).
  apply Ret_inj in Hf; subst z.
  exists new, new'; simpl; repeat split; try assumption.
  intros Hlen; unfold broadcast_to in Erows.
  rewrite Hlen, Nat.eqb_refl in Erows.
  apply Ret_inj in Erows; congruence.
Qed.

Lemma setitem_cols_widths (w : nat) (x x' : tensor2 Q) (c0 c1 : nat)
    (rhs : tensor2 Q) :
  setitem_cols x c0 c1 rhs = Ret x' ->
  Forall (fun r => length r = w) x -> Forall (fun r => length r = w) x'.
Proof.
  intros Hs Hx.
  destruct (setitem_cols_Ret _ _ _ _ _ Hs) as [Hlen Hrows].
  apply Forall_forall; intros r Hr.
  destruct (In_nth_error _ _ Hr) as [t Ht].
  assert (Htx : t < length x)
    by (rewrite <- Hlen; apply nth_error_Some; congruence).
  destruct (nth_error x t) as [old|] eqn:Eold;
    [|apply nth_error_None in Eold; lia].
  destruct (Hrows t old Eold) as (new & new' & _ & Hbc & Hx').
  rewrite Ht in Hx'; injection Hx' as ->.
  pose proof (slice_bounds_le (length old) (Some (Z.of_nat c0))
                (Some (Z.of_nat c1))) as [Hab Hb].
  rewrite length_splice; auto.
  - rewrite Forall_forall in Hx; apply Hx.
    exact (nth_error_In _ _ Eold).
  - exact (broadcast_to_length _ _ _ Hbc).
Qed.
End ColumnAssignment.

Section LoadInput.
Variable n_timesteps : nat.

Lemma load_perturbation_rows (catch : bool) (pert_time : Z) (pert : Q)
    (p : tensor2 Q) :
  load_perturbation n_timesteps catch pert_time pert = Ret p ->
  length p = n_timesteps /\
  forall t, t < n_timesteps ->
    nth_error p t
    = Some [0%Q; if negb catch && Nat.leb (clamp n_timesteps pert_time) t
                 then pert else (-1)%Q].
Proof.
  unfold load_perturbation; destruct catch; simpl.
  - intros Hp; apply Ret_inj in Hp; subst p.
    split; [apply repeat_length|].
    intros t Ht; apply nth_error_repeat; exact Ht.
  - rewrite setitem_col_scalar_pairs.
    intros Hp; apply Ret_inj in Hp; subst p.
    split; [rewrite length_setitem_scalar; apply repeat_length|].
    intros t Ht.
    rewrite nth_error_setitem_scalar by (rewrite repeat_length; exact Ht).
    rewrite repeat_length; unfold slice_bounds; simpl.
    rewrite nth_error_repeat by exact Ht.
    pose proof (clamp_le n_timesteps pert_time).
    destruct (Nat.leb_spec (clamp n_timesteps pert_time) t); simpl;
      [|reflexivity].
    destruct (Nat.ltb_spec t (Nat.max (clamp n_timesteps pert_time)
                                      n_timesteps)); [reflexivity | lia].
Qed.

(** The load channels of the input are those of [perturbation]. *)
Lemma load_input_rows (input_1 input_2 : list Q) (p x x' : tensor2 Q) :
  load_input input_1 input_2 p x = Ret x' ->
  Forall (fun r => length r = 4) x ->
  length p = length x -> Forall (fun r => length r = 2) p ->
  length x' = length x /\
  forall t q, nth_error p t = Some q ->
    exists row, nth_error x' t = Some row /\ skipn 2 row = q /\
                length row = 4.
Proof.
  unfold load_input; intros Hl Hx Hp Hw.
  apply bind_Ret in Hl; destruct Hl as (m1 & E1 & Hl).
  apply bind_Ret in Hl; destruct Hl as (m2 & E2 & Hl).
  pose proof (setitem_cols_widths 4 _ _ _ _ _ E1 Hx) as Hm1.
  pose proof (setitem_cols_widths 4 _ _ _ _ _ E2 Hm1) as Hm2.
  destruct (setitem_cols_Ret _ _ _ _ _ E1) as [L1 _].
  destruct (setitem_cols_Ret _ _ _ _ _ E2) as [L2 _].
  destruct (setitem_cols_Ret _ _ _ _ _ Hl) as [L3 Hrows].
  split; [congruence|].
  intros t q Hq.
  assert (Ht : t < length m2)
    by (rewrite L2, L1, <- Hp; apply nth_error_Some; congruence).
  destruct (nth_error m2 t) as [old|] eqn:Eold;
    [|apply nth_error_None in Eold; lia].
  destruct (Hrows t old Eold) as (new & new' & Hnew & Hbc & Hx').
  rewrite Hnew in Hq by congruence; injection Hq as ->.
  assert (Hold : length old = 4).
  { rewrite Forall_forall in Hm2; apply Hm2; exact (nth_error_In _ _ Eold). }
  assert (Hq2 : length q = 2).
  { rewrite Forall_forall in Hw; apply Hw.
    apply (nth_error_In _ t), Hnew; congruence. }
  rewrite Hold in Hbc, Hx'; simpl in Hbc, Hx'.
  unfold broadcast_to in Hbc; rewrite Hq2 in Hbc; simpl in Hbc.
  apply Ret_inj in Hbc; subst new'.
  open_row old; simpl in Hold; try lia.
  destruct old; simpl in Hold; try lia.
  simpl in Hx'; rewrite app_nil_r in Hx'.
  eexists; split; [exact Hx'|].
  split; [reflexivity | simpl; rewrite Hq2; reflexivity].
Qed.
End LoadInput.

Lemma load_input_length (input_1 input_2 : list Q) (p x x' : tensor2 Q) :
  load_input input_1 input_2 p x = Ret x' -> length x' = length x.
Proof.
  unfold load_input; intros Hl.
  apply bind_Ret in Hl; destruct Hl as (m1 & E1 & Hl).
  apply bind_Ret in Hl; destruct Hl as (m2 & E2 & Hl).
  destruct (setitem_cols_Ret _ _ _ _ _ E1) as [L1 _].
  destruct (setitem_cols_Ret _ _ _ _ _ E2) as [L2 _].
  destruct (setitem_cols_Ret _ _ _ _ _ Hl) as [L3 _].
  congruence.
Qed.


(** ** The loop of [TaskDelayedMultiReach.generate] *)

Lemma bind_never {A B : Type} (m : res A) (k : A -> res B) :
  (forall a, returns (k a) = false) -> returns (bind m k) = false.
Proof. intros Hk; destruct m as [a|e]; simpl; [apply Hk | reflexivity]. Qed.

Lemma mapM_Forall_out {A B : Type} (f : A -> res B) (P : B -> Prop)
    (l : list A) (l' : list B) :
  mapM f l = Ret l' -> (forall x y, f x = Ret y -> P y) -> Forall P l'.
Proof.
  revert l'; induction l as [|a l IH]; simpl; intros l' Hm Hf.
  - apply Ret_inj in Hm; subst; constructor.
  - apply bind_Ret in Hm; destruct Hm as (b & Eb & Hm).
    apply bind_Ret in Hm; destruct Hm as (bs & Ebs & Hm).
    apply Ret_inj in Hm; subst; constructor; eauto.
Qed.

Lemma length_flat_map_repeat {A : Type} (k : nat) (l : list A) :
  length (flat_map (fun row => repeat row k) l) = k * length l.
Proof.
  induction l as [|a l IH]; simpl; [lia|].
  rewrite length_app, repeat_length, IH; lia.
Qed.

Section MultiReachLoop.
Variable cfg : TaskDelayedMultiReach.
Variable n_timesteps : nat.
Variable center : tensor2 Q.
Variable target_list : list (tensor3 Q).
Variable draws : list Q.

(** [snd delay_range + bump_length], the length of the delay-and-cue phase
    before truncation. *)
Definition multi_late : Q :=
  (snd (mr_delay_range cfg) + inject_Z (mr_bump_length cfg))%Q.

(** The input of a trial is never built: its last assignment indexes with a
    float. *)
Lemma multi_input_tensor_raises (i : nat) :
  returns (multi_input_tensor cfg n_timesteps center target_list i) = false.
Proof.
  unfold multi_input_tensor.
  repeat (apply bind_never; intros ?).
  reflexivity.
Qed.


(** No turn of the loop comes to its end. *)
Lemma multi_trial_raises (i : nat) (s : list (tensor2 Q) * tensor3 Q) :
  returns (multi_trial cfg n_timesteps center target_list draws i s) = false.
Proof.
  unfold multi_trial; destruct s as [acc arr].
  apply bind_never; intros delay.
  apply bind_never; intros bump.
  pose proof (multi_input_tensor_raises i) as Hs.
  destruct (multi_input_tensor cfg n_timesteps center target_list i);
    [discriminate | reflexivity].
Qed.
End MultiReachLoop.

(** ** The targets of [TaskDelayedMultiReach.generate] *)


Lemma slice_bounds_within (len a b : nat) :
  a <= b -> b <= len ->
  slice_bounds len (Some (Z.of_nat a)) (Some (Z.of_nat b)) = (a, b).
Proof.
  intros Hab Hb; unfold slice_bounds.
  rewrite !clamp_of_nat; f_equal; lia.
Qed.












Section MultiReachTargets.
Variable cfg : TaskDelayedMultiReach.
Variable n_timesteps : nat.
Variable center : tensor2 Q.
Variable target_list : list (tensor3 Q).

End MultiReachTargets.

(** *** The assignments to the target return *)





Lemma mapM_map_Ret {A B : Type} (f : A -> res B) (h : A -> B) (l : list A) :
  (forall x, In x l -> f x = Ret (h x)) -> mapM f l = Ret (map h l).
Proof.
  induction l as [|a l IH]; intros Hf; simpl; [reflexivity|].
  rewrite (Hf a (or_introl eq_refl)); simpl.
  rewrite IH by (intros x Hx; apply Hf; right; exact Hx); reflexivity.
Qed.

Lemma mapM_same {A : Type} (f : A -> res A) (l : list A) :
  (forall x, In x l -> f x = Ret x) -> mapM f l = Ret l.
Proof.
  intros Hf; rewrite (mapM_map_Ret f (fun x => x) l Hf), map_id; reflexivity.
Qed.

Lemma Forall2_map_both {A B C : Type} (R : B -> C -> Prop) (f : A -> B)
    (h : A -> C) (l : list A) :
  (forall x, In x l -> R (f x) (h x)) -> Forall2 R (map f l) (map h l).
Proof.
  induction l as [|a l IH]; intros HR; simpl; constructor.
  - apply HR; left; reflexivity.
  - apply IH; intros x Hx; apply HR; right; exact Hx.
Qed.

Lemma has_shape2_inv (t d : nat) (m : tensor2 Q) :
  has_shape2 t d m = true ->
  length m = t /\ forall v, In v m -> length v = d.
Proof.
  unfold has_shape2; intros Hm.
  apply andb_prop in Hm; destruct Hm as [Ht Hd].
  apply Nat.eqb_eq in Ht; split; [exact Ht|].
  intros v Hv; rewrite forallb_forall in Hd.
  apply Nat.eqb_eq; exact (Hd v Hv).
Qed.

(** A batch of states of four coordinates fills its slot of the target list
    as it is. *)
Lemma broadcast3_held (b n : nat) (state : tensor2 Q) :
  has_shape2 b 4 state = true ->
  broadcast3 b n 4 (state2target state n) = Ret (state2target state n).
Proof.
  intros Hs; apply has_shape2_inv in Hs; destruct Hs as [Hb Hw].
  unfold broadcast3.
  assert (Hlen : length (state2target state n) = b)
    by (unfold state2target; rewrite length_map; exact Hb).
  rewrite <- Hlen at 1; rewrite broadcast_to_same; simpl.
  apply mapM_same; intros m Hm.
  unfold state2target in Hm; apply in_map_iff in Hm.
  destruct Hm as (s & <- & Hs).
  assert (Hrep : broadcast_to n (repeat s n) = Ret (repeat s n)).
  { unfold broadcast_to; rewrite repeat_length, Nat.eqb_refl; reflexivity. }
  rewrite Hrep; simpl.
  apply mapM_same; intros v Hv; apply repeat_spec in Hv; subst v.
  rewrite <- (Hw s Hs); apply broadcast_to_same.
Qed.

(** ** Truncation to an integer *)

Lemma py_int_Z (z : Z) : py_int (inject_Z z) = z.
Proof. unfold py_int; simpl; apply Z.quot_1_r. Qed.

Lemma py_int_le (x y : Q) : (x <= y)%Q -> (py_int x <= py_int y)%Z.
Proof.
  destruct x as [nx dx], y as [ny dy]; unfold Qle, py_int; simpl; intros Hxy.
  rewrite <- (Z.quot_mul_cancel_r nx (Z.pos dx) (Z.pos dy)) by lia.
  rewrite <- (Z.quot_mul_cancel_r ny (Z.pos dy) (Z.pos dx)) by lia.
  rewrite (Z.mul_comm (Z.pos dy) (Z.pos dx)).
  apply Z.quot_le_mono; [reflexivity | exact Hxy].
Qed.

Lemma py_int_floor (x : Q) : (0 <= x)%Q -> py_int x = Qfloor x.
Proof.
  destruct x as [n d]; unfold Qle, py_int, Qfloor; simpl; intros Hn.
  apply Z.quot_div_nonneg; lia.
Qed.

Lemma py_int_le_self (x : Q) : (0 <= x)%Q -> (inject_Z (py_int x) <= x)%Q.
Proof. intros Hx; rewrite (py_int_floor x Hx); apply Qfloor_le. Qed.

(** An integer below a number is below its truncation. *)
Lemma py_int_above (m : Z) (x : Q) :
  (inject_Z m <= x)%Q -> (m <= py_int x)%Z.
Proof. intros Hm; rewrite <- (py_int_Z m); apply py_int_le; exact Hm. Qed.

Lemma uniform_between (low high r : Q) :
  (low <= high)%Q -> (0 <= r)%Q -> (r < 1)%Q ->
  (low <= uniform low high r)%Q /\ (uniform low high r <= high)%Q.
Proof. unfold uniform; intros Hlh H0 H1; split; nra. Qed.

(** The sampled delay between non-negative bounds. *)
Lemma generate_delay_time_bounds (delay_min delay_max r : Q) :
  (0 <= delay_min)%Q -> (delay_min <= delay_max)%Q ->
  (0 <= r)%Q -> (r < 1)%Q ->
  exists delay,
    generate_delay_time delay_min delay_max "random" r = Ret delay /\
    (py_int delay_min <= delay)%Z /\
    (inject_Z delay <= delay_max)%Q /\
    (0 <= delay)%Z.
Proof.
  intros Hmin Hle H0 H1.
  destruct (uniform_between delay_min delay_max r Hle H0 H1) as [Hlo Hhi].
  exists (py_int (uniform delay_min delay_max r)).
  split; [reflexivity|].
  split; [apply py_int_le; exact Hlo|].
  split.
  - apply Qle_trans with (uniform delay_min delay_max r); [|exact Hhi].
    apply py_int_le_self; lra.
  - apply py_int_above; change (inject_Z 0) with 0%Q.
    apply Qle_trans with delay_min; assumption.
Qed.

(** ** Claims about the generators *)

Section GeneratorClaims.
Variable State : Type.
Variable joint_state : State -> tensor2 Q.
Variable controller_get_initial_state : nat -> option (tensor2 Q) -> State.
Variable joint2cartesian : tensor2 Q -> tensor2 Q.

Local Abbreviation initial_state :=
  (get_initial_state State controller_get_initial_state).
Local Abbreviation center :=
  (center_of State joint_state joint2cartesian).
Local Abbreviation reach_generate :=
  (TaskDelayedReach_generate State joint_state controller_get_initial_state
     joint2cartesian).

Lemma center_of_Ret (init_states : State) (c : tensor2 Q) :
  center init_states = Ret c ->
  exists row0, nth_error (joint_state init_states) 0 = Some row0 /\
               c = joint2cartesian [row0].
Proof.
  unfold center_of; intros Hc; bind_inv Hc.
  apply getitem_list_Ret in E; apply Ret_inj in Hc; eauto.
Qed.

Lemma reach_generate_Ret (self : Task) (cfg : TaskDelayedReach)
    (batch_size n_timesteps : nat) (i : list nat) (goal_states : tensor2 Q)
    (draws : list Q) (inputs : tf_tensor) (targets : tensor3 Q)
    (init_states : State) :
  reach_generate self cfg batch_size n_timesteps i goal_states draws
  = Ret (inputs, targets, init_states) ->
  exists c,
    initial_state self batch_size i = Ret init_states /\
    center init_states = Ret c /\
    turns_done (reach_turn cfg n_timesteps c draws)
      (state2target (joint2cartesian goal_states) n_timesteps)
      batch_size (batch_of inputs, targets).
Proof.
  unfold TaskDelayedReach_generate; intros Hg.
  bind_inv Hg; bind_inv Hg; bind_inv Hg; bind_inv Hg.
  apply Ret_inj in Hg; injection Hg as <- <- <-.
  destruct (tf_stack_Ret _ _ E2) as [-> _].
  exists a0; split; [exact E | split; [exact E0|]].
  destruct a1 as [acc arr]; simpl.
  apply (append_update_loop
           (reach_trial cfg n_timesteps a0 draws)
           (reach_turn cfg n_timesteps a0 draws)); [|exact E1].
  apply reach_trial_Ret.
Qed.

(** C3 (as amended). In a batch returned by [TaskDelayedReach.generate],
    with [c] the cartesian projection of the initial joint state of the
    first trial of the batch: for every trial, the cue channel of the input
    is zero before the trial's [delay_time], [bump_height] for the
    [bump_length] steps from [delay_time] on and zero afterwards; the
    supervised target is [c] on [[0, delay_time)] and the trial's goal state
    from [delay_time] on. *)
Theorem delayed_reach_trial_layout (self : Task) (cfg : TaskDelayedReach)
    (batch_size n_timesteps : nat) (i : list nat) (goal_states : tensor2 Q)
    (draws : list Q) (inputs : tf_tensor) (targets : tensor3 Q)
    (init_states : State) (row0 c : list Q) :
  reach_generate self cfg batch_size n_timesteps i goal_states draws
  = Ret (inputs, targets, init_states) ->
  nth_error (joint_state init_states) 0 = Some row0 ->
  joint2cartesian [row0] = [c] ->
  2 <= length c ->
  Forall (fun g => length g = length c) (joint2cartesian goal_states) ->
  forall k, k < batch_size ->
    reach_trial_laid_out cfg n_timesteps c (joint2cartesian goal_states)
      draws (batch_of inputs) targets k.
Proof.
  intros Hgen Hrow0 Hcenter Hc Hgoals k Hk; unfold reach_trial_laid_out.
  destruct (reach_generate_Ret _ _ _ _ _ _ _ _ _ _ Hgen)
    as (c' & _ & Hc' & _ & _ & Hturns & _).
  destruct (center_of_Ret _ _ Hc') as (row0' & Hrow0' & ->).
  assert (row0' = row0) by congruence; subst row0'.
  rewrite Hcenter in Hturns.
  destruct (Hturns k Hk) as (y & x & y' & Hy & Hx & Hy' & Hturn).
  simpl in Hx, Hy'.
  destruct (state2target_inv _ _ _ _ Hy) as (g & Hg & ->).
  assert (Hlg : length g = length c).
  { rewrite Forall_forall in Hgoals; apply Hgoals.
    exact (nth_error_In _ _ Hg). }
  destruct (reach_turn_layout _ _ _ _ _ _ _ _ Hturn Hc Hlg)
    as (delay & Hd & Hlayout).
  exists delay, g, x, y'.
  split; [exact Hd | split; [exact Hg | split; [exact Hx|]]].
  split; [exact Hy' | exact Hlayout].
Qed.

(** *** [TaskLoadProbability.generate] *)

Local Abbreviation load_generate :=
  (TaskLoadProbability_generate State joint_state controller_get_initial_state
     joint2cartesian).

(** The marker channel (the second load channel) of a trial at timestep
    [t]. *)
Definition load_marker (n_timesteps : nat) (catch : bool) (pert_time : Z)
    (pert : Q) (t : nat) : Q :=
  if negb catch && Nat.leb (clamp n_timesteps pert_time) t
  then pert else (-1)%Q.

(** [pert] of trial [k], and the marker channel of its input from the
    perturbation time on, when the drawn probability is 1 and when it is 0. *)
Definition pert_follows_probability (cfg : TaskLoadProbability)
    (n_timesteps : nat) (draws : list load_draws) (inputs : tensor3 Q)
    (k : nat) : Prop :=
  exists delay,
    generate_delay_time (fst (lp_delay_range cfg)) (snd (lp_delay_range cfg))
      "random" (ld_delay (load_draw draws k)) = Ret delay /\
    (nth_error prob_array (ld_prob_index (load_draw draws k)) = Some 1%Q ->
     load_pert 1 (ld_sign (load_draw draws k)) = (-2)%Q /\
     forall t row, cell_at inputs k t = Some row ->
       clamp n_timesteps (delay + lp_fixation_time cfg) <= t ->
       nth_error row 3 = Some (-2)%Q) /\
    (nth_error prob_array (ld_prob_index (load_draw draws k)) = Some 0%Q ->
     load_pert 0 (ld_sign (load_draw draws k)) = 0%Q /\
     forall t row, cell_at inputs k t = Some row ->
       clamp n_timesteps (delay + lp_fixation_time cfg) <= t ->
       nth_error row 3 = Some 0%Q).

Lemma load_generate_Ret (self : Task) (cfg : TaskLoadProbability)
    (batch_size n_timesteps : nat) (i : list nat) (draws : list load_draws)
    (inputs : tf_tensor) (targets : tensor3 Q) (init_states : State) :
  load_generate self cfg batch_size n_timesteps i draws
  = Ret (inputs, targets, init_states) ->
  exists c goal_state,
    initial_state self batch_size i = Ret init_states /\
    center init_states = Ret c /\
    bzip (bzip (fun a b => Ret (a + b)%Q)) c
      [[- (28279 # 1000000); - (42601 # 1000000); 0; 0]%Q] = Ret goal_state /\
    both_done (load_turn cfg n_timesteps c draws)
      (repeat (repeat [0; 0; 0; 0]%Q n_timesteps) batch_size)
      (np_tile3 goal_state batch_size n_timesteps)
      batch_size (batch_of inputs, targets).
Proof.
  unfold TaskLoadProbability_generate; intros Hg.
  apply bind_Ret in Hg; destruct Hg as (st & Est & Hg).
  apply bind_Ret in Hg; destruct Hg as (c & Ec & Hg).
  apply bind_Ret in Hg; destruct Hg as (goal_state & Eg & Hg).
  apply bind_Ret in Hg; destruct Hg as ([xs ys] & Eloop & Hg).
  apply Ret_inj in Hg; injection Hg as <- <- <-.
  exists c, goal_state.
  split; [exact Est | split; [exact Ec | split; [exact Eg|]]].
  apply (update_update_loop
           (load_trial cfg n_timesteps c draws)
           (load_turn cfg n_timesteps c draws)); [|exact Eloop].
  apply load_trial_Ret.
Qed.

(** The input rows of a returned batch carry the marker of their trial. *)
Lemma load_generate_marker (self : Task) (cfg : TaskLoadProbability)
    (batch_size n_timesteps : nat) (i : list nat) (draws : list load_draws)
    (inputs : tf_tensor) (targets : tensor3 Q) (init_states : State)
    (k : nat) :
  load_generate self cfg batch_size n_timesteps i draws
  = Ret (inputs, targets, init_states) ->
  k < batch_size ->
  exists delay prob,
    generate_delay_time (fst (lp_delay_range cfg)) (snd (lp_delay_range cfg))
      "random" (ld_delay (load_draw draws k)) = Ret delay /\
    nth_error prob_array (ld_prob_index (load_draw draws k)) = Some prob /\
    forall t row, cell_at (batch_of inputs) k t = Some row ->
      t < n_timesteps /\ length row = 4 /\
      nth_error row 3
      = Some (load_marker n_timesteps (is_catch (load_draw draws k))
                (delay + lp_fixation_time cfg)
                (load_pert prob (ld_sign (load_draw draws k))) t).
Proof.
  intros Hgen Hk.
  destruct (load_generate_Ret _ _ _ _ _ _ _ _ _ Hgen)
    as (c & goal_state & _ & _ & _ & _ & _ & Hturns & _).
  destruct (Hturns k Hk) as (x & y & x' & y' & Hx & _ & Hx' & _ & Hturn).
  cbn [fst snd] in Hx'.
  rewrite nth_error_repeat in Hx by exact Hk; injection Hx as <-.
  destruct Hturn as (delay & prob & p & Hd & Hp & Hpert & _ & Hin).
  exists delay, prob; split; [exact Hd | split; [exact Hp|]].
  destruct (load_perturbation_rows _ _ _ _ _ Hpert) as [Lp Hrows].
  destruct (load_input_rows _ _ _ _ _ Hin) as [Lx Hmark].
  - apply Forall_forall; intros r Hr.
    apply repeat_spec in Hr; subst r; reflexivity.
  - rewrite repeat_length; exact Lp.
  - apply Forall_forall; intros r Hr.
    destruct (In_nth_error _ _ Hr) as [t Ht].
    assert (t < n_timesteps)
      by (rewrite <- Lp; apply nth_error_Some; congruence).
    rewrite Hrows in Ht by assumption; injection Ht as <-; reflexivity.
  - intros t row Hrow; rewrite (cell_at_row _ _ _ _ Hx') in Hrow.
    assert (Ht : t < n_timesteps).
    { rewrite repeat_length in Lx; rewrite <- Lx.
      apply nth_error_Some; congruence. }
    destruct (Hmark t _ (Hrows t Ht)) as (row' & Hrow' & Hskip & Hlen).
    assert (row' = row) by congruence; subst row'.
    split; [exact Ht | split; [exact Hlen|]].
    open_row row; simpl in Hlen; try lia.
    simpl in Hskip; injection Hskip as -> -> ->.
    reflexivity.
Qed.

(** C5 (as amended). In a trial of a returned batch that is not a catch
    trial, whatever the outcome of the draw in [[0, 1)]: when the drawn
    probability is 1, [pert] is [-2], and the marker channel reads [-2] from
    the perturbation time on; when it is 0, [pert] is [0] and the channel
    reads [0]. *)
Theorem load_pert_follows_probability (self : Task)
    (cfg : TaskLoadProbability) (batch_size n_timesteps : nat)
    (i : list nat) (draws : list load_draws) (inputs : tf_tensor)
    (targets : tensor3 Q) (init_states : State) (k : nat) :
  load_generate self cfg batch_size n_timesteps i draws
  = Ret (inputs, targets, init_states) ->
  k < batch_size ->
  is_catch (load_draw draws k) = false ->
  (0 <= ld_sign (load_draw draws k))%Q ->
  (ld_sign (load_draw draws k) < 1)%Q ->
  pert_follows_probability cfg n_timesteps draws (batch_of inputs) k.
Proof.
  intros Hgen Hk Hcatch H0 H1; unfold pert_follows_probability.
  destruct (load_generate_marker _ _ _ _ _ _ _ _ _ k Hgen Hk)
    as (delay & prob & Hd & Hp & Hrows).
  assert (P1 : load_pert 1 (ld_sign (load_draw draws k)) = (-2)%Q).
  { unfold load_pert, greater_equal.
    destruct (Qle_bool 1 (ld_sign (load_draw draws k))) eqn:E;
      [|reflexivity].
    apply Qle_bool_iff in E; lra. }
  assert (P0 : load_pert 0 (ld_sign (load_draw draws k)) = 0%Q).
  { unfold load_pert, greater_equal.
    destruct (Qle_bool 0 (ld_sign (load_draw draws k))) eqn:E;
      [reflexivity|].
    apply Qle_bool_iff in H0; congruence. }
  exists delay; split; [exact Hd|].
  assert (Hmark : forall t row, cell_at (batch_of inputs) k t = Some row ->
            clamp n_timesteps (delay + lp_fixation_time cfg) <= t ->
            nth_error row 3
            = Some (load_pert prob (ld_sign (load_draw draws k)))).
  { intros t row Hrow Ht.
    destruct (Hrows t row Hrow) as (_ & _ & Hm).
    rewrite Hm; unfold load_marker; rewrite Hcatch; simpl.
    destruct (Nat.leb_spec (clamp n_timesteps
                              (delay + lp_fixation_time cfg)) t);
      [reflexivity | lia]. }
  split; intros Hprob.
  - assert (prob = 1%Q) by congruence; subst prob.
    split; [exact P1|].
    intros t row Hrow Ht; rewrite (Hmark t row Hrow Ht), P1; reflexivity.
  - assert (prob = 0%Q) by congruence; subst prob.
    split; [exact P0|].
    intros t row Hrow Ht; rewrite (Hmark t row Hrow Ht), P0; reflexivity.
Qed.

(** At its flagged timesteps the hook keeps the position of the target and
    zeroes its velocity. *)
Definition spares_flagged {F : Type} `{Scalar F} {S : Type}
    (inputs : tensor3 F * S) (targets cp : tensor3 F) (outputs : dict F)
  : Prop :=
  exists targets',
    TaskLoadProbability_hook.recompute_targets inputs targets outputs
    = Ret targets' /\
    forall i j m p q,
      cell_at (fst inputs) i j = Some m ->
      cell_at cp i j = Some p -> cell_at targets i j = Some q ->
      flagged m = true ->
      exists r,
        cell_at targets' i j = Some r /\
        position r = position q /\
        velocity r = zero_velocity /\
        (velocity q = zero_velocity <-> r = q).

(** Every timestep of trial [k] is flagged, once the generated input is
    converted to the scalars of the model. *)
Definition trial_flagged {F : Type} `{Scalar F} (inputs : tensor3 Q)
    (k : nat) : Prop :=
  forall j row, cell_at inputs k j = Some row ->
                flagged (map flit row) = true.

Section LoadHookClaim.
Context {F : Type} `{ScalarFacts F} {S : Type}.

Lemma row_parts (r : list F) : r = position r ++ velocity r.
Proof. symmetry; apply firstn_skipn. Qed.

(** C8 (as amended). At every trial and timestep flagged by the marker
    channel (the load channel at its background value -1),
    [TaskLoadProbability.recompute_targets] leaves the position component of
    the target unchanged, since the distance is replaced by 1000, above the
    tolerance 0.035; the velocity component of the result is zero, so the
    target is unchanged exactly when its velocity component is zero already.
    Every timestep of a catch trial of a generated batch is flagged. *)
Theorem load_recompute_spares_flagged (b t d di : nat)
    (inputs : tensor3 F * S) (targets cp : tensor3 F) (outputs : dict F)
    (self : Task) (cfg : TaskLoadProbability) (batch_size n_timesteps : nat)
    (i : list nat) (draws : list load_draws)
    (generated_inputs : tf_tensor) (generated_targets : tensor3 Q)
    (init_states : State) (k : nat) :
  getitem outputs "cartesian position" = Ret cp ->
  has_shape3 b t di (fst inputs) = true -> 4 <= di ->
  has_shape3 b t d cp = true -> 2 <= d ->
  has_shape3 b t 4 targets = true ->
  load_generate self cfg batch_size n_timesteps i draws
  = Ret (generated_inputs, generated_targets, init_states) ->
  k < batch_size ->
  is_catch (load_draw draws k) = true ->
  spares_flagged inputs targets cp outputs /\
  trial_flagged (F:=F) (batch_of generated_inputs) k.
Proof.
  intros Hout Hin Hdi Hcp Hd Htg Hgen Hk Hcatch.
  unfold spares_flagged, trial_flagged; split.
  - destruct (load_hook_cells b t d di inputs _ _ _ Hout Hin Hdi Hcp Hd Htg)
      as [targets' [Hret Hcells]].
    exists targets'; split; [exact Hret|].
    intros i0 j m p q Hm Hp Hq Hflag.
    exists (load_cell (m, (p, q))); split; [exact (Hcells _ _ _ _ _ Hm Hp Hq)|].
    assert (Lp : 2 <= length p)
      by (rewrite (cell_at_shape _ _ _ _ _ _ _ Hcp Hp); lia).
    assert (Lq : length q = 4) by exact (cell_at_shape _ _ _ _ _ _ _ Htg Hq).
    unfold load_cell; rewrite Hflag.
    assert (Hpos : position (lock (flit (35 # 1000)) (flit 1000) p q)
                   = position q)
      by (apply lock_position_kept; auto; apply sentinel_gt_tol).
    assert (Hvel : velocity (lock (flit (35 # 1000)) (flit 1000) p q)
                   = zero_velocity)
      by (apply lock_velocity; auto; apply zero_le_tol_load).
    split; [exact Hpos | split; [exact Hvel|]].
    split.
    + intros Hq0.
      rewrite (row_parts (lock _ _ p q)), Hpos, Hvel, <- Hq0.
      symmetry; apply row_parts.
    + intros Heq; rewrite <- Heq; exact Hvel.
  - intros j row Hrow.
    destruct (load_generate_marker _ _ _ _ _ _ _ _ _ k Hgen Hk)
      as (delay & prob & _ & _ & Hrows).
    destruct (Hrows j row Hrow) as (_ & _ & Hm).
    unfold flagged; rewrite nth_error_map, Hm; simpl.
    unfold load_marker; rewrite Hcatch; simpl.
    apply minus_one_eq.
Qed.
End LoadHookClaim.

(** *** Sampled delays *)

(** The delay drawn between [delay_min] and [delay_max]. *)
Definition delay_time_bounded (delay_min delay_max r : Q) : Prop :=
  exists delay,
    generate_delay_time delay_min delay_max "random" r = Ret delay /\
    (py_int delay_min <= delay)%Z /\
    (inject_Z delay <= delay_max)%Q /\
    (0 <= delay)%Z.

(** The cue of a trial of [TaskDelayedMultiReach] ends within the sequence. *)
Definition multi_cue_fits (cfg : TaskDelayedMultiReach) (n_timesteps : nat)
    (r : Q) : Prop :=
  exists delay,
    generate_delay_time (fst (mr_delay_range cfg)) (snd (mr_delay_range cfg))
      "random" r = Ret delay /\
    (delay + mr_bump_length cfg <= multi_sequence_time cfg n_timesteps)%Z.

(** The cue of trial [k] of [TaskDelayedReach] ends within the trial. *)
Definition reach_cue_fits (cfg : TaskDelayedReach) (n_timesteps : nat)
    (draws : list Q) (k : nat) : Prop :=
  exists delay,
    generate_delay_time (fst (dr_delay_range cfg)) (snd (dr_delay_range cfg))
      "random" (nth k draws 0%Q) = Ret delay /\
    (0 <= delay)%Z /\
    (delay + dr_bump_length cfg <= Z.of_nat n_timesteps)%Z.

Lemma reach_generate_cue_fits (self : Task) (cfg : TaskDelayedReach)
    (batch_size n_timesteps : nat) (i : list nat) (goal_states : tensor2 Q)
    (draws : list Q) (inputs : tf_tensor) (targets : tensor3 Q)
    (init_states : State) (k : nat) :
  reach_generate self cfg batch_size n_timesteps i goal_states draws
  = Ret (inputs, targets, init_states) ->
  k < batch_size ->
  reach_cue_fits cfg n_timesteps draws k.
Proof.
  intros Hgen Hk.
  destruct (reach_generate_Ret _ _ _ _ _ _ _ _ _ _ Hgen)
    as (c & _ & _ & _ & _ & Hturns & _).
  destruct (Hturns k Hk) as (y & x & y' & _ & _ & _ & Hturn).
  destruct Hturn as (delay & bump & Hd & Hb & _ & _).
  destruct (reach_bump_Ret _ _ _ _ Hb) as (H0 & _ & H2 & _).
  exists delay; split; [exact Hd | split; assumption].
Qed.

(** C6 (as amended). Between bounds [0 <= delay_min <= delay_max], the
    sampled integer [delay_time] satisfies
    [int(delay_min) <= delay_time <= delay_max] and [0 <= delay_time]. For
    [TaskDelayedMultiReach], [delay_time + bump_length <= sequence_time].
    For every trial of a batch that [TaskDelayedReach.generate] returns,
    [0 <= delay_time] and [delay_time + bump_length <= n_timesteps]. *)
Theorem sampled_delay_time_bounds (delay_min delay_max r : Q)
    (multi_cfg : TaskDelayedMultiReach) (multi_n_timesteps : nat)
    (self : Task) (cfg : TaskDelayedReach) (batch_size n_timesteps : nat)
    (i : list nat) (goal_states : tensor2 Q) (draws : list Q)
    (inputs : tf_tensor) (targets : tensor3 Q) (init_states : State)
    (k : nat) :
  (0 <= delay_min)%Q -> (delay_min <= delay_max)%Q ->
  (0 <= r)%Q -> (r < 1)%Q ->
  mr_delay_range multi_cfg = (delay_min, delay_max) ->
  reach_generate self cfg batch_size n_timesteps i goal_states draws
  = Ret (inputs, targets, init_states) ->
  k < batch_size ->
  delay_time_bounded delay_min delay_max r /\
  multi_cue_fits multi_cfg multi_n_timesteps r /\
  reach_cue_fits cfg n_timesteps draws k.
Proof.
  intros Hmin Hle H0 H1 Hrange Hgen Hk.
  destruct (generate_delay_time_bounds delay_min delay_max r Hmin Hle H0 H1)
    as (delay & Hd & Hlo & Hhi & Hpos).
  split; [exists delay; repeat split; assumption|].
  split; [|exact (reach_generate_cue_fits _ _ _ _ _ _ _ _ _ _ k Hgen Hk)].
  exists delay; rewrite Hrange; simpl; split; [exact Hd|].
  unfold multi_sequence_time; rewrite Hrange; simpl.
  apply py_int_above.
  rewrite inject_Z_plus.
  assert (Hn : (0 <= inject_Z (Z.of_nat ((mr_num_target multi_cfg + 1)
                                         * multi_n_timesteps)))%Q)
    by (change 0%Q with (inject_Z 0); rewrite <- Zle_Qle; lia).
  lra.
Qed.

(** *** Shapes of the generated batches *)







(** *** [TaskDelayedMultiReach.generate] *)

Local Abbreviation multi_generate :=
  (TaskDelayedMultiReach_generate State joint_state
     controller_get_initial_state joint2cartesian).

Lemma for_range_never {S : Type} (body : nat -> S -> res S)
    (start count : nat) (s : S) :
  (forall k s', returns (body k s') = false) -> 0 < count ->
  returns (for_range body start count s) = false.
Proof.
  intros Hbody Hcount; destruct count as [|count]; [lia|]; simpl.
  pose proof (Hbody start s) as Hs.
  destruct (body start s); [discriminate | reflexivity].
Qed.

(** With a trial to build, [TaskDelayedMultiReach.generate] raises: the
    first turn of its loop does. *)
Lemma multi_generate_raises (self : Task) (cfg : TaskDelayedMultiReach)
    (batch_size n_timesteps : nat) (i : list nat)
    (goal_draws : list (tensor2 Q)) (draws : list Q) :
  1 <= batch_size ->
  returns (multi_generate self cfg batch_size n_timesteps i goal_draws draws)
  = false.
Proof.
  intros HB; unfold TaskDelayedMultiReach_generate.
  apply bind_never; intros st.
  apply bind_never; intros c.
  apply bind_never; intros tl.
  apply bind_never; intros z.
  pose proof (for_range_never
                (multi_trial cfg n_timesteps c tl draws) 0 batch_size
                ([], repeat z batch_size)
                (multi_trial_raises cfg n_timesteps c tl draws) HB)
    as Hloop.
  destruct (for_range _ 0 batch_size _); [discriminate | reflexivity].
Qed.


(** The cartesian goals of trial [k], one per target. *)
Definition multi_goals (cfg : TaskDelayedMultiReach)
    (goal_draws : list (tensor2 Q)) (k : nat) : list (list Q) :=
  map (fun r => nth k (joint2cartesian (nth r goal_draws [])) [])
      (seq 0 (mr_num_target cfg)).


Lemma multi_target_list_held (cfg : TaskDelayedMultiReach)
    (batch_size n_timesteps : nat) (goal_draws : list (tensor2 Q))
    (target_list : list (tensor3 Q)) (k : nat) :
  (forall r, r < mr_num_target cfg ->
     has_shape2 batch_size 4 (joint2cartesian (nth r goal_draws []))
     = true) ->
  multi_target_list joint2cartesian cfg batch_size n_timesteps goal_draws
  = Ret target_list ->
  k < batch_size ->
  Forall2 (fun tl g => nth_error tl k = Some (repeat g n_timesteps))
          target_list (multi_goals cfg goal_draws k) /\
  Forall (fun g => length g = 4) (multi_goals cfg goal_draws k) /\
  length target_list = mr_num_target cfg.
Proof.
  intros Hshape Htl Hk; unfold multi_target_list in Htl.
  rewrite (mapM_map_Ret _
             (fun r => state2target (joint2cartesian (nth r goal_draws []))
                                    n_timesteps)) in Htl.
  2:{ intros r Hr; apply in_seq in Hr.
      apply broadcast3_held, Hshape; lia. }
  apply Ret_inj in Htl; subst target_list.
  assert (Hrow : forall r, In r (seq 0 (mr_num_target cfg)) ->
            nth_error (joint2cartesian (nth r goal_draws [])) k
            = Some (nth k (joint2cartesian (nth r goal_draws [])) []) /\
            length (nth k (joint2cartesian (nth r goal_draws [])) []) = 4).
  { intros r Hr; apply in_seq in Hr.
    destruct (has_shape2_inv _ _ _ (Hshape r ltac:(lia))) as [Hb Hw].
    assert (Hnth : nth_error (joint2cartesian (nth r goal_draws [])) k
                   = Some (nth k (joint2cartesian (nth r goal_draws [])) []))
      by (apply nth_error_nth'; lia).
    split; [exact Hnth|].
    exact (Hw _ (nth_error_In _ _ Hnth)). }
  split; [|split].
  - unfold multi_goals; apply Forall2_map_both; intros r Hr.
    apply nth_error_state2target; exact (proj1 (Hrow r Hr)).
  - unfold multi_goals; apply Forall_forall; intros g Hg.
    apply in_map_iff in Hg; destruct Hg as (r & <- & Hr).
    exact (proj2 (Hrow r Hr)).
  - rewrite length_map, length_seq; reflexivity.
Qed.


Local Abbreviation static_generate :=
  (TaskStaticTarget_generate State controller_get_initial_state
     joint2cartesian).
Local Abbreviation perturbed_generate :=
  (TaskStaticTargetWithPerturbations_generate State
     controller_get_initial_state joint2cartesian).

Section PlantContract.
(** The plant returns one cartesian state per joint state, and
    [draw_random_uniform_states(batch_size)] one state per trial. *)
Hypothesis joint2cartesian_length :
  forall s, length (joint2cartesian s) = length s.



(** A batch of [TaskDelayedReach.generate] is stacked from its trials: it
    has rank 3 when there is one, and is the empty vector otherwise. *)
Lemma reach_generate_rank (self : Task) (cfg : TaskDelayedReach)
    (batch_size n_timesteps : nat) (i : list nat) (goal_states : tensor2 Q)
    (draws : list Q) (inputs : tf_tensor) (targets : tensor3 Q)
    (init_states : State) :
  reach_generate self cfg batch_size n_timesteps i goal_states draws
  = Ret (inputs, targets, init_states) ->
  (1 <= batch_size -> inputs = Rank3 (batch_of inputs)) /\
  (batch_size = 0 ->
   inputs = Rank1 [] /\
   targets = state2target (joint2cartesian goal_states) n_timesteps).
Proof.
  unfold TaskDelayedReach_generate; intros Hg.
  apply bind_Ret in Hg; destruct Hg as (st & _ & Hg).
  apply bind_Ret in Hg; destruct Hg as (c & _ & Hg).
  apply bind_Ret in Hg; destruct Hg as ([acc arr] & Eloop & Hg).
  apply bind_Ret in Hg; destruct Hg as (inp & Estack & Hg).
  apply Ret_inj in Hg; injection Hg as <- <- _.
  cbn [fst snd] in *.
  destruct (tf_stack_Ret _ _ Estack) as (Hb & Hnil & Hcons).
  split.
  - intros HB; rewrite Hb; apply Hcons.
    pose proof (append_update_loop
                  (reach_trial cfg n_timesteps c draws)
                  (reach_turn cfg n_timesteps c draws)
                  (reach_trial_Ret cfg n_timesteps c draws)
                  _ _ _ Eloop) as (Hacc & _).
    cbn [fst] in Hacc; intros ->; simpl in Hacc; lia.
  - intros ->; cbn [for_range] in Eloop.
    apply Ret_inj in Eloop; injection Eloop as <- <-.
    split; [apply Hnil|]; reflexivity.
Qed.



Lemma load_generate_rank (self : Task) (cfg : TaskLoadProbability)
    (batch_size n_timesteps : nat) (i : list nat) (draws : list load_draws)
    (inputs : tf_tensor) (targets : tensor3 Q) (init_states : State) :
  load_generate self cfg batch_size n_timesteps i draws
  = Ret (inputs, targets, init_states) ->
  inputs = Rank3 (batch_of inputs).
Proof.
  unfold TaskLoadProbability_generate; intros Hg.
  apply bind_Ret in Hg; destruct Hg as (st & _ & Hg).
  apply bind_Ret in Hg; destruct Hg as (c & _ & Hg).
  apply bind_Ret in Hg; destruct Hg as (goal_state & _ & Hg).
  apply bind_Ret in Hg; destruct Hg as (s & _ & Hg).
  apply Ret_inj in Hg; injection Hg as <- _ _; reflexivity.
Qed.

End PlantContract.



End GeneratorClaims.

(** ** A point-mass plant and batches generated on it *)

(** A plant whose joint coordinates are the cartesian ones, and a controller
    that starts from the states it is given (from rest otherwise). *)
Definition pm_State : Type := tensor2 Q.
Definition pm_joint_state (s : pm_State) : tensor2 Q := s.
Definition pm_joint2cartesian (s : tensor2 Q) : tensor2 Q := s.
Definition pm_dt : Q := 1 # 100.

Definition pm_get_initial_state (batch_size : nat)
    (inputs : option (tensor2 Q)) : pm_State :=
  match inputs with
  | Some x => x
  | None => repeat [0; 0; 0; 0]%Q batch_size
  end.

(** A task with a pool of two initial states. *)
Definition ex_task : Task :=
  Task_init (Some (Matrix [[0; 0; 0; 0]; [1; 1; 0; 0]]%Q)).

Definition ex_goals : tensor2 Q := [[5; 6; 0; 0]; [7; 8; 0; 0]]%Q.

(** [bump_length=20], [delay_range=[20, 40]] with [dt=0.01]: a cue of 2
    steps, delays in [[2, 4)]. *)
Definition ex_reach_cfg : TaskDelayedReach :=
  Eval vm_compute in
    unwrap (mkDelayedReach 0 0 (0, 0)%Q)
      (TaskDelayedReach_init pm_dt (Some 20%Q) None (Some (20%Q, 40%Q))).

Definition ex_reach_draws : list Q := [0; 1 # 2]%Q.

Definition ex_reach_batch : res (tf_tensor * tensor3 Q * pm_State) :=
  TaskDelayedReach_generate pm_State pm_joint_state pm_get_initial_state
    pm_joint2cartesian ex_task ex_reach_cfg 2 6 [0; 1] ex_goals
    ex_reach_draws.

Definition ex_reach_inputs : tensor3 Q :=
  [[[5; 6; 0]; [5; 6; 0]; [5; 6; 1]; [5; 6; 1]; [5; 6; 0]; [5; 6; 0]];
   [[7; 8; 0]; [7; 8; 0]; [7; 8; 0]; [7; 8; 1]; [7; 8; 1]; [7; 8; 0]]]%Q.

Definition ex_reach_targets : tensor3 Q :=
  [[[0; 0; 0; 0]; [0; 0; 0; 0]; [5; 6; 0; 0]; [5; 6; 0; 0]; [5; 6; 0; 0];
    [5; 6; 0; 0]];
   [[0; 0; 0; 0]; [0; 0; 0; 0]; [0; 0; 0; 0]; [7; 8; 0; 0]; [7; 8; 0; 0];
    [7; 8; 0; 0]]]%Q.

Definition ex_state : pm_State := [[0; 0; 0; 0]; [1; 1; 0; 0]]%Q.

Lemma ex_reach_batch_value :
  ex_reach_batch = Ret (Rank3 ex_reach_inputs, ex_reach_targets, ex_state).
Proof. vm_compute; reflexivity. Qed.

Lemma delayed_reach_trial_layout_witness :
  reach_trial_laid_out ex_reach_cfg 6 [0; 0; 0; 0]%Q
    (pm_joint2cartesian ex_goals) ex_reach_draws ex_reach_inputs
    ex_reach_targets 1.
Proof.
  apply (delayed_reach_trial_layout pm_State pm_joint_state
           pm_get_initial_state pm_joint2cartesian ex_task ex_reach_cfg 2 6
           [0; 1] ex_goals ex_reach_draws (Rank3 ex_reach_inputs)
           ex_reach_targets ex_state [0; 0; 0; 0]%Q [0; 0; 0; 0]%Q).
  - vm_compute; reflexivity.
  - reflexivity.
  - reflexivity.
  - repeat constructor.
  - repeat constructor.
  - repeat constructor.
Defined.

(** C3 as stated fails. The second trial of the batch starts from the state
    [(1, 1, 0, 0)], whose cartesian projection is [(1, 1, 0, 0)]; its delay
    is 3 steps, and its supervised target at step 0 is [(0, 0, 0, 0)], the
    projection of the initial state of the first trial. *)
Lemma delayed_reach_center_is_first_trial :
  ex_reach_batch = Ret (Rank3 ex_reach_inputs, ex_reach_targets, ex_state) /\
  nth_error (pm_joint_state ex_state) 1 = Some [1; 1; 0; 0]%Q /\
  pm_joint2cartesian [[1; 1; 0; 0]%Q] = [[1; 1; 0; 0]%Q] /\
  generate_delay_time (fst (dr_delay_range ex_reach_cfg))
    (snd (dr_delay_range ex_reach_cfg)) "random" (nth 1 ex_reach_draws 0%Q)
  = Ret 3%Z /\
  cell_at ex_reach_targets 1 0 = Some [0; 0; 0; 0]%Q /\
  [0; 0; 0; 0]%Q <> [1; 1; 0; 0]%Q.
Proof.
  split; [exact ex_reach_batch_value|].
  repeat split; try (vm_compute; reflexivity).
  discriminate.
Qed.

(** [fixation_time=10], [delay_range=[20, 40]] with [dt=0.01]. The first
    trial draws probability 1 and is not a catch trial; the second is a
    catch trial. *)
Definition ex_load_cfg : TaskLoadProbability :=
  Eval vm_compute in
    unwrap (mkLoadProbability 0 (0, 0)%Q)
      (TaskLoadProbability_init pm_dt (Some 10%Q) (Some (20%Q, 40%Q))).

Definition ex_load_draws : list load_draws :=
  [mkLoadDraws 0 4 (1 # 2) (1 # 2); mkLoadDraws 0 1 (1 # 10) 0].

Definition ex_load_batch : res (tf_tensor * tensor3 Q * pm_State) :=
  TaskLoadProbability_generate pm_State pm_joint_state pm_get_initial_state
    pm_joint2cartesian ex_task ex_load_cfg 2 6 [0; 1] ex_load_draws.

Definition ex_load_inputs : tensor3 Q :=
  Eval vm_compute in
    match ex_load_batch with
    | Ret (inputs, _, _) => batch_of inputs
    | Raise _ => []
    end.

Definition ex_load_targets : tensor3 Q :=
  Eval vm_compute in
    match ex_load_batch with
    | Ret (_, targets, _) => targets
    | Raise _ => []
    end.

Lemma ex_load_batch_value :
  ex_load_batch = Ret (Rank3 ex_load_inputs, ex_load_targets, ex_state).
Proof. vm_compute; reflexivity. Qed.

Lemma load_pert_follows_probability_witness :
  pert_follows_probability ex_load_cfg 6 ex_load_draws ex_load_inputs 0.
Proof.
  apply (load_pert_follows_probability pm_State pm_joint_state
           pm_get_initial_state pm_joint2cartesian ex_task ex_load_cfg 2 6
           [0; 1] ex_load_draws (Rank3 ex_load_inputs) ex_load_targets
           ex_state 0).
  - vm_compute; reflexivity.
  - repeat constructor.
  - reflexivity.
  - discriminate.
  - reflexivity.
Defined.

(** C5 as stated fails. The first trial is not a catch trial and draws
    probability 1; with the rand() outcome 1/2 its [pert] is [-2], not [0],
    and the marker channel reads [-2] at step 3, its perturbation time. *)
Lemma load_pert_at_probability_one_is_not_zero :
  ex_load_batch = Ret (Rank3 ex_load_inputs, ex_load_targets, ex_state) /\
  is_catch (load_draw ex_load_draws 0) = false /\
  nth_error prob_array (ld_prob_index (load_draw ex_load_draws 0))
  = Some 1%Q /\
  load_pert 1 (ld_sign (load_draw ex_load_draws 0)) = (-2)%Q /\
  cell_at ex_load_inputs 0 3 = Some [1; 0; 0; -2]%Q /\
  (-2)%Q <> 0%Q.
Proof.
  split; [exact ex_load_batch_value|].
  repeat split; try (vm_compute; reflexivity).
  discriminate.
Qed.

Lemma load_recompute_spares_flagged_witness :
  spares_flagged ex_inputs ex_targets ex_cp ex_outputs /\
  trial_flagged (F:=float) ex_load_inputs 1.
Proof.
  apply (load_recompute_spares_flagged pm_State pm_joint_state
           pm_get_initial_state pm_joint2cartesian 1 2 4 4 ex_inputs
           ex_targets ex_cp ex_outputs ex_task ex_load_cfg 2 6 [0; 1]
           ex_load_draws (Rank3 ex_load_inputs) ex_load_targets ex_state 1).
  - reflexivity.
  - reflexivity.
  - repeat constructor.
  - reflexivity.
  - repeat constructor.
  - reflexivity.
  - vm_compute; reflexivity.
  - repeat constructor.
  - reflexivity.
Defined.

(** C8 as stated fails. The first timestep of the rollout is flagged; the
    target there is [(0, 0, 1, 1)] and the hook returns [(0, 0, 0, 0)]. *)
Lemma load_recompute_zeroes_flagged_velocity :
  cell_at (fst ex_inputs) 0 0 = Some [fl 0; fl 0; fl 0; fl (-1)] /\
  flagged [fl 0; fl 0; fl 0; fl (-1)] = true /\
  cell_at ex_targets 0 0 = Some [fl 0; fl 0; fl 1; fl 1] /\
  exists targets',
    TaskLoadProbability_hook.recompute_targets ex_inputs ex_targets ex_outputs
    = Ret targets' /\
    cell_at targets' 0 0 = Some [fl 0; fl 0; fl 0; fl 0] /\
    cell_at targets' 0 0 <> cell_at ex_targets 0 0.
Proof.
  split; [reflexivity|].
  split; [vm_compute; reflexivity|].
  split; [reflexivity|].
  eexists; split; [vm_compute; reflexivity|].
  split; [vm_compute; reflexivity|].
  vm_compute; intro Heq; discriminate Heq.
Qed.

(** [bump_length=10], [delay_range=[10, 30]], [num_target=2] with [dt=0.01]:
    a cue of 1 step, delays in [[1, 3)], two goals. *)
Definition ex_multi_cfg : TaskDelayedMultiReach :=
  Eval vm_compute in
    unwrap (mkDelayedMultiReach 0 0 (0, 0)%Q 0)
      (TaskDelayedMultiReach_init pm_dt (Some 10%Q) None
         (Some (10%Q, 30%Q)) (Some 2)).

Lemma sampled_delay_time_bounds_witness :
  delay_time_bounded (fst (mr_delay_range ex_multi_cfg))
    (snd (mr_delay_range ex_multi_cfg)) (1 # 2) /\
  multi_cue_fits ex_multi_cfg 2 (1 # 2) /\
  reach_cue_fits ex_reach_cfg 6 ex_reach_draws 1.
Proof.
  apply (sampled_delay_time_bounds pm_State pm_joint_state
           pm_get_initial_state pm_joint2cartesian
           (fst (mr_delay_range ex_multi_cfg))
           (snd (mr_delay_range ex_multi_cfg)) (1 # 2) ex_multi_cfg 2
           ex_task ex_reach_cfg 2 6 [0; 1] ex_goals ex_reach_draws
           (Rank3 ex_reach_inputs) ex_reach_targets ex_state 1).
  - vm_compute; intro Hq; discriminate Hq.
  - vm_compute; intro Hq; discriminate Hq.
  - vm_compute; intro Hq; discriminate Hq.
  - reflexivity.
  - reflexivity.
  - vm_compute; reflexivity.
  - repeat constructor.
Defined.

(** [delay_range=[105, 110]] with [dt=0.01]: delays in [[10.5, 11)]. *)
Definition ex_fractional_cfg : TaskDelayedReach :=
  Eval vm_compute in
    unwrap (mkDelayedReach 0 0 (0, 0)%Q)
      (TaskDelayedReach_init pm_dt None None (Some (105%Q, 110%Q))).

(** C6 as stated fails. Between the bounds 10.5 and 11 the draw 10.5 is
    truncated to 10 steps, below [delay_min]. And with [n_timesteps=4], a cue
    of 2 steps and delays in [[2, 4)], the second trial samples a delay of 3
    steps, which leaves no room for the cue: [generate] raises. *)
Lemma delay_time_falls_below_delay_min :
  generate_delay_time (fst (dr_delay_range ex_fractional_cfg))
    (snd (dr_delay_range ex_fractional_cfg)) "random" 0 = Ret 10%Z /\
  (inject_Z 10 < fst (dr_delay_range ex_fractional_cfg))%Q /\
  generate_delay_time (fst (dr_delay_range ex_reach_cfg))
    (snd (dr_delay_range ex_reach_cfg)) "random" (nth 1 ex_reach_draws 0%Q)
  = Ret 3%Z /\
  (4 < 3 + dr_bump_length ex_reach_cfg)%Z /\
  TaskDelayedReach_generate pm_State pm_joint_state pm_get_initial_state
    pm_joint2cartesian ex_task ex_reach_cfg 2 4 [0; 1] ex_goals
    ex_reach_draws
  = Raise ValueError.
Proof. repeat split; vm_compute; reflexivity. Qed.

(** Batches of the two static generators on the point-mass plant. *)
Definition ex_static_batch : res (tf_tensor * tensor3 Q * pm_State) :=
  TaskStaticTarget_generate pm_State pm_get_initial_state pm_joint2cartesian
    2 ex_task 2 6 [0; 1] ex_goals.

Definition ex_perturbed_batch : res (tf_tensor * tensor3 Q * pm_State) :=
  TaskStaticTargetWithPerturbations_generate pm_State pm_get_initial_state
    pm_joint2cartesian 2 ex_task 2 6 [0; 1] ex_goals.

Definition inputs_of (r : res (tf_tensor * tensor3 Q * pm_State))
  : tensor3 Q :=
  match r with
  | Ret (inputs, _, _) => batch_of inputs
  | Raise _ => []
  end.

Definition targets_of (r : res (tf_tensor * tensor3 Q * pm_State))
  : tensor3 Q :=
  match r with
  | Ret (_, targets, _) => targets
  | Raise _ => []
  end.

Definition ex_static_inputs : tensor3 Q :=
  Eval vm_compute in inputs_of ex_static_batch.
Definition ex_static_targets : tensor3 Q :=
  Eval vm_compute in targets_of ex_static_batch.
Definition ex_perturbed_inputs : tensor3 Q :=
  Eval vm_compute in inputs_of ex_perturbed_batch.
Definition ex_perturbed_targets : tensor3 Q :=
  Eval vm_compute in targets_of ex_perturbed_batch.

Lemma ex_static_batch_value :
  ex_static_batch
  = Ret (Rank3 ex_static_inputs, ex_static_targets, ex_state).
Proof. vm_compute; reflexivity. Qed.

Lemma ex_perturbed_batch_value :
  ex_perturbed_batch
  = Ret (Rank3 ex_perturbed_inputs, ex_perturbed_targets, ex_state).
Proof. vm_compute; reflexivity. Qed.





(** A batch of two trials of [TaskDelayedMultiReach] on the point-mass
    plant: the first turn of the loop raises [IndexError] at
    [input_tensor[n_timesteps + self.delay_range[1] + self.bump_length+1, :]]. *)
Definition ex_multi_goals : list (tensor2 Q) :=
  [[[5; 6; 0; 0]; [3; 4; 0; 0]]; [[7; 8; 0; 0]; [1; 2; 0; 0]]]%Q.

Definition ex_multi_batch : res (tf_tensor * tensor3 Q * pm_State) :=
  TaskDelayedMultiReach_generate pm_State pm_joint_state
    pm_get_initial_state pm_joint2cartesian ex_task ex_multi_cfg 2 6 [0; 1]
    ex_multi_goals [1 # 2; 0]%Q.

Lemma ex_multi_batch_raises : ex_multi_batch = Raise IndexError.
Proof. vm_compute; reflexivity. Qed.




(** * Part III: more of the module *)

(** ** Truncation from above *)

Lemma py_int_lt_self (x : Q) : (0 <= x)%Q -> (x < inject_Z (py_int x) + 1)%Q.
Proof.
  intros Hx; rewrite (py_int_floor x Hx).
  pose proof (Qlt_floor x) as Hlt.
  rewrite inject_Z_plus in Hlt; exact Hlt.
Qed.

(** ** Durations in milliseconds and in steps *)

(** [steps] is the number of whole steps of [dt] seconds in [ms]
    milliseconds. *)
Definition whole_steps_of (dt ms : Q) (steps : Z) : Prop :=
  (0 <= steps)%Z /\
  (inject_Z steps * dt * 1000 <= ms)%Q /\
  (ms < (inject_Z steps + 1) * dt * 1000)%Q.

(** A delay of [delay] steps, in milliseconds, is at most [hi] and more than
    [lo] less one step. *)
Definition delay_within_ms (dt lo hi : Q) (delay : Z) : Prop :=
  (0 <= delay)%Z /\
  (inject_Z delay * dt * 1000 <= hi)%Q /\
  (lo < (inject_Z delay + 1) * dt * 1000)%Q.

Lemma steps_of_ms (dt ms : Q) :
  (0 < dt)%Q -> (0 <= ms)%Q -> whole_steps_of dt ms (py_int (ms / 1000 / dt)).
Proof.
  intros Hdt Hms.
  assert (Hx : (0 <= ms / 1000 / dt)%Q).
  { apply Qle_shift_div_l; [exact Hdt|].
    apply Qle_shift_div_l; [reflexivity | lra]. }
  assert (Hms' : (ms == ms / 1000 / dt * dt * 1000)%Q) by (field; lra).
  pose proof (py_int_le_self _ Hx) as Hlo.
  pose proof (py_int_lt_self _ Hx) as Hhi.
  split; [apply py_int_above; exact Hx|].
  revert Hms' Hlo Hhi.
  generalize (ms / 1000 / dt)%Q; intros x.
  generalize (inject_Z (py_int x)); intros s Hms' Hlo Hhi.
  assert (Hs : (s * dt <= x * dt)%Q) by (apply Qmult_le_compat_r; lra).
  assert (Hx' : (x * dt < (s + 1) * dt)%Q)
    by (apply Qmult_lt_compat_r; assumption).
  split; rewrite Hms'; lra.
Qed.

Lemma delay_of_ms (dt lo hi r : Q) :
  (0 < dt)%Q -> (0 <= lo)%Q -> (lo <= hi)%Q -> (0 <= r)%Q -> (r < 1)%Q ->
  exists delay,
    generate_delay_time (lo / 1000 / dt) (hi / 1000 / dt) "random" r
    = Ret delay /\
    delay_within_ms dt lo hi delay.
Proof.
  intros Hdt Hlo Hle H0 H1.
  assert (Hmin : (0 <= lo / 1000 / dt)%Q).
  { apply Qle_shift_div_l; [exact Hdt|].
    apply Qle_shift_div_l; [reflexivity | lra]. }
  assert (Hlo' : (lo == lo / 1000 / dt * dt * 1000)%Q) by (field; lra).
  assert (Hhi' : (hi == hi / 1000 / dt * dt * 1000)%Q) by (field; lra).
  assert (Hmm : (lo / 1000 / dt <= hi / 1000 / dt)%Q).
  { apply Qle_shift_div_l; [exact Hdt|].
    apply Qle_shift_div_l; [reflexivity|].
    rewrite <- Hlo'; exact Hle. }
  destruct (generate_delay_time_bounds _ _ r Hmin Hmm H0 H1)
    as (delay & Hd & Hfloor & Hmax & Hpos).
  exists delay; split; [exact Hd|].
  pose proof (py_int_lt_self _ Hmin) as Hlt.
  assert (Hfl : (inject_Z (py_int (lo / 1000 / dt)) <= inject_Z delay)%Q)
    by (rewrite <- Zle_Qle; exact Hfloor).
  split; [exact Hpos|].
  revert Hlo' Hhi' Hmax Hlt Hfl.
  generalize (lo / 1000 / dt)%Q (hi / 1000 / dt)%Q; intros x y.
  generalize (inject_Z (py_int x)) (inject_Z delay).
  intros s d Hlo' Hhi' Hmax Hlt Hfl.
  assert (Hd' : (d * dt <= y * dt)%Q) by (apply Qmult_le_compat_r; lra).
  assert (Hx' : (x * dt < (d + 1) * dt)%Q)
    by (apply Qmult_lt_compat_r; lra).
  split; [rewrite Hhi' | rewrite Hlo']; lra.
Qed.

(** ** The constructors *)

Lemma only_initial_joint_state_fields (kw : kwargs) :
  only_initial_joint_state kw = true ->
  kw_bump_length kw = None /\ kw_bump_height kw = None /\
  kw_delay_range kw = None /\ kw_num_target kw = None /\
  kw_fixation_time kw = None /\ kw_others kw = [].
Proof.
  unfold only_initial_joint_state.
  destruct (kw_bump_length kw), (kw_bump_height kw), (kw_delay_range kw),
    (kw_num_target kw), (kw_fixation_time kw), (kw_others kw);
    intros Heq; try discriminate Heq; repeat split.
Qed.

Lemma Task_new_Ret (kw : kwargs) (self : Task) :
  Task_new kw = Ret self ->
  only_initial_joint_state kw = true /\
  self = Task_init (kw_initial_joint_state kw).
Proof.
  unfold Task_new; destruct (only_initial_joint_state kw);
    [|discriminate].
  intros Heq; apply Ret_inj in Heq; auto.
Qed.

(** A keyword argument and its default. *)
Definition kwarg {A : Type} (given : option A) (default : A) : A :=
  match given with Some x => x | None => default end.

Lemma TaskDelayedReach_new_Ret (dt : Q) (kw : kwargs) (self : Task)
    (cfg : TaskDelayedReach) :
  TaskDelayedReach_new dt kw = Ret (self, cfg) ->
  self = with_recompute_targets (Task_init (kw_initial_joint_state kw)) /\
  TaskDelayedReach_init dt None None None = Ret cfg.
Proof.
  unfold TaskDelayedReach_new; intros Hnew.
  apply bind_Ret in Hnew; destruct Hnew as (self0 & Hself & Hnew).
  destruct (Task_new_Ret _ _ Hself) as [Honly ->].
  destruct (only_initial_joint_state_fields _ Honly)
    as (Hbl & Hbh & Hdr & _).
  rewrite Hbl, Hbh, Hdr in Hnew.
  apply bind_Ret in Hnew; destruct Hnew as (cfg0 & Hcfg & Hnew).
  apply Ret_inj in Hnew; injection Hnew as <- <-; auto.
Qed.

Lemma TaskLoadProbability_new_Ret (dt : Q) (kw : kwargs) (self : Task)
    (cfg : TaskLoadProbability) :
  TaskLoadProbability_new dt kw = Ret (self, cfg) ->
  self = with_recompute_targets (Task_init (kw_initial_joint_state kw)) /\
  TaskLoadProbability_init dt None None = Ret cfg.
Proof.
  unfold TaskLoadProbability_new; intros Hnew.
  apply bind_Ret in Hnew; destruct Hnew as (self0 & Hself & Hnew).
  destruct (Task_new_Ret _ _ Hself) as [Honly ->].
  destruct (only_initial_joint_state_fields _ Honly)
    as (_ & _ & Hdr & _ & Hft & _).
  rewrite Hft, Hdr in Hnew.
  apply bind_Ret in Hnew; destruct Hnew as (cfg0 & Hcfg & Hnew).
  apply Ret_inj in Hnew; injection Hnew as <- <-; auto.
Qed.

Lemma TaskDelayedMultiReach_new_Ret (dt : Q) (kw : kwargs) (self : Task)
    (cfg : TaskDelayedMultiReach) :
  TaskDelayedMultiReach_new dt kw = Ret (self, cfg) ->
  self = Task_init (kw_initial_joint_state kw) /\
  TaskDelayedMultiReach_init dt (kw_bump_length kw) (kw_bump_height kw)
    (kw_delay_range kw) (kw_num_target kw) = Ret cfg.
Proof.
  unfold TaskDelayedMultiReach_new; intros Hnew.
  apply bind_Ret in Hnew; destruct Hnew as (cfg0 & Hcfg & Hnew).
  apply Ret_inj in Hnew; injection Hnew as <- <-; auto.
Qed.

(** X3. Which keywords the constructors take. [TaskStaticTarget],
    [TaskStaticTargetWithPerturbations], [TaskDelayedReach] and
    [TaskLoadProbability] hand all their keywords to [Task.__init__], which
    takes [initial_joint_state] only: any other keyword, [bump_length],
    [delay_range] and [fixation_time] included, raises [TypeError], and a
    task of these classes that was built has the timing of the defaults.
    [TaskDelayedMultiReach] hands on [initial_joint_state] alone: no set of
    keywords makes it raise [TypeError], and a task that was built has the
    cue height and the number of targets given, and the timing computed from
    the keywords given. *)
Theorem constructors_take_keywords (dt : Q) (kw : kwargs) :
  (only_initial_joint_state kw = false ->
   TaskStaticTarget_new kw = Raise TypeError /\
   TaskDelayedReach_new dt kw = Raise TypeError /\
   TaskLoadProbability_new dt kw = Raise TypeError) /\
  (forall self cfg,
     TaskDelayedReach_new dt kw = Ret (self, cfg) ->
     TaskDelayedReach_init dt None None None = Ret cfg) /\
  (forall self cfg,
     TaskLoadProbability_new dt kw = Ret (self, cfg) ->
     TaskLoadProbability_init dt None None = Ret cfg) /\
  TaskDelayedMultiReach_new dt kw <> Raise TypeError /\
  (forall self cfg,
     TaskDelayedMultiReach_new dt kw = Ret (self, cfg) ->
     self = Task_init (kw_initial_joint_state kw) /\
     mr_bump_height cfg = kwarg (kw_bump_height kw) 3%Q /\
     mr_num_target cfg = kwarg (kw_num_target kw) 1 /\
     TaskDelayedMultiReach_init dt (kw_bump_length kw) (kw_bump_height kw)
       (kw_delay_range kw) (kw_num_target kw) = Ret cfg).
Proof.
  split; [|split; [|split; [|split]]].
  - intros Hkw.
    unfold TaskStaticTarget_new, TaskDelayedReach_new,
      TaskLoadProbability_new, Task_new.
    rewrite Hkw; repeat split.
  - intros self cfg Hnew.
    exact (proj2 (TaskDelayedReach_new_Ret _ _ _ _ Hnew)).
  - intros self cfg Hnew.
    exact (proj2 (TaskLoadProbability_new_Ret _ _ _ _ Hnew)).
  - unfold TaskDelayedMultiReach_new, TaskDelayedMultiReach_init, int_div.
    destruct (Qeq_bool dt 0); discriminate.
  - intros self cfg Hnew.
    destruct (TaskDelayedMultiReach_new_Ret _ _ _ _ Hnew) as [-> Hinit].
    split; [reflexivity|].
    pose proof Hinit as Hcfg.
    unfold TaskDelayedMultiReach_init in Hcfg.
    apply bind_Ret in Hcfg; destruct Hcfg as (steps & _ & Hcfg).
    apply Ret_inj in Hcfg; subst cfg.
    split; [reflexivity | split; [reflexivity | exact Hinit]].
Qed.

(** The delay that a task with the bounds [range], in steps, samples on the
    draw [r] lies within the bounds [ms], in milliseconds. *)
Definition samples_within_ms (dt : Q) (ms range : Q * Q) (r : Q) : Prop :=
  exists delay,
    generate_delay_time (fst range) (snd range) "random" r = Ret delay /\
    delay_within_ms dt (fst ms) (snd ms) delay.

(** The timing that [TaskDelayedReach.__init__] computes from its defaults,
    50 ms and 100 to 900 ms. *)
Lemma default_reach_timing (dt r : Q) (cfg : TaskDelayedReach) :
  (0 < dt)%Q -> (0 <= r)%Q -> (r < 1)%Q ->
  TaskDelayedReach_init dt None None None = Ret cfg ->
  whole_steps_of dt 50 (dr_bump_length cfg) /\
  samples_within_ms dt (100, 900)%Q (dr_delay_range cfg) r.
Proof.
  intros Hdt H0 H1; unfold TaskDelayedReach_init, int_div.
  destruct (Qeq_bool dt 0) eqn:Edt;
    [apply Qeq_bool_iff in Edt; lra|].
  cbn [bind]; intros Hcfg; apply Ret_inj in Hcfg; subst cfg.
  cbn [dr_bump_length dr_delay_range fst snd].
  split.
  - apply steps_of_ms; [exact Hdt | intro Hq; discriminate Hq].
  - apply delay_of_ms; try assumption; intro Hq; discriminate Hq.
Qed.

(** ** The hooks: missing entry, shape of the result *)

Lemma getitem_missing {F : Type} (d : dict F) (key : string) :
  (forall v, ~ In (key, v) d) -> getitem d key = Raise KeyError.
Proof.
  induction d as [|[k v] d IH]; intros Hd; simpl; [reflexivity|].
  destruct (String.eqb_spec k key) as [->|Hne].
  - exfalso; apply (Hd v); left; reflexivity.
  - apply IH; intros w Hw; apply (Hd w); right; exact Hw.
Qed.

Lemma length_pair_rows {A B : Type} (x : list (list A)) (y : list (list B)) :
  length (pair_rows x y) = Nat.min (length x) (length y).
Proof. unfold pair_rows; rewrite length_map; apply length_combine. Qed.

Section HookShapes.
Context {F : Type} `{Scalar F}.

Lemma has_shape3_map_cells {E : Type} (f : E -> list F) (L : list (list E))
    (b t d : nat) :
  length L = b -> Forall (fun m => length m = t) L ->
  Forall (Forall (fun e => length (f e) = d)) L ->
  has_shape3 b t d (map (map f) L) = true.
Proof.
  intros Hb Ht Hd; apply has_shape3_spec; split.
  - rewrite length_map; exact Hb.
  - unfold rows_of; apply Forall_forall; intros m Hm.
    apply in_map_iff in Hm; destruct Hm as (m0 & <- & Hm0).
    rewrite Forall_forall in Ht, Hd.
    split; [rewrite length_map; exact (Ht m0 Hm0)|].
    apply Forall_forall; intros v Hv.
    apply in_map_iff in Hv; destruct Hv as (e & <- & He).
    specialize (Hd m0 Hm0); rewrite Forall_forall in Hd; exact (Hd e He).
Qed.

(** X5. [recompute_targets] reads the forward pass through one entry of
    [outputs]: without an entry named "cartesian position" both hooks raise
    [KeyError], whatever the tensors. With it, on tensors of matching shapes,
    both return targets of the shape [(batch, time, 4)] of the targets they
    were given. *)
Theorem recompute_targets_key_and_shape {I S : Type} (b t d di : nat)
    (inputs_reach : I) (inputs_load : tensor3 F * S)
    (targets : tensor3 F) (outputs : dict F) :
  ((forall v, ~ In ("cartesian position"%string, v) outputs) ->
   TaskDelayedReach_hook.recompute_targets inputs_reach targets outputs
   = Raise KeyError /\
   TaskLoadProbability_hook.recompute_targets inputs_load targets outputs
   = Raise KeyError) /\
  (forall cp,
     getitem outputs "cartesian position" = Ret cp ->
     has_shape3 b t d cp = true -> 2 <= d ->
     has_shape3 b t 4 targets = true ->
     has_shape3 b t di (fst inputs_load) = true -> 4 <= di ->
     (exists targets',
        TaskDelayedReach_hook.recompute_targets inputs_reach targets outputs
        = Ret targets' /\ has_shape3 b t 4 targets' = true) /\
     (exists targets',
        TaskLoadProbability_hook.recompute_targets inputs_load targets
          outputs = Ret targets' /\ has_shape3 b t 4 targets' = true)).
Proof.
  split.
  - intros Hmissing.
    unfold TaskDelayedReach_hook.recompute_targets,
      TaskLoadProbability_hook.recompute_targets.
    rewrite (getitem_missing _ _ Hmissing); split; reflexivity.
  - intros cp Hout Hcp Hd Htg Hin Hdi.
    pose proof Hcp as Hcp'; pose proof Htg as Htg'; pose proof Hin as Hin'.
    apply has_shape3_spec in Hcp'; destruct Hcp' as [Lcp Rcp].
    apply has_shape3_spec in Htg'; destruct Htg' as [Ltg Rtg].
    apply has_shape3_spec in Hin'; destruct Hin' as [Lin Rin].
    assert (Hpair : Forall (Forall (fun e : list F * list F =>
                                      length (snd e) = 4))
                           (pair_rows cp targets)).
    { eapply Forall2d_impl;
        [|exact (pair_rows_Forall (fun _ => True) (fun q => length q = 4)
                   cp targets
                   (Forall2d_impl _ _ _ (fun _ _ => Logic.I)
                      (rows_of_rows _ _ _ Rcp))
                   (rows_of_rows _ _ _ Rtg))].
      intros e [_ He]; exact He. }
    assert (Lpair : Forall (fun m : list (list F * list F) => length m = t)
                           (pair_rows cp targets))
      by (apply pair_rows_length;
          [exact (rows_of_lengths _ _ _ Rcp)
          | exact (rows_of_lengths _ _ _ Rtg)]).
    split.
    + eexists; split;
        [exact (reach_hook_on_shapes b t d inputs_reach _ _ _ Hout Hcp Hd
                  Htg)|].
      apply has_shape3_map_cells.
      * rewrite length_pair_rows; lia.
      * exact Lpair.
      * revert Hpair; apply Forall2d_impl; intros [p q] Hq.
        apply lock_length; exact Hq.
    + eexists; split;
        [exact (load_hook_on_shapes b t d di inputs_load _ _ _ Hout Hin Hdi
                  Hcp Hd Htg)|].
      apply has_shape3_map_cells.
      * rewrite !length_pair_rows; lia.
      * apply pair_rows_length;
          [exact (rows_of_lengths _ _ _ Rin) | exact Lpair].
      * eapply Forall2d_impl;
          [|exact (pair_rows_Forall (fun _ => True)
                     (fun e : list F * list F => length (snd e) = 4)
                     (fst inputs_load) (pair_rows cp targets)
                     (Forall2d_impl _ _ _ (fun _ _ => Logic.I)
                        (rows_of_rows _ _ _ Rin))
                     Hpair)].
        intros [m [p q]] [_ Hq]; unfold load_cell.
        apply lock_length; exact Hq.
Qed.
End HookShapes.

(** ** What the hooks read of their inputs *)

Lemma tensor_ext {E : Type} (x y : list (list E)) :
  length x = length y ->
  (forall i j, cell_at x i j = cell_at y i j) -> x = y.
Proof.
  intros Hlen Hcells; apply nth_error_ext; intros i.
  destruct (nth_error x i) as [m|] eqn:Ex, (nth_error y i) as [m'|] eqn:Ey.
  - f_equal; apply nth_error_ext; intros j.
    specialize (Hcells i j); unfold cell_at in Hcells.
    rewrite Ex, Ey in Hcells; exact Hcells.
  - apply nth_error_lt in Ex; apply nth_error_None in Ey; lia.
  - apply nth_error_lt in Ey; apply nth_error_None in Ex; lia.
  - reflexivity.
Qed.

Lemma cell_at_in_shape {E : Type} (b t : nat) (x : list (list E))
    (i j : nat) :
  length x = b -> Forall (fun m => length m = t) x ->
  (exists e, cell_at x i j = Some e) <-> i < b /\ j < t.
Proof.
  intros Hb Ht; unfold cell_at; rewrite Forall_forall in Ht; split.
  - intros [e He].
    destruct (nth_error x i) as [m|] eqn:Em; [|discriminate He].
    pose proof (nth_error_lt _ _ _ Em).
    pose proof (nth_error_lt _ _ _ He).
    rewrite (Ht m (nth_error_In _ _ Em)) in *; lia.
  - intros [Hi Hj].
    destruct (nth_error x i) as [m|] eqn:Em;
      [|apply nth_error_None in Em; lia].
    destruct (nth_error m j) as [e|] eqn:Ee; [eauto|].
    apply nth_error_None in Ee.
    rewrite (Ht m (nth_error_In _ _ Em)) in Ee; lia.
Qed.

Section HookInputs.
Context {F : Type} `{Scalar F}.

(** X6. What the hooks read of [inputs]. [TaskDelayedReach.recompute_targets]
    does not read them: any two give the same result.
    [TaskLoadProbability.recompute_targets] reads the marker channel,
    channel 3 of [inputs[0]], and nothing else: two inputs of one batch and
    time shape that agree on that channel give the same result, whatever
    their other channels and their initial states. *)
Theorem hooks_read_the_marker_only {I I' S S' : Type} (b t d di di' : nat)
    (inputs_reach : I) (inputs_reach' : I')
    (inputs_load : tensor3 F * S) (inputs_load' : tensor3 F * S')
    (targets cp : tensor3 F) (outputs : dict F) :
  TaskDelayedReach_hook.recompute_targets inputs_reach targets outputs
  = TaskDelayedReach_hook.recompute_targets inputs_reach' targets outputs /\
  (getitem outputs "cartesian position" = Ret cp ->
   has_shape3 b t d cp = true -> 2 <= d ->
   has_shape3 b t 4 targets = true ->
   has_shape3 b t di (fst inputs_load) = true -> 4 <= di ->
   has_shape3 b t di' (fst inputs_load') = true -> 4 <= di' ->
   (forall i j m m',
      cell_at (fst inputs_load) i j = Some m ->
      cell_at (fst inputs_load') i j = Some m' ->
      nth_error m 3 = nth_error m' 3) ->
   TaskLoadProbability_hook.recompute_targets inputs_load targets outputs
   = TaskLoadProbability_hook.recompute_targets inputs_load' targets
       outputs).
Proof.
  split; [reflexivity|].
  intros Hout Hcp Hd Htg Hin Hdi Hin' Hdi' Hmarker.
  rewrite (load_hook_on_shapes b t d di inputs_load _ _ _ Hout Hin Hdi Hcp Hd
             Htg).
  rewrite (load_hook_on_shapes b t d di' inputs_load' _ _ _ Hout Hin' Hdi'
             Hcp Hd Htg).
  f_equal.
  apply has_shape3_spec in Hin; destruct Hin as [Lin Rin].
  apply has_shape3_spec in Hin'; destruct Hin' as [Lin' Rin'].
  apply tensor_ext.
  - rewrite !length_map, !length_pair_rows; lia.
  - intros i j; rewrite !cell_at_map2, !cell_at_pair_rows.
    pose proof (cell_at_in_shape b t (fst inputs_load) i j Lin
                  (rows_of_lengths _ _ _ Rin)) as Hs.
    pose proof (cell_at_in_shape b t (fst inputs_load') i j Lin'
                  (rows_of_lengths _ _ _ Rin')) as Hs'.
    destruct (cell_at (fst inputs_load) i j) as [m|] eqn:Em,
             (cell_at (fst inputs_load') i j) as [m'|] eqn:Em'.
    + destruct (cell_at cp i j) as [p|]; [|reflexivity].
      destruct (cell_at targets i j) as [q|]; [|reflexivity].
      cbn [option_map]; f_equal.
      unfold load_cell, flagged.
      rewrite (Hmarker i j m m' Em Em'); reflexivity.
    + exfalso.
      assert (Hij : i < b /\ j < t) by (apply Hs; eauto).
      apply Hs' in Hij; destruct Hij as [e He]; discriminate He.
    + exfalso.
      assert (Hij : i < b /\ j < t) by (apply Hs'; eauto).
      apply Hs in Hij; destruct Hij as [e He]; discriminate He.
    + reflexivity.
Qed.
End HookInputs.

(** ** When [TaskDelayedReach.generate] returns *)

Section ForRangeProgress.
Context {S : Type}.
Variable body : nat -> S -> res S.
Variable Inv : nat -> S -> Prop.

Lemma for_range_progress (start count : nat) (s : S) :
  (forall i s1, start <= i < start + count -> Inv i s1 ->
     exists s2, body i s1 = Ret s2 /\ Inv (Datatypes.S i) s2) ->
  Inv start s ->
  exists s', for_range body start count s = Ret s' /\ Inv (start + count) s'.
Proof.
  revert start s; induction count as [|count IH]; intros start s Hstep H0;
    simpl.
  - exists s; split; [reflexivity | rewrite Nat.add_0_r; exact H0].
  - destruct (Hstep start s) as (s2 & Hb & H2); [lia | exact H0 |].
    rewrite Hb; simpl.
    replace (start + Datatypes.S count) with (Datatypes.S start + count)
      by lia.
    apply IH; [|exact H2].
    intros i s1 Hi; apply Hstep; lia.
Qed.
End ForRangeProgress.

(** [np.squeeze] of the positions of a trial: a trial of one timestep loses
    its time axis. *)
Lemma squeeze_positions (g : list Q) (n : nat) :
  2 <= length g ->
  squeeze (map (fun v => firstn 2 v) (repeat g n))
  = if Nat.eqb n 1 then Arr1 (firstn 2 g)
    else Arr2 (map (fun v => firstn 2 v) (repeat g n)).
Proof.
  intros Hg.
  destruct g as [|a [|b g]]; simpl in Hg; try lia.
  destruct n as [|[|n]]; reflexivity.
Qed.

Lemma tf_stack_same_length (xs : list (tensor2 Q)) (n : nat) :
  Forall (fun x => length x = n) xs -> returns (tf_stack xs) = true.
Proof.
  intros Hall; unfold tf_stack.
  destruct xs as [|x xs']; [reflexivity|].
  match goal with
  | |- returns (if ?b then _ else _) = _ => assert (Hf : b = true)
  end.
  { apply forallb_forall; intros y Hy; apply Nat.eqb_eq.
    rewrite Forall_forall in Hall.
    rewrite (Hall y Hy), (Hall x (or_introl eq_refl)); reflexivity. }
  rewrite Hf; reflexivity.
Qed.

Section ReachReturns.
Variable cfg : TaskDelayedReach.
Variable n_timesteps : nat.
Variable c : list Q.
Variable draws : list Q.

(** The delay that trial [k] samples. *)
Definition reach_delay (k : nat) : Z :=
  py_int (uniform (fst (dr_delay_range cfg)) (snd (dr_delay_range cfg))
                  (nth k draws 0%Q)).

(** The cue of trial [k] fits into the trial. *)
Definition reach_cue_in_trial (k : nat) : Prop :=
  (0 <= reach_delay k)%Z /\ (0 <= dr_bump_length cfg)%Z /\
  (reach_delay k + dr_bump_length cfg <= Z.of_nat n_timesteps)%Z.

Lemma reach_bump_fits (k : nat) :
  reach_cue_in_trial k ->
  exists bump,
    reach_bump cfg n_timesteps (reach_delay k) = Ret bump /\
    length bump = n_timesteps.
Proof.
  intros (H0 & H1 & H2); unfold reach_bump, np_zeros, np_ones, np_full.
  destruct (Z.ltb_spec (reach_delay k) 0); [lia|]; simpl.
  destruct (Z.ltb_spec (dr_bump_length cfg) 0); [lia|]; simpl.
  destruct (Z.ltb_spec (Z.of_nat n_timesteps - reach_delay k
                        - dr_bump_length cfg) 0); [lia|]; simpl.
  eexists; split; [reflexivity|].
  rewrite !length_app, length_map, !repeat_length; lia.
Qed.

(** One turn of the loop on a trial that still holds its goal [g]. *)
Lemma reach_trial_returns (k : nat) (acc : list (tensor2 Q))
    (arr : tensor3 Q) (g : list Q) :
  reach_cue_in_trial k -> n_timesteps <> 1 ->
  2 <= length g -> length g = length c ->
  nth_error arr k = Some (repeat g n_timesteps) ->
  exists row tgt,
    reach_trial cfg n_timesteps [c] draws k (acc, arr)
    = Ret (acc ++ [row], firstn k arr ++ tgt :: skipn (S k) arr) /\
    length row = n_timesteps.
Proof.
  intros Hfit Hn Hg Hgc Hk.
  destruct (reach_bump_fits k Hfit) as (bump & Hbump & Hlen).
  unfold reach_trial.
  change (generate_delay_time (fst (dr_delay_range cfg))
            (snd (dr_delay_range cfg)) "random" (nth k draws 0%Q))
    with (Ret (reach_delay k)).
  cbn [bind]; rewrite Hbump; cbn [bind].
  unfold getitem_list; rewrite Hk; cbn [bind].
  rewrite (squeeze_positions g n_timesteps Hg).
  destruct (Nat.eqb_spec n_timesteps 1) as [|_]; [contradiction|].
  cbn [concatenate_axis1 bind].
  unfold expand_dims1; rewrite !length_map, repeat_length, Hlen.
  rewrite Nat.eqb_refl; cbn [bind].
  unfold update_trial; rewrite Hk.
  rewrite setitem_rows_one_row.
  2:{ apply Forall_forall; intros v Hv; apply repeat_spec in Hv; subst v.
      exact Hgc. }
  cbn [bind].
  eexists; eexists; split; [reflexivity|].
  rewrite length_map, length_combine, !length_map, repeat_length, Hlen.
  apply Nat.min_id.
Qed.
End ReachReturns.

(** ** What [TaskLoadProbability.generate] returns *)

Lemma zipM_closed {A B C : Type} (f : A -> B -> res C) (h : A -> B -> C)
    (xs : list A) (ys : list B) :
  Forall2 (fun x y => f x y = Ret (h x y)) xs ys ->
  zipM f xs ys = Ret (map (fun xy => h (fst xy) (snd xy)) (combine xs ys)).
Proof.
  induction 1 as [|x y xs ys Hxy Hall IH]; simpl; [reflexivity|].
  rewrite Hxy; simpl; rewrite IH; reflexivity.
Qed.

Lemma Forall2_of_Forall {A B : Type} (P : A -> Prop) (R : B -> Prop)
    (xs : list A) (ys : list B) :
  length xs = length ys -> Forall P xs -> Forall R ys ->
  Forall2 (fun x y => P x /\ R y) xs ys.
Proof.
  intros Hlen Hx; revert ys Hlen.
  induction Hx as [|x xs Hx Hxs IH]; intros [|y ys] Hlen Hy;
    simpl in Hlen; try discriminate; constructor.
  - inversion Hy; auto.
  - apply IH; [lia | inversion Hy; assumption].
Qed.

(** Writing the columns [c0:c1] of rows wide enough, from rows of the width
    of the slice. *)
Lemma setitem_cols_closed (x rhs : tensor2 Q) (c0 c1 w : nat) :
  c0 <= c1 -> c1 <= w -> length rhs = length x ->
  Forall (fun old => length old = w) x ->
  Forall (fun new => length new = c1 - c0) rhs ->
  setitem_cols x c0 c1 rhs
  = Ret (map (fun on => firstn c0 (fst on) ++ snd on ++ skipn c1 (fst on))
             (combine x rhs)).
Proof.
  intros H01 H1w Hlen Hx Hrhs; unfold setitem_cols.
  rewrite <- Hlen, broadcast_to_same; cbn [bind].
  apply (zipM_closed _
           (fun old new => firstn c0 old ++ new ++ skipn c1 old)).
  eapply Forall2_impl;
    [|exact (Forall2_of_Forall _ _ x rhs (eq_sym Hlen) Hx Hrhs)].
  intros old new [Hold Hnew]; cbn beta in Hold, Hnew.
  rewrite Hold, (slice_bounds_within w c0 c1 H01 H1w).
  rewrite <- Hnew, broadcast_to_same; reflexivity.
Qed.

Lemma expand_dims1_rows (v : list Q) :
  length (expand_dims1 v) = length v /\
  Forall (fun r => length r = 1) (expand_dims1 v) /\
  forall t, nth_error (expand_dims1 v) t
            = option_map (fun a => [a]) (nth_error v t).
Proof.
  unfold expand_dims1; split; [apply length_map | split].
  - apply Forall_forall; intros r Hr; apply in_map_iff in Hr.
    destruct Hr as (a & <- & _); reflexivity.
  - intros t; apply nth_error_map.
Qed.

(** The three assignments fill row [t] with [input_1[t]], [input_2[t]] and
    the two load channels. *)
Lemma load_input_closed (n : nat) (input_1 input_2 : list Q)
    (p x : tensor2 Q) :
  length input_1 = n -> length input_2 = n -> length p = n ->
  length x = n ->
  Forall (fun q => length q = 2) p -> Forall (fun r => length r = 4) x ->
  exists x',
    load_input input_1 input_2 p x = Ret x' /\ length x' = n /\
    forall t a b q,
      nth_error input_1 t = Some a -> nth_error input_2 t = Some b ->
      nth_error p t = Some q -> nth_error x' t = Some (a :: b :: q).
Proof.
  intros L1 L2 Lp Lx Wp Wx; unfold load_input.
  destruct (expand_dims1_rows input_1) as (E1l & E1w & E1n).
  destruct (expand_dims1_rows input_2) as (E2l & E2w & E2n).
  rewrite (setitem_cols_closed x _ 0 1 4) by (lia || assumption).
  cbn [bind].
  set (m1 := map _ (combine x (expand_dims1 input_1))).
  assert (Lm1 : length m1 = n)
    by (unfold m1; rewrite length_map, length_combine; lia).
  assert (Wm1 : Forall (fun r : list Q => length r = 4) m1).
  { apply (setitem_cols_widths 4 x m1 0 1 (expand_dims1 input_1));
      [|exact Wx].
    apply (setitem_cols_closed x _ 0 1 4); lia || assumption. }
  rewrite (setitem_cols_closed m1 _ 1 2 4) by (lia || assumption).
  cbn [bind].
  set (m2 := map _ (combine m1 (expand_dims1 input_2))).
  assert (Lm2 : length m2 = n)
    by (unfold m2; rewrite length_map, length_combine; lia).
  assert (Wm2 : Forall (fun r : list Q => length r = 4) m2).
  { apply (setitem_cols_widths 4 m1 m2 1 2 (expand_dims1 input_2));
      [|exact Wm1].
    apply (setitem_cols_closed m1 _ 1 2 4); lia || assumption. }
  rewrite (setitem_cols_closed m2 _ 2 4 4) by (lia || assumption).
  eexists; split; [reflexivity|].
  split; [rewrite length_map, length_combine; lia|].
  intros t a b q Ha Hb Hq.
  assert (Ht : t < n) by (rewrite <- Lp; exact (nth_error_lt _ _ _ Hq)).
  destruct (nth_error x t) as [old|] eqn:Eold;
    [|apply nth_error_None in Eold; lia].
  assert (Hold : length old = 4).
  { rewrite Forall_forall in Wx; exact (Wx old (nth_error_In _ _ Eold)). }
  rewrite nth_error_map, nth_error_combine, Hq.
  unfold m2; rewrite nth_error_map, nth_error_combine, E2n, Hb.
  unfold m1; rewrite nth_error_map, nth_error_combine, E1n, Ha, Eold.
  cbn [option_map fst snd].
  destruct old as [|o0 [|o1 [|o2 [|o3 [|o4 old]]]]]; simpl in Hold; try lia.
  assert (Hq2 : length q = 2).
  { rewrite Forall_forall in Wp; exact (Wp q (nth_error_In _ _ Hq)). }
  destruct q as [|q0 [|q1 [|q2 q]]]; simpl in Hq2; try lia.
  reflexivity.
Qed.

Section LoadReturns.
Variable cfg : TaskLoadProbability.
Variable n_timesteps : nat.
Variable draws : list load_draws.

(** What trial [k] draws: its delay, its perturbation time, its
    probability and its load. *)
Definition load_delay (k : nat) : Z :=
  py_int (uniform (fst (lp_delay_range cfg)) (snd (lp_delay_range cfg))
                  (ld_delay (load_draw draws k))).

Definition load_pert_time (k : nat) : Z :=
  (load_delay k + lp_fixation_time cfg)%Z.

Definition load_prob (k : nat) : Q :=
  nth (ld_prob_index (load_draw draws k)) prob_array 0%Q.

(** A probability channel: zero up to and including step [fixation_time],
    [v] afterwards. *)
Definition load_cue (v : Q) (t : nat) : Q :=
  if Nat.leb (clamp n_timesteps (lp_fixation_time cfg + 1)) t
  then v else 0%Q.

(** The input of trial [k] at timestep [t]. *)
Definition load_input_row (k t : nat) : list Q :=
  [load_cue (load_prob k) t;
   load_cue (1 - load_prob k)%Q t;
   0%Q;
   load_marker n_timesteps (is_catch (load_draw draws k))
     (load_pert_time k)
     (load_pert (load_prob k) (ld_sign (load_draw draws k))) t].

(** The target of trial [k] at timestep [t]: the center [c] throughout a
    catch trial, and before the perturbation time otherwise; the goal [g]
    from the perturbation time on. *)
Definition load_target_row (c g : list Q) (k t : nat) : list Q :=
  if is_catch (load_draw draws k) then c
  else if Nat.ltb t (clamp n_timesteps (load_pert_time k)) then c else g.

Lemma nth_error_load_cue (v : Q) (t : nat) :
  t < n_timesteps ->
  nth_error (setitem_scalar (repeat 0%Q n_timesteps)
               (Some (lp_fixation_time cfg + 1)%Z) None v) t
  = Some (load_cue v t).
Proof.
  intros Ht.
  rewrite nth_error_setitem_scalar by (rewrite repeat_length; exact Ht).
  rewrite repeat_length; unfold slice_bounds, load_cue; cbn [fst snd].
  pose proof (clamp_le n_timesteps (lp_fixation_time cfg + 1)) as Hc.
  destruct (Nat.leb_spec (clamp n_timesteps (lp_fixation_time cfg + 1)) t);
    cbn [andb].
  - destruct (Nat.ltb_spec t (Nat.max (clamp n_timesteps
                                         (lp_fixation_time cfg + 1))
                                      n_timesteps)); [reflexivity | lia].
  - apply nth_error_repeat; exact Ht.
Qed.

Lemma nth_error_load_target (c g : list Q) (k t : nat) :
  t < n_timesteps ->
  nth_error
    (setitem_scalar (repeat g n_timesteps)
       (if is_catch (load_draw draws k) then None else Some 0%Z)
       (if is_catch (load_draw draws k) then None
        else Some (load_pert_time k)) c) t
  = Some (load_target_row c g k t).
Proof.
  intros Ht.
  rewrite nth_error_setitem_scalar by (rewrite repeat_length; exact Ht).
  rewrite repeat_length, nth_error_repeat by exact Ht.
  unfold load_target_row, slice_bounds.
  destruct (is_catch (load_draw draws k)); cbn [fst snd].
  - destruct (Nat.ltb_spec t (Nat.max 0 n_timesteps)); [reflexivity | lia].
  - change (clamp n_timesteps 0) with (Nat.min 0 n_timesteps).
    rewrite Nat.min_0_l, Nat.max_0_l; cbn [Nat.leb andb].
    destruct (Nat.ltb t (clamp n_timesteps (load_pert_time k)));
      reflexivity.
Qed.

(** One turn of the loop on a trial that still holds zeros and its goal. *)
Lemma load_trial_returns (c g : list Q) (k : nat) (xs ys : tensor3 Q) :
  length g = length c ->
  ld_prob_index (load_draw draws k) < 5 ->
  nth_error xs k = Some (repeat [0; 0; 0; 0]%Q n_timesteps) ->
  nth_error ys k = Some (repeat g n_timesteps) ->
  exists x' y',
    load_trial cfg n_timesteps [c] draws k (xs, ys)
    = Ret (firstn k xs ++ x' :: skipn (S k) xs,
           firstn k ys ++ y' :: skipn (S k) ys) /\
    length x' = n_timesteps /\ length y' = n_timesteps /\
    forall t, t < n_timesteps ->
      nth_error x' t = Some (load_input_row k t) /\
      nth_error y' t = Some (load_target_row c g k t).
Proof.
  intros Hgc Hidx Hx Hy.
  assert (Hprob : nth_error prob_array (ld_prob_index (load_draw draws k))
                  = Some (load_prob k)).
  { unfold load_prob; apply nth_error_nth'; exact Hidx. }
  assert (Hwg : Forall (fun old : list Q => length old = length c)
                       (repeat g n_timesteps)).
  { apply Forall_forall; intros v Hv; apply repeat_spec in Hv; subst v.
    exact Hgc. }
  assert (Hge : greater_equal (ld_catch (load_draw draws k)) (2 # 10)
                = negb (is_catch (load_draw draws k)))
    by (unfold is_catch; rewrite negb_involutive; reflexivity).
  pose proof (nth_error_load_target c g k) as Htarget.
  unfold load_input_row, load_target_row in *.
  revert Hge Htarget.
  generalize (is_catch (load_draw draws k)); intros catch Hge Htarget.
  set (pert := load_pert (load_prob k) (ld_sign (load_draw draws k))).
  destruct (load_perturbation n_timesteps catch (load_pert_time k) pert)
    as [p|e] eqn:Ep.
  2:{ unfold load_perturbation in Ep; destruct catch; [discriminate Ep|].
      rewrite setitem_col_scalar_pairs in Ep; discriminate Ep. }
  destruct (load_perturbation_rows n_timesteps catch (load_pert_time k) pert
              p Ep) as [Lp Hp].
  assert (Wp : Forall (fun q : list Q => length q = 2) p).
  { apply Forall_nth_error_intro; intros t q Hq.
    rewrite Hp in Hq by (rewrite <- Lp; exact (nth_error_lt _ _ _ Hq)).
    injection Hq as <-; reflexivity. }
  destruct (load_input_closed n_timesteps
              (setitem_scalar (repeat 0%Q n_timesteps)
                 (Some (lp_fixation_time cfg + 1)%Z) None (load_prob k))
              (setitem_scalar (repeat 0%Q n_timesteps)
                 (Some (lp_fixation_time cfg + 1)%Z) None
                 (1 - load_prob k)%Q)
              p (repeat [0; 0; 0; 0]%Q n_timesteps))
    as (x' & Hin & Lx' & Hrows).
  { rewrite length_setitem_scalar; apply repeat_length. }
  { rewrite length_setitem_scalar; apply repeat_length. }
  { exact Lp. }
  { apply repeat_length. }
  { exact Wp. }
  { apply Forall_forall; intros v Hv; apply repeat_spec in Hv; subst v.
    reflexivity. }
  exists x',
    (setitem_scalar (repeat g n_timesteps)
       (if catch then None else Some 0%Z)
       (if catch then None else Some (load_pert_time k)) c).
  split; [|split; [exact Lx'|split]].
  - unfold load_trial; fold (load_draw draws k).
    unfold np_zeros, np_full.
    destruct (Z.ltb_spec (Z.of_nat n_timesteps) 0) as [Hneg|_]; [lia|].
    cbn [bind]; rewrite Nat2Z.id.
    change (generate_delay_time (fst (lp_delay_range cfg))
              (snd (lp_delay_range cfg)) "random"
              (ld_delay (load_draw draws k)))
      with (Ret (load_delay k)).
    cbn [bind]; fold (load_pert_time k).
    unfold getitem_list at 1; rewrite Hprob; cbn [bind].
    unfold update_trial; rewrite Hy, Hx, Hge.
    fold pert.
    unfold load_perturbation in Ep.
    destruct catch; cbn [negb bind].
    + apply Ret_inj in Ep; subst p.
      rewrite setitem_rows_one_row by exact Hwg; cbn [bind].
      rewrite Hin; reflexivity.
    + rewrite setitem_rows_one_row by exact Hwg; cbn [bind].
      rewrite Ep; cbn [bind].
      rewrite Hin; reflexivity.
  - rewrite length_setitem_scalar; apply repeat_length.
  - intros t Ht; split.
    + apply Hrows.
      * apply nth_error_load_cue; exact Ht.
      * apply nth_error_load_cue; exact Ht.
      * rewrite (Hp t Ht); reflexivity.
    + apply Htarget; exact Ht.
Qed.
End LoadReturns.

(** ** The static generators *)

Lemma slice_last_from_0 (k : nat) (x : tensor3 Q) :
  TF.slice_last 0 k x = map (map (firstn k)) x.
Proof. unfold TF.slice_last; rewrite Nat.sub_0_r; reflexivity. Qed.

Lemma concat_last_cells (x y z : tensor3 Q) (k t : nat) (u v : list Q) :
  TF.concat_last x y = Ret z ->
  cell_at x k t = Some u -> cell_at y k t = Some v ->
  cell_at z k t = Some (u ++ v).
Proof.
  unfold TF.concat_last, cell_at; intros Hz Hu Hv.
  destruct (nth_error x k) as [mx|] eqn:Ex; [|discriminate Hu].
  destruct (nth_error y k) as [my|] eqn:Ey; [|discriminate Hv].
  destruct (zipM_nth_error _ _ _ _ _ _ _ Hz Ex Ey) as (mz & Hmz & ->).
  destruct (zipM_nth_error _ _ _ _ _ _ _ Hmz Hu Hv) as (w & Hw & ->).
  apply Ret_inj in Hw; subst w; reflexivity.
Qed.

Lemma concat_last_lengths (x y z : tensor3 Q) (k : nat) (mx : tensor2 Q) :
  TF.concat_last x y = Ret z -> nth_error x k = Some mx ->
  length x = length y /\
  exists my, nth_error y k = Some my /\ length mx = length my.
Proof.
  unfold TF.concat_last; intros Hz Hx.
  destruct (zipM_length _ _ _ _ Hz) as [L1 L2].
  split; [congruence|].
  assert (Hk : k < length y)
    by (rewrite <- L2, L1; exact (nth_error_lt _ _ _ Hx)).
  destruct (nth_error y k) as [my|] eqn:Ey;
    [|apply nth_error_None in Ey; lia].
  exists my; split; [reflexivity|].
  destruct (zipM_nth_error _ _ _ _ _ _ _ Hz Hx Ey) as (mz & Hmz & _).
  destruct (zipM_length _ _ _ _ Hmz); congruence.
Qed.

(** ** The generators and the base class on a plant *)

Section MoreGeneratorFacts.
Variable State : Type.
Variable joint_state : State -> tensor2 Q.
Variable controller_get_initial_state : nat -> option (tensor2 Q) -> State.
Variable joint2cartesian : tensor2 Q -> tensor2 Q.

Local Abbreviation initial_state :=
  (get_initial_state State controller_get_initial_state).
Local Abbreviation center := (center_of State joint_state joint2cartesian).
Local Abbreviation reach_generate :=
  (TaskDelayedReach_generate State joint_state controller_get_initial_state
     joint2cartesian).
Local Abbreviation load_generate :=
  (TaskLoadProbability_generate State joint_state
     controller_get_initial_state joint2cartesian).
Local Abbreviation multi_generate :=
  (TaskDelayedMultiReach_generate State joint_state
     controller_get_initial_state joint2cartesian).
Local Abbreviation static_generate :=
  (TaskStaticTarget_generate State controller_get_initial_state
     joint2cartesian).
Local Abbreviation perturbed_generate :=
  (TaskStaticTargetWithPerturbations_generate State
     controller_get_initial_state joint2cartesian).

(** *** [Task.get_initial_state] *)

Lemma mapM_getitem_list {A : Type} (pool : list A) (i : list nat) :
  Forall (fun j => j < length pool) i ->
  exists rows,
    mapM (getitem_list pool) i = Ret rows /\
    length rows = length i /\
    forall k j, nth_error i k = Some j -> nth_error rows k = nth_error pool j.
Proof.
  induction 1 as [|j i Hj Hi (rows & Hrows & Hlen & Hnth)]; simpl.
  - exists []; split; [reflexivity | split; [reflexivity|]].
    intros [|k] j Hk; discriminate Hk.
  - unfold getitem_list at 1.
    destruct (nth_error pool j) as [row|] eqn:Erow;
      [|apply nth_error_None in Erow; lia].
    simpl; rewrite Hrows; simpl.
    exists (row :: rows); split; [reflexivity | split; [simpl; lia|]].
    intros [|k] j' Hk; simpl in *.
    + injection Hk as <-; symmetry; exact Erow.
    + exact (Hnth k j' Hk).
Qed.

(** X7. A task built without [initial_joint_state] asks the controller for
    its own initial state ([inputs=None]). A task built with one forwards, for
    indices drawn below the size of the pool, one state per index, each the
    state of the pool at that index: the controller never receives a state
    that was not supplied. *)
Theorem initial_states_come_from_the_pool (init : array_like)
    (batch_size : nat) (i : list nat) :
  let self := Task_init (Some init) in
  let pool := match init with Vector v => [v] | Matrix m => m end in
  initial_state (Task_init None) batch_size i
  = Ret (controller_get_initial_state batch_size None) /\
  (pool <> [] -> Forall (fun j => j < length pool) i ->
   exists rows,
     initial_state self batch_size i
     = Ret (controller_get_initial_state batch_size (Some rows)) /\
     length rows = length i /\
     forall k j, nth_error i k = Some j ->
       nth_error rows k = nth_error pool j).
Proof.
  intros self pool; split; [reflexivity|].
  assert (Hself : initial_joint_state self = Some pool)
    by (destruct init; reflexivity).
  assert (Hn : n_initial_joint_states self = Some (length pool))
    by (destruct init; reflexivity).
  intros Hpool Hi.
  destruct (mapM_getitem_list pool i Hi) as (rows & Hrows & Hlen & Hnth).
  exists rows; split; [|split; assumption].
  unfold get_initial_state, forwarded_inputs; rewrite Hself, Hn.
  destruct pool as [|row pool']; [congruence|].
  cbn [length]; rewrite Hrows; reflexivity.
Qed.

(** *** The items of the sequence *)

(** X8. A task as a [tf.keras.utils.Sequence], after
    [set_training_params(batch_size, n_timesteps, iterations)]: its length is
    [iterations]; the item at any index, also one beyond the length, is
    [generate(batch_size, n_timesteps)] regrouped as
    [([inputs, init_states], targets)], and raises exactly when [generate]
    does; and the pool of initial joint states is left as it was, so initial
    states are drawn as before. *)
Theorem sequence_items_are_training_batches
    (generate : nat -> nat -> res (tf_tensor * tensor3 Q * State))
    (self : Task) (batch_size n_timesteps iterations : nat) (idx : Z)
    (b : nat) (i : list nat) :
  let self' := set_training_params self batch_size n_timesteps iterations in
  Task_len self' = iterations /\
  (forall inputs targets init_states,
     Task_getitem State generate self' idx
     = Ret ((inputs, init_states), targets) <->
     generate batch_size n_timesteps = Ret (inputs, targets, init_states)) /\
  (forall e,
     Task_getitem State generate self' idx = Raise e <->
     generate batch_size n_timesteps = Raise e) /\
  initial_state self' b i = initial_state self b i.
Proof.
  intros self'; split; [reflexivity|].
  unfold Task_getitem; cbn [self' set_training_params training_batch_size
                              training_n_timesteps].
  split; [|split; [|reflexivity]].
  - intros inputs targets st.
    destruct (generate batch_size n_timesteps) as [[[inp tg] s]|e];
      cbn [bind]; split; intros Heq; try discriminate Heq.
    + apply Ret_inj in Heq; injection Heq as -> -> ->; reflexivity.
    + apply Ret_inj in Heq; injection Heq as -> -> ->; reflexivity.
  - intros e.
    destruct (generate batch_size n_timesteps) as [[[inp tg] s]|e'];
      cbn [bind]; split; intros Heq; try discriminate Heq;
      injection Heq as ->; reflexivity.
Qed.

Lemma center_of_row (init_states : State) (row0 : list Q) :
  nth_error (joint_state init_states) 0 = Some row0 ->
  center init_states = Ret (joint2cartesian [row0]).
Proof.
  intros Hrow; unfold center_of, getitem_list; rewrite Hrow; reflexivity.
Qed.

Lemma reach_generate_returns_iff (self : Task) (cfg : TaskDelayedReach)
    (batch_size n_timesteps : nat) (i : list nat) (goal_states : tensor2 Q)
    (draws : list Q) (init_states : State) (row0 c : list Q) :
  initial_state self batch_size i = Ret init_states ->
  nth_error (joint_state init_states) 0 = Some row0 ->
  joint2cartesian [row0] = [c] ->
  has_shape2 batch_size (length c) (joint2cartesian goal_states) = true ->
  2 <= length c ->
  returns (reach_generate self cfg batch_size n_timesteps i goal_states draws)
  = true <->
  (1 <= batch_size -> n_timesteps <> 1) /\
  forall k, k < batch_size -> reach_cue_in_trial cfg n_timesteps draws k.
Proof.
  intros Hinit Hrow0 Hcenter Hshape Hc.
  apply has_shape2_inv in Hshape; destruct Hshape as [Hb Hw].
  assert (Hgoal : forall k, k < batch_size ->
            exists g, nth_error (state2target (joint2cartesian goal_states)
                                   n_timesteps) k
                      = Some (repeat g n_timesteps) /\
                      length g = length c).
  { intros k Hk.
    destruct (nth_error (joint2cartesian goal_states) k) as [g|] eqn:Eg;
      [|apply nth_error_None in Eg; lia].
    exists g; split; [apply nth_error_state2target; exact Eg|].
    exact (Hw g (nth_error_In _ _ Eg)). }
  unfold TaskDelayedReach_generate.
  rewrite Hinit; cbn [bind].
  rewrite (center_of_row _ _ Hrow0), Hcenter; cbn [bind].
  split.
  - intros Hret.
    destruct (for_range _ 0 batch_size _) as [[acc arr]|e] eqn:Eloop;
      [|discriminate Hret].
    cbn [bind fst snd] in Hret.
    pose proof (append_update_loop
                  (reach_trial cfg n_timesteps [c] draws)
                  (reach_turn cfg n_timesteps [c] draws)
                  (reach_trial_Ret cfg n_timesteps [c] draws)
                  _ _ _ Eloop) as (Hacc & _ & Hturns & _).
    cbn [fst snd] in *.
    assert (Hturn : forall k, k < batch_size ->
              n_timesteps <> 1 /\ reach_cue_in_trial cfg n_timesteps draws k).
    { intros k Hk.
      destruct (Hturns k Hk) as (y & x & y' & Hy & _ & _ & Hturn).
      destruct (Hgoal k Hk) as (g & Hg & Hlg).
      assert (y = repeat g n_timesteps) by congruence; subst y.
      destruct Hturn as (delay & bump & Hd & Hbump & Hcat & _).
      assert (delay = reach_delay cfg draws k)
        by (symmetry; apply Ret_inj; exact Hd).
      subst delay.
      destruct (reach_bump_Ret _ _ _ _ Hbump) as (H0 & H1 & H2 & _).
      split; [|split; [exact H0 | split; [exact H1 | exact H2]]].
      destruct (concatenate_axis1_pair _ _ _ Hcat) as (m & Hm & _).
      rewrite squeeze_positions in Hm by lia.
      intros ->; discriminate Hm. }
    split; [intros HB; exact (proj1 (Hturn 0 HB))|].
    intros k Hk; exact (proj2 (Hturn k Hk)).
  - intros (Hn & Hfit).
    set (arr0 := state2target (joint2cartesian goal_states) n_timesteps).
    destruct (for_range_progress
                (reach_trial cfg n_timesteps [c] draws)
                (fun k s =>
                   length (fst s) = k /\
                   Forall (fun x : tensor2 Q => length x = n_timesteps)
                          (fst s) /\
                   length (snd s) = batch_size /\
                   forall j, k <= j ->
                     nth_error (snd s) j = nth_error arr0 j)
                0 batch_size ([], arr0)) as ([acc arr] & Hloop & Hinv).
    + intros k [acc arr] Hk (Hacc & Hrows & Harr & Hrest).
      cbn [fst snd] in *.
      destruct (Hgoal k) as (g & Hg & Hlg); [lia|].
      destruct (reach_trial_returns cfg n_timesteps c draws k acc arr g)
        as (row & tgt & Hturn & Hrow); try lia.
      * apply Hfit; lia.
      * rewrite Hrest by lia; exact Hg.
      * exists (acc ++ [row], firstn k arr ++ tgt :: skipn (S k) arr).
        split; [exact Hturn|]; cbn [fst snd].
        split; [rewrite length_app; simpl; lia|].
        split; [apply Forall_app; split; [exact Hrows|];
                constructor; [exact Hrow | constructor]|].
        split; [rewrite length_update by lia; exact Harr|].
        intros j Hj.
        rewrite nth_error_update by lia.
        destruct (Nat.eqb_spec j k); [lia | apply Hrest; lia].
    + cbn [fst snd]; split; [reflexivity|].
      split; [constructor|].
      split; [|reflexivity].
      unfold arr0, state2target; rewrite length_map; exact Hb.
    + fold arr0; rewrite Hloop; cbn [bind fst snd].
      destruct Hinv as (Hacc & Hrows & _).
      cbn [fst snd] in *.
      pose proof (tf_stack_same_length acc n_timesteps Hrows) as Hstack.
      destruct (tf_stack acc); [reflexivity | discriminate Hstack].
Qed.

(** X9. When [TaskDelayedReach.generate] returns. With the initial state
    drawn, a center [c] and [batch_size] goals of as many coordinates as [c],
    at least two: the call returns exactly when the cue of every trial fits
    into the trial ([0 <= delay_time], [0 <= bump_length] and
    [delay_time + bump_length <= n_timesteps]) and, unless the batch is
    empty, [n_timesteps] is not 1. [np.squeeze] takes the time axis off a
    trial of one timestep, and a cue that does not fit asks [np.zeros] for a
    negative size; an empty batch has no trial to fail on, and is
    returned. *)
Theorem delayed_reach_returns_iff (self : Task) (cfg : TaskDelayedReach)
    (batch_size n_timesteps : nat) (i : list nat) (goal_states : tensor2 Q)
    (draws : list Q) (init_states : State) (row0 c : list Q) :
  initial_state self batch_size i = Ret init_states ->
  nth_error (joint_state init_states) 0 = Some row0 ->
  joint2cartesian [row0] = [c] ->
  has_shape2 batch_size (length c) (joint2cartesian goal_states) = true ->
  2 <= length c ->
  returns (reach_generate self cfg batch_size n_timesteps i goal_states draws)
  = true <->
  (1 <= batch_size -> n_timesteps <> 1) /\
  forall k, k < batch_size -> reach_cue_in_trial cfg n_timesteps draws k.
Proof.
  exact (reach_generate_returns_iff self cfg batch_size n_timesteps i
           goal_states draws init_states row0 c).
Qed.

(** X10. A task built by [TaskDelayedReach(controller)] on a plant with
    [dt > 0] fits its cue into every trial of at least 950 ms, the longest
    delay and the cue: for unit draws in [[0, 1)], a batch that is not empty
    and [n_timesteps] other than 1 with [n_timesteps * dt >= 0.95] seconds,
    [generate] returns. *)
Theorem built_delayed_reach_fits_long_trials (dt : Q) (kw : kwargs)
    (self : Task) (cfg : TaskDelayedReach) (batch_size n_timesteps : nat)
    (i : list nat) (goal_states : tensor2 Q) (draws : list Q)
    (init_states : State) (row0 c : list Q) :
  TaskDelayedReach_new dt kw = Ret (self, cfg) ->
  (0 < dt)%Q ->
  (forall k, k < batch_size ->
     (0 <= nth k draws 0%Q)%Q /\ (nth k draws 0%Q < 1)%Q) ->
  (950 <= inject_Z (Z.of_nat n_timesteps) * dt * 1000)%Q ->
  1 <= batch_size -> n_timesteps <> 1 ->
  initial_state self batch_size i = Ret init_states ->
  nth_error (joint_state init_states) 0 = Some row0 ->
  joint2cartesian [row0] = [c] ->
  has_shape2 batch_size (length c) (joint2cartesian goal_states) = true ->
  2 <= length c ->
  returns (reach_generate self cfg batch_size n_timesteps i goal_states draws)
  = true.
Proof.
  intros Hnew Hdt Hdraws Hlong HB Hn Hinit Hrow0 Hcenter Hshape Hc.
  apply (reach_generate_returns_iff self cfg batch_size n_timesteps i
           goal_states draws init_states row0 c Hinit Hrow0 Hcenter Hshape
           Hc).
  split; [intros _; exact Hn|].
  intros k Hk.
  destruct (TaskDelayedReach_new_Ret _ _ _ _ Hnew) as [_ Hcfg].
  destruct (Hdraws k Hk) as [H0 H1].
  destruct (default_reach_timing dt (nth k draws 0%Q) cfg Hdt H0 H1 Hcfg)
    as [Hbump Hdelay].
  destruct Hbump as (Hb0 & Hb1 & _).
  destruct Hdelay as (delay & Hd & Hd0 & Hd1 & _).
  assert (delay = reach_delay cfg draws k)
    by (symmetry; apply Ret_inj; exact Hd).
  subst delay.
  cbn [fst snd] in Hb1, Hd1.
  split; [exact Hd0 | split; [exact Hb0|]].
  set (delay := reach_delay _ draws k) in *.
  set (bump := dr_bump_length _) in *.
  assert (Hsum : (inject_Z (delay + bump) * (dt * 1000)
                  <= inject_Z (Z.of_nat n_timesteps) * (dt * 1000))%Q).
  { rewrite inject_Z_plus; lra. }
  apply Qmult_le_r in Hsum; [|lra].
  rewrite <- Zle_Qle in Hsum; exact Hsum.
Qed.

(** [goal_state = center + np.array([-0.028279, -0.042601, 0, 0])], the sum
    taken exactly. *)
Definition load_goal (c : list Q) : list Q :=
  map (fun ab => (fst ab + snd ab)%Q)
      (combine c [- (28279 # 1000000); - (42601 # 1000000); 0; 0]%Q).

Lemma bind_Ret_eq {A B : Type} (m : res A) (k : A -> res B) (a : A) :
  m = Ret a -> bind m k = k a.
Proof. intros ->; reflexivity. Qed.

Lemma concat_repeat_row {A : Type} (g : A) (n : nat) :
  concat (repeat [g] n) = repeat g n.
Proof. induction n as [|n IH]; simpl; [|rewrite IH]; reflexivity. Qed.

(** X11. [TaskLoadProbability.generate] returns for every timing: with the
    initial state drawn, a center [c] of four coordinates and probability
    indices below 5, any [batch_size], [n_timesteps] and draws give a batch
    of rank 3. At timestep [t] of trial [k] the input holds the drawn
    probability and its complement from step [fixation_time + 1] on (zero
    before), a zero, and the load marker; the target is the center
    throughout a catch trial, and otherwise the center before the
    perturbation time and from then on the goal state, one state of four
    coordinates for the whole batch. A perturbation time beyond the trial
    is clipped to its end. *)
Theorem load_generate_returns (self : Task) (cfg : TaskLoadProbability)
    (batch_size n_timesteps : nat) (i : list nat) (draws : list load_draws)
    (init_states : State) (row0 c : list Q) :
  initial_state self batch_size i = Ret init_states ->
  nth_error (joint_state init_states) 0 = Some row0 ->
  joint2cartesian [row0] = [c] ->
  length c = 4 ->
  (forall k, k < batch_size -> ld_prob_index (load_draw draws k) < 5) ->
  exists inputs targets goal,
    load_generate self cfg batch_size n_timesteps i draws
    = Ret (Rank3 inputs, targets, init_states) /\
    length goal = 4 /\
    forall k t, k < batch_size -> t < n_timesteps ->
      cell_at inputs k t = Some (load_input_row cfg n_timesteps draws k t) /\
      cell_at targets k t
      = Some (load_target_row cfg n_timesteps draws c goal k t).
Proof.
  intros Hinit Hrow0 Hcenter Hc Hidx.
  unfold TaskLoadProbability_generate.
  rewrite Hinit; cbn [bind].
  rewrite (center_of_row _ _ Hrow0), Hcenter; cbn [bind].
  assert (Hgoal : bzip (bzip (fun a b : Q => Ret (a + b)%Q)) [c]
                    [[- (28279 # 1000000); - (42601 # 1000000); 0; 0]%Q]
                  = Ret [load_goal c]).
  { destruct c as [|c0 [|c1 [|c2 [|c3 [|c4 c]]]]]; simpl in Hc; try lia.
    reflexivity. }
  rewrite Hgoal; cbn [bind].
  assert (Hlg : length (load_goal c) = length c).
  { unfold load_goal; rewrite length_map, length_combine, Hc; reflexivity. }
  assert (Htile : np_tile3 [load_goal c] batch_size n_timesteps
                  = repeat (repeat (load_goal c) n_timesteps) batch_size)
    by (unfold np_tile3; f_equal; apply concat_repeat_row).
  rewrite Htile.
  set (g := load_goal c) in *.
  set (xs0 := repeat (repeat [0; 0; 0; 0]%Q n_timesteps) batch_size).
  set (ys0 := repeat (repeat g n_timesteps) batch_size).
  destruct (for_range_progress
              (load_trial cfg n_timesteps [c] draws)
              (fun k s =>
                 length (fst s) = batch_size /\
                 length (snd s) = batch_size /\
                 (forall j t, j < k -> t < n_timesteps ->
                    cell_at (fst s) j t
                    = Some (load_input_row cfg n_timesteps draws j t) /\
                    cell_at (snd s) j t
                    = Some (load_target_row cfg n_timesteps draws c g j t)) /\
                 (forall j, k <= j -> j < batch_size ->
                    nth_error (fst s) j
                    = Some (repeat [0; 0; 0; 0]%Q n_timesteps) /\
                    nth_error (snd s) j = Some (repeat g n_timesteps)))
              0 batch_size (xs0, ys0)) as ([xs ys] & Hloop & Hinv).
  - intros k [xs ys] Hk (Lx & Ly & Hdone & Hrest); cbn [fst snd] in *.
    destruct (Hrest k) as [Hx Hy]; [lia | lia |].
    destruct (load_trial_returns cfg n_timesteps draws c g k xs ys Hlg
                (Hidx k ltac:(lia)) Hx Hy)
      as (x' & y' & Hturn & Lx' & Ly' & Hrows).
    eexists; split; [exact Hturn|]; cbn [fst snd].
    split; [rewrite length_update by lia; exact Lx|].
    split; [rewrite length_update by lia; exact Ly|].
    split.
    + intros j t Hj Ht; unfold cell_at.
      rewrite !nth_error_update by lia.
      destruct (Nat.eqb_spec j k) as [->|Hne].
      * exact (Hrows t Ht).
      * apply Hdone; [lia | exact Ht].
    + intros j Hj HjB.
      rewrite !nth_error_update by lia.
      destruct (Nat.eqb_spec j k); [lia | apply Hrest; lia].
  - cbn [fst snd]; unfold xs0, ys0; rewrite !repeat_length.
    split; [reflexivity | split; [reflexivity | split]].
    + intros j t Hj; lia.
    + intros j _ Hj; rewrite !nth_error_repeat by exact Hj; auto.
  - exists xs, ys, g; split; [|split].
    + etransitivity; [exact (bind_Ret_eq _ _ _ Hloop) | reflexivity].
    + rewrite Hlg; exact Hc.
    + destruct Hinv as (_ & _ & Hdone & _); cbn [fst snd] in Hdone.
      intros k t Hk Ht; apply Hdone; [lia | exact Ht].
Qed.

Lemma static_cells (space_dim : nat) (self : Task)
    (batch_size n_timesteps : nat) (i : list nat) (goal_states : tensor2 Q)
    (inputs : tf_tensor) (targets : tensor3 Q) (init_states : State) :
  static_generate space_dim self batch_size n_timesteps i goal_states
  = Ret (inputs, targets, init_states) ->
  targets = state2target (joint2cartesian goal_states) n_timesteps /\
  inputs = Rank3 (batch_of inputs) /\
  forall k t,
    cell_at (batch_of inputs) k t
    = option_map (firstn space_dim) (cell_at targets k t).
Proof.
  unfold TaskStaticTarget_generate; intros Hg.
  apply bind_Ret in Hg; destruct Hg as (st & _ & Hg).
  apply Ret_inj in Hg; injection Hg as <- <- _.
  split; [reflexivity | split; [reflexivity|]].
  intros k t; cbn [batch_of]; rewrite slice_last_from_0; apply cell_at_map2.
Qed.

Lemma perturbed_cells (space_dim : nat) (self : Task)
    (batch_size n_timesteps : nat) (i : list nat) (goal_states : tensor2 Q)
    (inputs : tf_tensor) (targets : tensor3 Q) (init_states : State) :
  perturbed_generate space_dim self batch_size n_timesteps i goal_states
  = Ret (inputs, targets, init_states) ->
  targets = state2target (joint2cartesian goal_states) n_timesteps /\
  inputs = Rank3 (batch_of inputs) /\
  forall k t row,
    cell_at targets k t = Some row ->
    cell_at (batch_of inputs) k t = Some (firstn space_dim row ++ [5; 5]%Q).
Proof.
  unfold TaskStaticTargetWithPerturbations_generate; intros Hg.
  apply bind_Ret in Hg; destruct Hg as (st & _ & Hg).
  apply bind_Ret in Hg; destruct Hg as (inp & Hcat & Hg).
  apply Ret_inj in Hg; injection Hg as <- <- _.
  split; [reflexivity | split; [reflexivity|]].
  intros k t row Hrow; cbn [batch_of].
  rewrite slice_last_from_0 in Hcat.
  apply (concat_last_cells _ _ _ k t _ _ Hcat).
  - rewrite cell_at_map2, Hrow; reflexivity.
  - unfold cell_at in Hrow.
    destruct (nth_error (state2target (joint2cartesian goal_states)
                           n_timesteps) k) as [m|] eqn:Em;
      [|discriminate Hrow].
    destruct (concat_last_lengths _ _ _ k (map (firstn space_dim) m) Hcat)
      as (_ & my & Hmy & Hlen).
    { rewrite nth_error_map, Em; reflexivity. }
    assert (Hk : k < batch_size).
    { apply nth_error_lt in Hmy; rewrite repeat_length in Hmy; exact Hmy. }
    rewrite nth_error_repeat in Hmy by exact Hk; injection Hmy as <-.
    rewrite length_map, repeat_length in Hlen.
    unfold cell_at; rewrite nth_error_repeat by exact Hk.
    apply nth_error_repeat.
    rewrite <- Hlen; exact (nth_error_lt _ _ _ Hrow).
Qed.

(** X12. The inputs of the static generators are read off their targets. In
    a batch that [TaskStaticTarget.generate] returns, the input at every
    trial and timestep is the first [space_dim] coordinates of the target
    there; in one that [TaskStaticTargetWithPerturbations.generate] returns,
    it is these coordinates followed by the two perturbation channels, both
    5. *)
Theorem static_inputs_follow_targets (space_dim : nat) (self : Task)
    (batch_size n_timesteps : nat) (i : list nat) (goal_states : tensor2 Q)
    (inputs : tf_tensor) (targets : tensor3 Q) (init_states : State) :
  (static_generate space_dim self batch_size n_timesteps i goal_states
   = Ret (inputs, targets, init_states) ->
   forall k t,
     cell_at (batch_of inputs) k t
     = option_map (firstn space_dim) (cell_at targets k t))
  /\
  (perturbed_generate space_dim self batch_size n_timesteps i goal_states
   = Ret (inputs, targets, init_states) ->
   forall k t row,
     cell_at targets k t = Some row ->
     cell_at (batch_of inputs) k t
     = Some (firstn space_dim row ++ [5; 5]%Q)).
Proof.
  split; intros Hg.
  - exact (proj2 (proj2 (static_cells _ _ _ _ _ _ _ _ _ Hg))).
  - exact (proj2 (proj2 (perturbed_cells _ _ _ _ _ _ _ _ _ Hg))).
Qed.

(** *** [get_input_dim] *)

Lemma shape_last_first_cell (x : tensor3 Q) (row : list Q) :
  cell_at x 0 0 = Some row -> shape_last (Rank3 x) = Some (length row).
Proof.
  unfold cell_at, shape_last.
  destruct x as [|[|r m] x]; simpl; try discriminate.
  intros Heq; injection Heq as ->; reflexivity.
Qed.

Lemma reach_first_cell (self : Task) (cfg : TaskDelayedReach)
    (n_timesteps : nat) (i : list nat) (goal_states : tensor2 Q)
    (draws : list Q) (inputs : tf_tensor) (targets : tensor3 Q)
    (init_states : State) (g : list Q) :
  reach_generate self cfg 1 (S n_timesteps) i goal_states draws
  = Ret (inputs, targets, init_states) ->
  nth_error (joint2cartesian goal_states) 0 = Some g ->
  inputs = Rank3 (batch_of inputs) /\
  exists cue, cell_at (batch_of inputs) 0 0 = Some (firstn 2 g ++ [cue]).
Proof.
  intros Hgen Hg.
  split; [exact (proj1 (reach_generate_rank _ _ _ _ _ _ _ _ _ _ _ _ _ _
                          Hgen) (le_n 1))|].
  destruct (reach_generate_Ret _ _ _ _ _ _ _ _ _ _ _ _ _ _ Hgen)
    as (c & _ & _ & _ & _ & Hturns & _).
  destruct (Hturns 0 (Nat.lt_0_succ 0)) as (y & x & y' & Hy & Hx & _ & Hturn).
  cbn [fst snd] in Hx.
  rewrite (nth_error_state2target _ _ _ _ Hg) in Hy; injection Hy as <-.
  destruct (reach_turn_input _ _ _ _ _ _ _ _ Hturn)
    as (delay & bump & _ & _ & _ & _ & Hrows).
  destruct (Hrows 0 g eq_refl) as (cue & _ & Hrow).
  exists cue; rewrite (cell_at_row _ _ _ _ Hx); exact Hrow.
Qed.

Lemma load_first_cell (self : Task) (cfg : TaskLoadProbability)
    (n_timesteps : nat) (i : list nat) (draws : list load_draws)
    (inputs : tf_tensor) (targets : tensor3 Q) (init_states : State) :
  load_generate self cfg 1 (S n_timesteps) i draws
  = Ret (inputs, targets, init_states) ->
  inputs = Rank3 (batch_of inputs) /\
  exists row, cell_at (batch_of inputs) 0 0 = Some row /\ length row = 4.
Proof.
  intros Hgen.
  split; [exact (load_generate_rank _ _ _ _ _ _ _ _ _ _ _ _ _ Hgen)|].
  destruct (load_generate_marker _ _ _ _ _ _ _ _ _ _ _ _ _ 0 Hgen
              (Nat.lt_0_succ 0)) as (delay & prob & _ & _ & Hrows).
  destruct (load_generate_Ret _ _ _ _ _ _ _ _ _ _ _ _ _ Hgen)
    as (c & goal_state & _ & _ & _ & _ & _ & Hturns & _).
  destruct (Hturns 0 (Nat.lt_0_succ 0))
    as (x & y & x' & y' & Hx & _ & Hx' & _ & Hturn).
  cbn [fst snd] in Hx'.
  simpl in Hx; injection Hx as <-.
  destruct Hturn as (dl & pr & p & _ & _ & _ & _ & Hin).
  pose proof (load_input_length _ _ _ _ _ Hin) as Hlen.
  simpl in Hlen.
  destruct x' as [|row x']; [discriminate Hlen|].
  exists row.
  assert (Hcell : cell_at (batch_of inputs) 0 0 = Some row)
    by (rewrite (cell_at_row _ _ _ _ Hx'); reflexivity).
  split; [exact Hcell|].
  exact (proj1 (proj2 (Hrows 0 row Hcell))).
Qed.

(** X13. [get_input_dim] counts the channels of the inputs of
    [generate(batch_size=1, n_timesteps=5000)]. On a plant that returns one
    goal of [d] coordinates for that call, whenever it returns it gives
    [min(space_dim, d)] for [TaskStaticTarget], two more for
    [TaskStaticTargetWithPerturbations], 3 for [TaskDelayedReach] (two
    position channels and the cue, for [d >= 2]) and 4 for
    [TaskLoadProbability]. *)
Theorem get_input_dim_counts_channels (space_dim : nat) (self : Task)
    (reach_cfg : TaskDelayedReach) (load_cfg : TaskLoadProbability)
    (i : list nat) (goal_states : tensor2 Q) (reach_draws : list Q)
    (load_draws : list load_draws) (d : nat) (dim : option nat) :
  has_shape2 1 d (joint2cartesian goal_states) = true ->
  (get_input_dim State
     (fun b n => static_generate space_dim self b n i goal_states)
   = Ret dim -> dim = Some (Nat.min space_dim d)) /\
  (get_input_dim State
     (fun b n => perturbed_generate space_dim self b n i goal_states)
   = Ret dim -> dim = Some (Nat.min space_dim d + 2)) /\
  (2 <= d ->
   get_input_dim State
     (fun b n => reach_generate self reach_cfg b n i goal_states reach_draws)
   = Ret dim -> dim = Some 3) /\
  (get_input_dim State
     (fun b n => load_generate self load_cfg b n i load_draws)
   = Ret dim -> dim = Some 4).
Proof.
  intros Hshape.
  apply has_shape2_inv in Hshape; destruct Hshape as [Hone Hw].
  destruct (joint2cartesian goal_states) as [|g [|g' gs]] eqn:Egoals;
    simpl in Hone; try discriminate.
  assert (Hg : length g = d) by (apply Hw; left; reflexivity).
  assert (Hcell : forall n,
            cell_at (state2target [g] (S n)) 0 0 = Some g) by reflexivity.
  unfold get_input_dim.
  split; [|split; [|split]].
  - intros Hdim.
    apply bind_Ret in Hdim; destruct Hdim as ([[inputs targets] st] & Hgen & Hdim).
    apply Ret_inj in Hdim; subst dim.
    destruct (static_cells _ _ _ _ _ _ _ _ _ Hgen) as (-> & Hrank & Hcells).
    destruct inputs as [v|inputs]; [discriminate Hrank|].
    cbn [batch_of] in Hcells.
    rewrite Egoals in Hcells.
    specialize (Hcells 0 0); rewrite Hcell in Hcells.
    rewrite (shape_last_first_cell _ _ Hcells), length_firstn, Hg.
    reflexivity.
  - intros Hdim.
    apply bind_Ret in Hdim; destruct Hdim as ([[inputs targets] st] & Hgen & Hdim).
    apply Ret_inj in Hdim; subst dim.
    destruct (perturbed_cells _ _ _ _ _ _ _ _ _ Hgen)
      as (-> & Hrank & Hcells).
    destruct inputs as [v|inputs]; [discriminate Hrank|].
    cbn [batch_of] in Hcells.
    rewrite Egoals in Hcells.
    specialize (Hcells 0 0 g (Hcell _)).
    rewrite (shape_last_first_cell _ _ Hcells), length_app, length_firstn, Hg.
    reflexivity.
  - intros Hd Hdim.
    apply bind_Ret in Hdim; destruct Hdim as ([[inputs targets] st] & Hgen & Hdim).
    apply Ret_inj in Hdim; subst dim.
    destruct (reach_first_cell _ _ _ _ _ _ _ _ _ g Hgen)
      as (Hrank & cue & Hcue).
    { rewrite Egoals; reflexivity. }
    destruct inputs as [v|inputs]; [discriminate Hrank|].
    cbn [batch_of] in Hcue.
    rewrite (shape_last_first_cell _ _ Hcue), length_app, length_firstn, Hg.
    cbn [length]; f_equal; lia.
  - intros Hdim.
    apply bind_Ret in Hdim; destruct Hdim as ([[inputs targets] st] & Hgen & Hdim).
    apply Ret_inj in Hdim; subst dim.
    destruct (load_first_cell _ _ _ _ _ _ _ _ Hgen)
      as (Hrank & row & Hrow & Hlen).
    destruct inputs as [v|inputs]; [discriminate Hrank|].
    cbn [batch_of] in Hrow.
    rewrite (shape_last_first_cell _ _ Hrow), Hlen; reflexivity.
Qed.

(** ** Where [TaskDelayedMultiReach.generate] raises *)

(** The next call of a chain returns. *)
Ltac bind_step H :=
  etransitivity; [apply bind_Ret_eq; exact H | cbv beta].

Lemma combine_repeat {A B : Type} (x : A) (y : B) (n : nat) :
  combine (repeat x n) (repeat y n) = repeat (x, y) n.
Proof. induction n as [|n IH]; simpl; [|rewrite IH]; reflexivity. Qed.

Lemma flat_map_repeat_rows {A : Type} (x : A) (n k : nat) :
  flat_map (fun row => repeat row k) (repeat x n) = repeat x (n * k).
Proof.
  induction n as [|n IH]; simpl; [reflexivity|].
  rewrite IH, repeat_app; reflexivity.
Qed.

(** [np.concatenate] along axis 1 of positions held for [n] steps. *)
Lemma concatenate_axis1_held (ps : list (list Q)) (n : nat) :
  ps <> [] ->
  concatenate_axis1 (map (fun p => Arr2 (repeat p n)) ps)
  = Ret (repeat (concat ps) n).
Proof.
  induction ps as [|p ps IH]; [congruence|]; intros _.
  destruct ps as [|p' ps].
  - simpl; rewrite app_nil_r; reflexivity.
  - change (concatenate_axis1 (map (fun p => Arr2 (repeat p n))
                                   (p :: p' :: ps)))
      with (rest <- concatenate_axis1 (map (fun p => Arr2 (repeat p n))
                                           (p' :: ps)) ;;
            if Nat.eqb (length (repeat p n)) (length rest)
            then Ret (map (fun uv => fst uv ++ snd uv)
                          (combine (repeat p n) rest))
            else Raise ValueError).
    rewrite IH by discriminate; cbn [bind].
    rewrite !repeat_length, Nat.eqb_refl, combine_repeat, map_repeat.
    reflexivity.
Qed.

Lemma multi_columns (n i : nat) (target_list : list (tensor3 Q))
    (gs : list (list Q)) :
  2 <= n -> Forall (fun g => length g = 4) gs ->
  Forall2 (fun tl g => nth_error tl i = Some (repeat g n)) target_list gs ->
  mapM (fun tl : tensor3 Q =>
          trial <- getitem_list tl i ;;
          Ret (squeeze (map (fun v => firstn 2 v) trial))) target_list
  = Ret (map (fun p => Arr2 (repeat p n)) (map (firstn 2) gs)).
Proof.
  intros Hn Hw Hheld; revert Hw.
  induction Hheld as [|tl g tls gs Hg Hgs IH]; intros Hw;
    [reflexivity|].
  inversion Hw as [|? ? Hg4 Hw']; subst.
  cbn [mapM map].
  rewrite (IH Hw').
  unfold getitem_list; rewrite Hg; cbn [bind].
  rewrite squeeze_positions by lia.
  destruct (Nat.eqb_spec n 1) as [|_]; [lia|].
  rewrite map_repeat; reflexivity.
Qed.

Lemma np_zeros2_nat (n c : nat) :
  np_zeros2 (Z.of_nat n) (Z.of_nat c) = Ret (repeat (repeat 0%Q c) n).
Proof.
  unfold np_zeros2.
  destruct (Z.ltb_spec (Z.of_nat n) 0); [lia|].
  destruct (Z.ltb_spec (Z.of_nat c) 0); [lia|].
  cbn [orb]; rewrite !Nat2Z.id; reflexivity.
Qed.

Lemma length_concat_positions (gs : list (list Q)) :
  Forall (fun g => length g = 4) gs ->
  length (concat (map (firstn 2) gs)) = 2 * length gs.
Proof.
  induction 1 as [|g gs Hg Hgs IH]; [reflexivity|].
  cbn [map concat length].
  rewrite length_app, length_firstn, Hg, IH; lia.
Qed.

Section MultiReachInputs.
Variable cfg : TaskDelayedMultiReach.
Variable n_timesteps : nat.
Variable center : tensor2 Q.
Variable target_list : list (tensor3 Q).

(** The input of trial [i] gets as far as its float index: the positions of
    the goals are laid side by side and repeated, the zeros for the first
    two phases are put before them and the center is written over the first
    [n_timesteps] rows; the row index of the next line is a float. *)
Lemma multi_input_tensor_index_error (i : nat) (c0 : list Q)
    (gs : list (list Q)) :
  nth_error center 0 = Some c0 -> 2 <= length c0 ->
  Forall2 (fun tl g => nth_error tl i = Some (repeat g n_timesteps))
          target_list gs ->
  Forall (fun g => length g = 4) gs ->
  length target_list = mr_num_target cfg -> 1 <= mr_num_target cfg ->
  2 <= n_timesteps -> (0 <= multi_late cfg)%Q ->
  multi_input_tensor cfg n_timesteps center target_list i
  = Raise IndexError.
Proof.
  intros Hc0 Hlc Hheld Hw HK HK1 Hn Hlate.
  set (n := n_timesteps) in *.
  set (K := mr_num_target cfg) in *.
  set (G := concat (map (firstn 2) gs)).
  set (C := flat_map (fun x => repeat x K) (firstn 2 c0)).
  set (Zr := repeat 0%Q (2 * K)).
  assert (HgsK : length gs = K)
    by (rewrite <- (Forall2_length Hheld); exact HK).
  assert (Hpl : (0 <= py_int (multi_late cfg))%Z)
    by (apply py_int_above; exact Hlate).
  set (L := Z.to_nat (py_int (multi_late cfg))) in *.
  assert (LC : length C = 2 * K).
  { unfold C; rewrite length_flat_map_repeat, length_firstn.
    rewrite Nat.min_l by exact Hlc; lia. }
  assert (LZ : length Zr = 2 * K) by apply repeat_length.
  assert (LG : length G = 2 * K)
    by (unfold G; rewrite length_concat_positions, HgsK by exact Hw;
        reflexivity).
  set (it2 := repeat Zr n ++ repeat Zr L ++ repeat G (n * K)).
  assert (W2 : Forall (fun old : list Q => length old = 2 * K) it2).
  { unfold it2; rewrite !Forall_app; repeat split;
      apply Forall_forall; intros v Hv; apply repeat_spec in Hv; subst v;
      assumption. }
  unfold multi_input_tensor; fold (multi_late cfg); fold n K.
  bind_step (multi_columns n i target_list gs Hn Hw Hheld).
  rewrite concatenate_axis1_held
    by (destruct gs; [simpl in HgsK; lia | discriminate]).
  cbn [bind]; fold G.
  rewrite flat_map_repeat_rows.
  rewrite !np_zeros2_nat; cbn [bind].
  replace (np_zeros2 (py_int (multi_late cfg)) (Z.of_nat (2 * K)))
    with (Ret (repeat Zr L)).
  2:{ rewrite <- (Z2Nat.id (py_int (multi_late cfg))) by exact Hpl.
      symmetry; apply np_zeros2_nat. }
  cbn [bind]; fold Zr it2.
  unfold getitem_list at 1; rewrite Hc0; cbn [bind]; fold C.
  rewrite setitem_rows_one_row
    by (revert W2; apply Forall_impl; intros v Hv; congruence).
  reflexivity.
Qed.
End MultiReachInputs.

Lemma multi_bump_returns (cfg : TaskDelayedMultiReach) (n_timesteps : nat)
    (delay : Z) :
  (0 <= delay)%Z -> (0 <= mr_bump_length cfg)%Z ->
  (inject_Z delay <= snd (mr_delay_range cfg))%Q ->
  returns (multi_bump cfg n_timesteps delay) = true.
Proof.
  intros Hdelay Hbump Hmax; unfold multi_bump, np_zeros, np_ones, np_full.
  assert (Hrest : (0 <= py_int (snd (mr_delay_range cfg)
                                 - inject_Z delay))%Z)
    by (apply py_int_above; change (inject_Z 0) with 0%Q; lra).
  destruct (Z.ltb_spec (Z.of_nat n_timesteps) 0); [lia|].
  destruct (Z.ltb_spec delay 0); [lia|].
  destruct (Z.ltb_spec (mr_bump_length cfg) 0); [lia|].
  cbn [bind].
  destruct (Z.ltb_spec
              (Z.of_nat (mr_num_target cfg * n_timesteps)
               + py_int (snd (mr_delay_range cfg) - inject_Z delay)) 0);
    [lia | reflexivity].
Qed.

Lemma for_range_first_raise {S : Type} (body : nat -> S -> res S)
    (start count : nat) (s : S) (e : exn) :
  body start s = Raise e -> 1 <= count ->
  for_range body start count s = Raise e.
Proof.
  intros Hbody Hcount; destruct count as [|count]; [lia|].
  cbn [for_range]; rewrite Hbody; reflexivity.
Qed.

(** X1. [TaskDelayedMultiReach.generate] builds no trial. With
    [batch_size >= 1] no call returns, whatever the task, the plant and the
    draws. And on an input that the lines before can work with (the initial
    state drawn, a center of at least two coordinates, [batch_size] goals
    of four coordinates per target, at least one target and two timesteps,
    delay bounds [0 <= delay_min <= delay_max], a cue of non-negative
    length, a unit draw in [[0, 1)] for the first trial), the call raises
    [IndexError]: the first turn of the loop samples its delay, builds its
    cue and its input up to the center, and then indexes the input with
    [n_timesteps + self.delay_range[1] + self.bump_length + 1], a float. *)
Theorem multi_reach_generate_raises (self : Task)
    (cfg : TaskDelayedMultiReach) (batch_size n_timesteps : nat)
    (i : list nat) (goal_draws : list (tensor2 Q)) (draws : list Q)
    (init_states : State) (row0 c0 : list Q) :
  1 <= batch_size ->
  returns (multi_generate self cfg batch_size n_timesteps i goal_draws draws)
  = false /\
  (initial_state self batch_size i = Ret init_states ->
   nth_error (joint_state init_states) 0 = Some row0 ->
   joint2cartesian [row0] = [c0] -> 2 <= length c0 ->
   (forall j, j < mr_num_target cfg ->
      has_shape2 batch_size 4 (joint2cartesian (nth j goal_draws []))
      = true) ->
   1 <= mr_num_target cfg -> 2 <= n_timesteps ->
   (0 <= fst (mr_delay_range cfg))%Q ->
   (fst (mr_delay_range cfg) <= snd (mr_delay_range cfg))%Q ->
   (0 <= mr_bump_length cfg)%Z ->
   (0 <= nth 0 draws 0%Q)%Q -> (nth 0 draws 0%Q < 1)%Q ->
   multi_generate self cfg batch_size n_timesteps i goal_draws draws
   = Raise IndexError).
Proof.
  intros HB; split;
    [exact (multi_generate_raises State joint_state
              controller_get_initial_state joint2cartesian self cfg
              batch_size n_timesteps i goal_draws draws HB)|].
  intros Hinit Hrow0 Hcenter Hlc Hshape HK1 Hn Hmin Hle Hbump H0 H1.
  assert (Hbq : (0 <= inject_Z (mr_bump_length cfg))%Q)
    by (change 0%Q with (inject_Z 0); rewrite <- Zle_Qle; exact Hbump).
  assert (Hlate : (0 <= multi_late cfg)%Q) by (unfold multi_late; lra).
  assert (Htl : multi_target_list joint2cartesian cfg batch_size n_timesteps
                  goal_draws
                = Ret (map (fun j => state2target
                                       (joint2cartesian (nth j goal_draws []))
                                       n_timesteps)
                           (seq 0 (mr_num_target cfg)))).
  { unfold multi_target_list; apply mapM_map_Ret; intros j Hj.
    apply in_seq in Hj; apply broadcast3_held, Hshape; lia. }
  destruct (multi_target_list_held joint2cartesian cfg batch_size
              n_timesteps goal_draws _ 0 Hshape Htl HB)
    as (Hheld & Hw & HK).
  destruct (generate_delay_time_bounds _ _ _ Hmin Hle H0 H1)
    as (delay & Hd & _ & Hhi & Hdelay).
  assert (Hseq : (0 <= multi_sequence_time cfg n_timesteps)%Z).
  { unfold multi_sequence_time; apply py_int_above.
    change (inject_Z 0) with 0%Q.
    assert (0 <= inject_Z (Z.of_nat ((mr_num_target cfg + 1)
                                      * n_timesteps)))%Q
      by (change 0%Q with (inject_Z 0); rewrite <- Zle_Qle; lia).
    lra. }
  unfold TaskDelayedMultiReach_generate.
  rewrite Hinit; cbn [bind].
  rewrite (center_of_row _ _ Hrow0), Hcenter; cbn [bind].
  bind_step Htl.
  unfold np_zeros2.
  destruct (Z.ltb_spec (multi_sequence_time cfg n_timesteps) 0); [lia|].
  cbn [orb Z.ltb Z.compare bind].
  rewrite (for_range_first_raise _ 0 batch_size _ IndexError);
    [reflexivity | | exact HB].
  unfold multi_trial.
  bind_step Hd.
  pose proof (multi_bump_returns cfg n_timesteps delay Hdelay Hbump Hhi)
    as Hret.
  destruct (multi_bump cfg n_timesteps delay) as [bump|e];
    [|discriminate Hret].
  cbn [bind].
  rewrite (multi_input_tensor_index_error cfg n_timesteps [c0] _ 0 c0
             (multi_goals joint2cartesian cfg goal_draws 0) eq_refl Hlc
             Hheld Hw HK HK1 Hn Hlate).
  reflexivity.
Qed.

End MoreGeneratorFacts.

(** ** The further facts on the point-mass plant *)

(** The keywords of two calls: [initial_joint_state] alone, and
    [bump_length], [delay_range] and [num_target] as well. *)
Definition ex_kw_states : kwargs :=
  mkKwargs (Some (Matrix ex_state)) None None None None None [].

Definition ex_kw_timing : kwargs :=
  mkKwargs (Some (Matrix ex_state)) (Some 10%Q) None (Some (10%Q, 30%Q))
    (Some 2) None [].

(** The delayed reach built with its defaults on the point-mass plant. *)
Definition ex_default_reach_cfg : TaskDelayedReach :=
  Eval vm_compute in
    unwrap (mkDelayedReach 0 0 (0, 0)%Q)
      (TaskDelayedReach_init pm_dt None None None).

Lemma constructors_take_keywords_witness :
  TaskStaticTarget_new ex_kw_timing = Raise TypeError /\
  TaskDelayedReach_new pm_dt ex_kw_timing = Raise TypeError /\
  TaskLoadProbability_new pm_dt ex_kw_timing = Raise TypeError.
Proof.
  apply (proj1 (constructors_take_keywords pm_dt ex_kw_timing)).
  reflexivity.
Defined.

Lemma recompute_targets_key_and_shape_witness :
  (exists targets',
     TaskDelayedReach_hook.recompute_targets tt ex_targets ex_outputs
     = Ret targets' /\ has_shape3 1 2 4 targets' = true) /\
  (exists targets',
     TaskLoadProbability_hook.recompute_targets ex_inputs ex_targets
       ex_outputs = Ret targets' /\ has_shape3 1 2 4 targets' = true).
Proof.
  apply (proj2 (recompute_targets_key_and_shape 1 2 4 4 tt ex_inputs
                  ex_targets ex_outputs) ex_cp);
    first [reflexivity | repeat constructor].
Defined.

Lemma initial_states_come_from_the_pool_witness :
  exists rows,
    get_initial_state pm_State pm_get_initial_state ex_task 2 [0; 1]
    = Ret (pm_get_initial_state 2 (Some rows)) /\
    length rows = 2 /\
    forall k j, nth_error [0; 1] k = Some j ->
      nth_error rows k = nth_error ex_state j.
Proof.
  apply (proj2 (initial_states_come_from_the_pool pm_State
                  pm_get_initial_state (Matrix ex_state) 2 [0; 1])).
  - discriminate.
  - repeat constructor.
Defined.

Lemma delayed_reach_returns_iff_witness :
  returns ex_reach_batch = true <->
  (1 <= 2 -> 6 <> 1) /\
  forall k, k < 2 -> reach_cue_in_trial ex_reach_cfg 6 ex_reach_draws k.
Proof.
  apply (delayed_reach_returns_iff pm_State pm_joint_state
           pm_get_initial_state pm_joint2cartesian ex_task ex_reach_cfg 2 6
           [0; 1] ex_goals ex_reach_draws ex_state [0; 0; 0; 0]%Q
           [0; 0; 0; 0]%Q);
    first [reflexivity | repeat constructor].
Defined.

Lemma load_generate_returns_witness :
  exists inputs targets goal,
    ex_load_batch = Ret (Rank3 inputs, targets, ex_state) /\
    length goal = 4 /\
    forall k t, k < 2 -> t < 6 ->
      cell_at inputs k t = Some (load_input_row ex_load_cfg 6 ex_load_draws k t)
      /\
      cell_at targets k t
      = Some (load_target_row ex_load_cfg 6 ex_load_draws [0; 0; 0; 0]%Q
                goal k t).
Proof.
  apply (load_generate_returns pm_State pm_joint_state pm_get_initial_state
           pm_joint2cartesian ex_task ex_load_cfg 2 6 [0; 1] ex_load_draws
           ex_state [0; 0; 0; 0]%Q [0; 0; 0; 0]%Q);
    try reflexivity.
  intros [|[|k]] Hk; [vm_compute; lia | vm_compute; lia | lia].
Defined.

Lemma static_inputs_follow_targets_witness :
  (forall k t,
     cell_at ex_static_inputs k t
     = option_map (firstn 2) (cell_at ex_static_targets k t)) /\
  (forall k t row,
     cell_at ex_perturbed_targets k t = Some row ->
     cell_at ex_perturbed_inputs k t = Some (firstn 2 row ++ [5; 5]%Q)).
Proof.
  split.
  - exact (proj1 (static_inputs_follow_targets pm_State pm_get_initial_state
                    pm_joint2cartesian 2 ex_task 2 6 [0; 1] ex_goals
                    (Rank3 ex_static_inputs) ex_static_targets ex_state)
             ex_static_batch_value).
  - exact (proj2 (static_inputs_follow_targets pm_State pm_get_initial_state
                    pm_joint2cartesian 2 ex_task 2 6 [0; 1] ex_goals
                    (Rank3 ex_perturbed_inputs) ex_perturbed_targets
                    ex_state)
             ex_perturbed_batch_value).
Defined.

(** A task built with its defaults, one trial of 100 steps of 10 ms. *)
Lemma built_delayed_reach_fits_long_trials_witness :
  returns
    (TaskDelayedReach_generate pm_State pm_joint_state pm_get_initial_state
       pm_joint2cartesian
       (with_recompute_targets (Task_init (Some (Matrix ex_state))))
       ex_default_reach_cfg 1 100 [0] [[5; 6; 0; 0]]%Q [1 # 2]%Q)
  = true.
Proof.
  refine (built_delayed_reach_fits_long_trials pm_State pm_joint_state
            pm_get_initial_state pm_joint2cartesian pm_dt ex_kw_states
            (with_recompute_targets (Task_init (Some (Matrix ex_state))))
            ex_default_reach_cfg 1 100 [0]
            [[5; 6; 0; 0]]%Q [1 # 2]%Q [[0; 0; 0; 0]]%Q [0; 0; 0; 0]%Q
            [0; 0; 0; 0]%Q eq_refl eq_refl _ _ (le_n 1) _ eq_refl eq_refl
            eq_refl eq_refl _).
  - intros [|k] Hk; [|lia].
    split; [intro Hq; discriminate Hq | reflexivity].
  - intro Hq; discriminate Hq.
  - discriminate.
  - repeat constructor.
Defined.

Lemma hooks_read_the_marker_only_witness :
  TaskLoadProbability_hook.recompute_targets ex_inputs ex_targets ex_outputs
  = TaskLoadProbability_hook.recompute_targets
      ([[[fl 1; fl 2; fl 3; fl (-1)]; [fl 4; fl 5; fl 6; fl 0]]], 0%nat)
      ex_targets ex_outputs.
Proof.
  apply (proj2 (hooks_read_the_marker_only 1 2 4 4 4 tt tt ex_inputs
                  ([[[fl 1; fl 2; fl 3; fl (-1)];
                     [fl 4; fl 5; fl 6; fl 0]]], 0%nat)
                  ex_targets ex_cp ex_outputs));
    try first [reflexivity | repeat constructor].
  intros i j m m' Hm Hm'.
  destruct i as [|i]; [|destruct i; discriminate Hm].
  destruct j as [|[|j]]; [| |destruct j; discriminate Hm].
  - injection Hm as <-; injection Hm' as <-; reflexivity.
  - injection Hm as <-; injection Hm' as <-; reflexivity.
Defined.

(** [get_input_dim] of the four tasks, one goal drawn for the call: 2, 4, 3
    and 4 channels. *)
Lemma ex_dim_static_value :
  get_input_dim pm_State
    (fun b n => TaskStaticTarget_generate pm_State pm_get_initial_state
                  pm_joint2cartesian 2 ex_task b n [0] [[5; 6; 0; 0]]%Q)
  = Ret (Some 2).
Proof. vm_compute; reflexivity. Qed.

Lemma ex_dim_perturbed_value :
  get_input_dim pm_State
    (fun b n => TaskStaticTargetWithPerturbations_generate pm_State
                  pm_get_initial_state pm_joint2cartesian 2 ex_task b n [0]
                  [[5; 6; 0; 0]]%Q)
  = Ret (Some 4).
Proof. vm_compute; reflexivity. Qed.

Lemma ex_dim_reach_value :
  get_input_dim pm_State
    (fun b n => TaskDelayedReach_generate pm_State pm_joint_state
                  pm_get_initial_state pm_joint2cartesian ex_task
                  ex_reach_cfg b n [0] [[5; 6; 0; 0]]%Q [1 # 2]%Q)
  = Ret (Some 3).
Proof. vm_compute; reflexivity. Qed.

Lemma ex_dim_load_value :
  get_input_dim pm_State
    (fun b n => TaskLoadProbability_generate pm_State pm_joint_state
                  pm_get_initial_state pm_joint2cartesian ex_task
                  ex_load_cfg b n [0] ex_load_draws)
  = Ret (Some 4).
Proof. vm_compute; reflexivity. Qed.

Lemma get_input_dim_counts_channels_witness :
  Some 2 = Some (Nat.min 2 4) /\ Some 4 = Some (Nat.min 2 4 + 2) /\
  Some 3 = Some 3 /\ Some 4 = Some 4.
Proof.
  assert (Hshape : has_shape2 1 4 (pm_joint2cartesian [[5; 6; 0; 0]]%Q)
                   = true) by reflexivity.
  split; [|split; [|split]].
  - exact (proj1 (get_input_dim_counts_channels pm_State pm_joint_state
                    pm_get_initial_state pm_joint2cartesian 2 ex_task
                    ex_reach_cfg ex_load_cfg [0] [[5; 6; 0; 0]]%Q [1 # 2]%Q
                    ex_load_draws 4 (Some 2) Hshape) ex_dim_static_value).
  - exact (proj1 (proj2 (get_input_dim_counts_channels pm_State
                           pm_joint_state pm_get_initial_state
                           pm_joint2cartesian 2 ex_task ex_reach_cfg
                           ex_load_cfg [0] [[5; 6; 0; 0]]%Q [1 # 2]%Q
                           ex_load_draws 4 (Some 4) Hshape)) ex_dim_perturbed_value).
  - exact (proj1 (proj2 (proj2 (get_input_dim_counts_channels pm_State
                                  pm_joint_state pm_get_initial_state
                                  pm_joint2cartesian 2 ex_task ex_reach_cfg
                                  ex_load_cfg [0] [[5; 6; 0; 0]]%Q
                                  [1 # 2]%Q ex_load_draws 4 (Some 3)
                                  Hshape)))
             ltac:(repeat constructor) ex_dim_reach_value).
  - exact (proj2 (proj2 (proj2 (get_input_dim_counts_channels pm_State
                                  pm_joint_state pm_get_initial_state
                                  pm_joint2cartesian 2 ex_task ex_reach_cfg
                                  ex_load_cfg [0] [[5; 6; 0; 0]]%Q
                                  [1 # 2]%Q ex_load_draws 4 (Some 4)
                                  Hshape)))
             ex_dim_load_value).
Defined.

(** The multi-reach call of two trials: it raises, and the exception is the
    [IndexError] of the float index at line 197. *)
Lemma multi_reach_generate_raises_witness :
  returns ex_multi_batch = false /\ ex_multi_batch = Raise IndexError.
Proof.
  destruct (multi_reach_generate_raises pm_State pm_joint_state
              pm_get_initial_state pm_joint2cartesian ex_task ex_multi_cfg
              2 6 [0; 1] ex_multi_goals [1 # 2; 0]%Q ex_state
              [0; 0; 0; 0]%Q [0; 0; 0; 0]%Q (le_S 1 1 (le_n 1)))
    as [Hnever Hindex].
  split; [exact Hnever|].
  apply Hindex; try reflexivity.
  - repeat constructor.
  - intros [|[|j]] Hj; [reflexivity | reflexivity |].
    change (mr_num_target ex_multi_cfg) with 2 in Hj; lia.
  - change (mr_num_target ex_multi_cfg) with 2; lia.
  - lia.
  - vm_compute; intro Hq; discriminate Hq.
  - vm_compute; intro Hq; discriminate Hq.
  - vm_compute; intro Hq; discriminate Hq.
  - vm_compute; intro Hq; discriminate Hq.
Defined.
